(** * Fire suppression fuzzy-logic controller

    A shallow embedding of [FuzzyLogicController]
    (src/fuzzy_logic_controller.py) and the properties its specification
    states about it.

    Numbers.  The controller computes on Python numbers; the specification
    speaks of real temperatures and durations.  Two embeddings of the
    arithmetic are given.  In the first every number is an exact rational
    ([Q]): the literals of the source ([0.2], [12.5], [22.5], ...) are read
    as the decimal fractions they denote, and [+], [-], [*], [/] are exact.
    It carries what the specification says of guards, orderings, categories
    and curves.  The second, [B64], rounds the result of every operation to
    the nearest binary64 number, as Python's [float] does; it carries what is
    said of the computed values themselves: the defuzzified output, the
    spray duration, the water level and the water pressure.  Equality of
    numbers is [Qeq] ([==]), as two fractions may denote one number.

    Dictionaries.  A Python [dict] keeps its keys in insertion order, and
    [get_dominant_membership] depends on that order, so a dictionary is an
    association list.

    Exceptions.  A computation either returns a value or raises; the three
    exceptions the controller's operations can raise are modelled
    ([KeyError], [IndexError], [ZeroDivisionError]). *)

From Stdlib Require Import QArith ZArith List String Ascii Bool Lia Lqa.
From Stdlib Require Import Qminmax Qround Qpower Qreduction DecimalString.
Import ListNotations.

Local Open Scope string_scope.
Local Open Scope Q_scope.

(** ** Python primitives *)

Module Py.

(** Exceptions raised by the operations used in the controller. *)
Inductive exn : Type :=
| KeyError (key : string)
| IndexError
| ZeroDivisionError.

(** The outcome of running a piece of code. *)
Inductive result (A : Type) : Type :=
| Return (value : A)
| Raise (e : exn).

Arguments Return {A} value.
Arguments Raise {A} e.

Definition bind {A B : Type} (c : result A) (k : A -> result B) : result B :=
  match c with
  | Return a => k a
  | Raise e => Raise e
  end.

(** [a <= b] and [a < b] on numbers. *)
Definition le (a b : Q) : bool := Qle_bool a b.
Definition lt (a b : Q) : bool := negb (Qle_bool b a).

(** [max(a, b)]: the first argument unless the second is strictly greater. *)
Definition max (a b : Q) : Q := if lt a b then b else a.

(** [min(a, b)]: the first argument unless the second is strictly smaller. *)
Definition min (a b : Q) : Q := if lt b a then b else a.

(** [a / b], true division: raises on a zero divisor. *)
Definition div (a b : Q) : result Q :=
  if Qeq_bool b 0 then Raise ZeroDivisionError else Return (a / b).

(** [int(x)]: truncation toward zero. *)
Definition int (x : Q) : Z := Z.quot (Qnum x) (Zpos (Qden x)).

(** A [dict] with string keys and numeric values, in insertion order. *)
Definition dict : Type := list (string * Q).

(** [m[key]] *)
Fixpoint getitem (m : dict) (key : string) : result Q :=
  match m with
  | [] => Raise (KeyError key)
  | (k, v) :: rest => if String.eqb k key then Return v else getitem rest key
  end.

(** [m[key] = value]: an existing key keeps its position, a new key goes
    last. *)
Fixpoint setitem (m : dict) (key : string) (value : Q) : dict :=
  match m with
  | [] => [(key, value)]
  | (k, v) :: rest =>
      if String.eqb k key then (k, value) :: rest
      else (k, v) :: setitem rest key value
  end.

Definition keys (m : dict) : list string := map fst m.
Definition values (m : dict) : list Q := map snd m.

(** ASCII case mapping, as [str.upper] and [str.lower] act on one
    character. *)
Definition upper_char (c : ascii) : ascii :=
  let n := nat_of_ascii c in
  if (97 <=? n)%nat && (n <=? 122)%nat then ascii_of_nat (n - 32) else c.

Definition lower_char (c : ascii) : ascii :=
  let n := nat_of_ascii c in
  if (65 <=? n)%nat && (n <=? 90)%nat then ascii_of_nat (n + 32) else c.

Fixpoint lower (s : string) : string :=
  match s with
  | EmptyString => EmptyString
  | String c rest => String (lower_char c) (lower rest)
  end.

(** [s.capitalize()]: first character upper case, the rest lower case. *)
Definition capitalize (s : string) : string :=
  match s with
  | EmptyString => EmptyString
  | String c rest => String (upper_char c) (lower rest)
  end.

(** Truth value of a string: the empty string is false. *)
Definition truthy (s : string) : bool :=
  match s with
  | EmptyString => false
  | String _ _ => true
  end.

End Py.

Import Py.

Notation "x <- c ;; k" := (Py.bind c (fun x => k))
  (at level 61, c at next level, right associativity).

(** ** The controller *)

(** [get_heat_membership(temp)] *)
Definition get_heat_membership (temp : Q) : dict :=
  let memberships :=
    [("low", 0); ("medium", 0); ("high", 0); ("critical", 0)] in
  (* Low: 70-120 *)
  let memberships :=
    if le temp 120
    then setitem memberships "low" (max 0 ((120 - temp) / 50))
    else memberships in
  (* Medium: 100-180 *)
  let memberships :=
    if le 100 temp && le temp 180
    then if le temp 140
         then setitem memberships "medium" ((temp - 100) / 40)
         else setitem memberships "medium" ((180 - temp) / 40)
    else memberships in
  (* High: 150-220 *)
  let memberships :=
    if le 150 temp && le temp 220
    then if le temp 185
         then setitem memberships "high" ((temp - 150) / 35)
         else setitem memberships "high" ((220 - temp) / 35)
    else memberships in
  (* Critical: 200+ *)
  let memberships :=
    if le 200 temp
    then setitem memberships "critical" (min 1 ((temp - 200) / 100))
    else memberships in
  memberships.

(** [get_duration_membership(duration)] *)
Definition get_duration_membership (duration : Q) : dict :=
  let memberships := [("short", 0); ("medium", 0); ("long", 0)] in
  (* Short: 0-15s *)
  let memberships :=
    if le duration 15
    then setitem memberships "short" (max 0 ((15 - duration) / 15))
    else memberships in
  (* Medium: 10-35s *)
  let memberships :=
    if le 10 duration && le duration 35
    then if le duration 22.5
         then setitem memberships "medium" ((duration - 10) / 12.5)
         else setitem memberships "medium" ((35 - duration) / 12.5)
    else memberships in
  (* Long: 25s+ *)
  let memberships :=
    if le 25 duration
    then setitem memberships "long" (min 1 ((duration - 25) / 35))
    else memberships in
  memberships.

(** One entry of the [rules] list of [get_fuzzy_output]. *)
Record rule : Type := Rule {
  heat : string;
  duration : string;
  output : Q
}.

Definition rules : list rule :=
  [ (* Rule 1: low heat, any duration = no water *)
    Rule "low" "short" 0;
    Rule "low" "medium" 0;
    Rule "low" "long" 0;
    (* Rule 2: medium heat *)
    Rule "medium" "short" 0.2;
    Rule "medium" "medium" 0.4;
    Rule "medium" "long" 0.6;
    (* Rule 3: high heat *)
    Rule "high" "short" 0.6;
    Rule "high" "medium" 0.8;
    Rule "high" "long" 1.0;
    (* Rule 4: critical heat *)
    Rule "critical" "short" 0.8;
    Rule "critical" "medium" 1.0;
    Rule "critical" "long" 1.0 ].

(** The body of the [for rule in rules] loop: the state is the pair
    [(numerator, denominator)]. *)
Definition apply_rule (heat_memberships duration_memberships : dict)
    (acc : Q * Q) (r : rule) : result (Q * Q) :=
  h <- getitem heat_memberships (heat r) ;;
  d <- getitem duration_memberships (duration r) ;;
  let strength := min h d in
  Return (fst acc + strength * output r, snd acc + strength).

(** The loop itself, over any list of rules. *)
Fixpoint accumulate (heat_memberships duration_memberships : dict)
    (rs : list rule) (acc : Q * Q) : result (Q * Q) :=
  match rs with
  | [] => Return acc
  | r :: rest =>
      acc' <- apply_rule heat_memberships duration_memberships acc r ;;
      accumulate heat_memberships duration_memberships rest acc'
  end.

(** [get_fuzzy_output(heat_memberships, duration_memberships)] *)
Definition get_fuzzy_output (heat_memberships duration_memberships : dict)
    : result Q :=
  sums <- accumulate heat_memberships duration_memberships rules (0, 0) ;;
  let numerator := fst sums in
  let denominator := snd sums in
  if lt 0 denominator then div numerator denominator else Return 0.

(** The [for key, value in memberships.items()] loop of
    [get_dominant_membership]; the state is [(max_value, dominant)]. *)
Fixpoint dominant_loop (items : dict) (max_value : Q) (dominant : string)
    : Q * string :=
  match items with
  | [] => (max_value, dominant)
  | (key, value) :: rest =>
      if lt max_value value
      then dominant_loop rest value key
      else dominant_loop rest max_value dominant
  end.

(** [get_dominant_membership(memberships)] *)
Definition get_dominant_membership (memberships : dict) : result string :=
  let dominant := snd (dominant_loop memberships 0 "") in
  if truthy dominant then Return dominant
  else match keys memberships with
       | [] => Raise IndexError
       | k :: _ => Return k
       end.

(** The dictionary returned by [calculate_system_response]. *)
Record SystemResponse : Type := {
  heat_memberships : dict;
  duration_memberships : dict;
  water_output : Q;
  dominant_heat : string;
  dominant_duration : string;
  should_trigger : bool;
  spray_duration : Z;
  system_status : string;
  status_color : string;
  water_level : string;
  water_pressure : Z
}.

(** [calculate_system_response(heat_level, duration)] *)
Definition calculate_system_response (heat_level duration : Q)
    : result SystemResponse :=
  let heat_memberships := get_heat_membership heat_level in
  let duration_memberships := get_duration_membership duration in
  water_output <- get_fuzzy_output heat_memberships duration_memberships ;;
  dominant_heat <- get_dominant_membership heat_memberships ;;
  dominant_duration <- get_dominant_membership duration_memberships ;;
  let should_trigger := le 155 heat_level && lt 0 duration in
  let base_duration := 5000 in
  let heat_multiplier := max 1 ((heat_level - 155) / 50) in
  let output_multiplier := max 0.5 water_output in
  let spray_duration := base_duration * heat_multiplier * output_multiplier in
  let '(system_status, status_color) :=
    if should_trigger then ("ACTIVE", "#ff4444")
    else if le 140 heat_level then ("WARNING", "#ffa726")
    else ("STANDBY", "#4ecdc4") in
  let water_level :=
    if lt 0 water_output
    then if lt water_output 0.3 then "Low"
         else if lt water_output 0.7 then "Medium"
         else "High"
    else "None" in
  Return {|
    heat_memberships := heat_memberships;
    duration_memberships := duration_memberships;
    water_output := water_output;
    dominant_heat := capitalize dominant_heat;
    dominant_duration := capitalize dominant_duration;
    should_trigger := should_trigger;
    spray_duration := int spray_duration;
    system_status := system_status;
    status_color := status_color;
    water_level := water_level;
    water_pressure := int (water_output * 100)
  |}.

(** ** The value stored under each key *)

(** The value [get_heat_membership] leaves under each key: the initial [0]
    unless the key's guard holds. *)
Definition heat_low (temp : Q) : Q :=
  if le temp 120 then max 0 ((120 - temp) / 50) else 0.

Definition heat_medium (temp : Q) : Q :=
  if le 100 temp && le temp 180
  then if le temp 140 then (temp - 100) / 40 else (180 - temp) / 40
  else 0.

Definition heat_high (temp : Q) : Q :=
  if le 150 temp && le temp 220
  then if le temp 185 then (temp - 150) / 35 else (220 - temp) / 35
  else 0.

Definition heat_critical (temp : Q) : Q :=
  if le 200 temp then min 1 ((temp - 200) / 100) else 0.

Definition duration_short (d : Q) : Q :=
  if le d 15 then max 0 ((15 - d) / 15) else 0.

Definition duration_medium (d : Q) : Q :=
  if le 10 d && le d 35
  then if le d 22.5 then (d - 10) / 12.5 else (35 - d) / 12.5
  else 0.

Definition duration_long (d : Q) : Q :=
  if le 25 d then min 1 ((d - 25) / 35) else 0.

(** ** The specification's formulas

    The specification states the defuzzifier as a weighted average over a
    table, and [int] as truncation.  These definitions follow its words; the
    theorems below compare them with the code. *)

(** Firing strength of a rule: the minimum of the two membership degrees. *)
Definition strength_spec (h d : Q) : Q := Qmin h d.

(** Sum of strength * rule-output over the table
      low -> 0, 0, 0; medium -> 0.2, 0.4, 0.6;
      high -> 0.6, 0.8, 1.0; critical -> 0.8, 1.0, 1.0
    (columns short, medium, long). *)
Definition numerator_spec (hl hm hh hc ds dm dl : Q) : Q :=
  strength_spec hl ds * 0 + strength_spec hl dm * 0 + strength_spec hl dl * 0
  + strength_spec hm ds * 0.2 + strength_spec hm dm * 0.4
  + strength_spec hm dl * 0.6
  + strength_spec hh ds * 0.6 + strength_spec hh dm * 0.8
  + strength_spec hh dl * 1.0
  + strength_spec hc ds * 0.8 + strength_spec hc dm * 1.0
  + strength_spec hc dl * 1.0.

(** Sum of the twelve strengths. *)
Definition denominator_spec (hl hm hh hc ds dm dl : Q) : Q :=
  strength_spec hl ds + strength_spec hl dm + strength_spec hl dl
  + strength_spec hm ds + strength_spec hm dm + strength_spec hm dl
  + strength_spec hh ds + strength_spec hh dm + strength_spec hh dl
  + strength_spec hc ds + strength_spec hc dm + strength_spec hc dl.

(** Truncation of a number to an integer, toward zero. *)
Definition truncate_spec (q : Q) : Z :=
  if Qle_bool 0 q then Qfloor q else Qceiling q.

(** The two sums at the dictionaries of a temperature and a duration. *)
Definition input_numerator (t d : Q) : Q :=
  numerator_spec (heat_low t) (heat_medium t) (heat_high t) (heat_critical t)
    (duration_short d) (duration_medium d) (duration_long d).

Definition input_denominator (t d : Q) : Q :=
  denominator_spec (heat_low t) (heat_medium t) (heat_high t)
    (heat_critical t)
    (duration_short d) (duration_medium d) (duration_long d).

(** * The window

    [FireSuppressionGUI] (src/gui_components.py) holds the controller, a few
    attributes and the widgets.  The model keeps the attributes, the options
    the methods set on widgets (texts, colours, states), the size of the fire
    image on the canvas and the number of [countdown_fire_timer] calls queued
    with [root.after].  Everything else drawn on the canvas (background,
    sprinkler head, water drops) is left out: [draw_sprinkler],
    [load_background_image] and [animate_water_spray] read the modelled
    attributes but assign none of them. *)

Module Gui.

Inductive widget_state : Type := NORMAL | DISABLED.

(** What a method can raise: an exception of the controller or of an
    operator, or the read of an attribute that was never assigned. *)
Inductive exn : Type :=
| Builtin (e : Py.exn)
| AttributeError (name : string).

Inductive outcome (A : Type) : Type :=
| Done (a : A)
| Failed (e : exn).

Arguments Done {A} a.
Arguments Failed {A} e.

Definition and_then {A B : Type} (c : outcome A) (k : A -> outcome B)
    : outcome B :=
  match c with
  | Done a => k a
  | Failed e => Failed e
  end.

(** Result of a controller call or of an operator, seen from a method. *)
Definition lift {A : Type} (c : result A) : outcome A :=
  match c with
  | Return a => Done a
  | Raise e => Failed (Builtin e)
  end.

(** [self.name], for an attribute assigned only by [start_fire]. *)
Definition attr {A : Type} (name : string) (value : option A) : outcome A :=
  match value with
  | Some a => Done a
  | None => Failed (AttributeError name)
  end.

(** An integer inside an f-string: its decimal digits. *)
Definition str (z : Z) : string := NilZero.string_of_int (Z.to_int z).

(** The degree sign followed by F, in UTF-8. *)
Definition degree_F : string := String "194"%char (String "176"%char "F").

Definition newline : string := String "010"%char "".

Record gui : Type := MkGui {
  heat_level : Q;  (* the slider's DoubleVar *)
  is_triggered : bool;
  animation_running : bool;
  initial_heat : option Q;  (* unset until start_fire *)
  fire_timer : option Z;  (* unset until start_fire *)
  total_fire_time : option Z;  (* unset until start_fire *)
  fire_img_orig : bool;  (* true: the image was loaded; false: None *)
  heat_scale : widget_state;  (* state of the slider *)
  start_btn : widget_state;  (* state of the Start Fire button *)
  timer_label : string;
  heat_value_label : string;
  heat_fuzzy_label : string;
  water_fuzzy_label : string;
  status_label : string * string;  (* text and fg *)
  pressure_label : string;
  heat_membership_frame : list string;  (* texts of its labels, in order *)
  fire_item : option (Z * Z);  (* canvas item tagged fire: width, height *)
  pending_countdowns : nat  (* countdown_fire_timer calls queued by after *)
}.

(** Assignment to one attribute or widget option. *)
Definition set_heat_level (v : Q) (g : gui) : gui :=
  MkGui v (g.(is_triggered)) (g.(animation_running)) (g.(initial_heat))
    (g.(fire_timer)) (g.(total_fire_time)) (g.(fire_img_orig))
    (g.(heat_scale)) (g.(start_btn)) (g.(timer_label)) (g.(heat_value_label))
    (g.(heat_fuzzy_label)) (g.(water_fuzzy_label)) (g.(status_label))
    (g.(pressure_label)) (g.(heat_membership_frame)) (g.(fire_item))
    (g.(pending_countdowns)).

Definition set_is_triggered (v : bool) (g : gui) : gui :=
  MkGui (g.(heat_level)) v (g.(animation_running)) (g.(initial_heat))
    (g.(fire_timer)) (g.(total_fire_time)) (g.(fire_img_orig))
    (g.(heat_scale)) (g.(start_btn)) (g.(timer_label)) (g.(heat_value_label))
    (g.(heat_fuzzy_label)) (g.(water_fuzzy_label)) (g.(status_label))
    (g.(pressure_label)) (g.(heat_membership_frame)) (g.(fire_item))
    (g.(pending_countdowns)).

Definition set_animation_running (v : bool) (g : gui) : gui :=
  MkGui (g.(heat_level)) (g.(is_triggered)) v (g.(initial_heat))
    (g.(fire_timer)) (g.(total_fire_time)) (g.(fire_img_orig))
    (g.(heat_scale)) (g.(start_btn)) (g.(timer_label)) (g.(heat_value_label))
    (g.(heat_fuzzy_label)) (g.(water_fuzzy_label)) (g.(status_label))
    (g.(pressure_label)) (g.(heat_membership_frame)) (g.(fire_item))
    (g.(pending_countdowns)).

Definition set_initial_heat (v : option Q) (g : gui) : gui :=
  MkGui (g.(heat_level)) (g.(is_triggered)) (g.(animation_running)) v
    (g.(fire_timer)) (g.(total_fire_time)) (g.(fire_img_orig))
    (g.(heat_scale)) (g.(start_btn)) (g.(timer_label)) (g.(heat_value_label))
    (g.(heat_fuzzy_label)) (g.(water_fuzzy_label)) (g.(status_label))
    (g.(pressure_label)) (g.(heat_membership_frame)) (g.(fire_item))
    (g.(pending_countdowns)).

Definition set_fire_timer (v : option Z) (g : gui) : gui :=
  MkGui (g.(heat_level)) (g.(is_triggered)) (g.(animation_running))
    (g.(initial_heat)) v (g.(total_fire_time)) (g.(fire_img_orig))
    (g.(heat_scale)) (g.(start_btn)) (g.(timer_label)) (g.(heat_value_label))
    (g.(heat_fuzzy_label)) (g.(water_fuzzy_label)) (g.(status_label))
    (g.(pressure_label)) (g.(heat_membership_frame)) (g.(fire_item))
    (g.(pending_countdowns)).

Definition set_total_fire_time (v : option Z) (g : gui) : gui :=
  MkGui (g.(heat_level)) (g.(is_triggered)) (g.(animation_running))
    (g.(initial_heat)) (g.(fire_timer)) v (g.(fire_img_orig)) (g.(heat_scale))
    (g.(start_btn)) (g.(timer_label)) (g.(heat_value_label))
    (g.(heat_fuzzy_label)) (g.(water_fuzzy_label)) (g.(status_label))
    (g.(pressure_label)) (g.(heat_membership_frame)) (g.(fire_item))
    (g.(pending_countdowns)).

Definition set_heat_scale (v : widget_state) (g : gui) : gui :=
  MkGui (g.(heat_level)) (g.(is_triggered)) (g.(animation_running))
    (g.(initial_heat)) (g.(fire_timer)) (g.(total_fire_time))
    (g.(fire_img_orig)) v (g.(start_btn)) (g.(timer_label))
    (g.(heat_value_label)) (g.(heat_fuzzy_label)) (g.(water_fuzzy_label))
    (g.(status_label)) (g.(pressure_label)) (g.(heat_membership_frame))
    (g.(fire_item)) (g.(pending_countdowns)).

Definition set_start_btn (v : widget_state) (g : gui) : gui :=
  MkGui (g.(heat_level)) (g.(is_triggered)) (g.(animation_running))
    (g.(initial_heat)) (g.(fire_timer)) (g.(total_fire_time))
    (g.(fire_img_orig)) (g.(heat_scale)) v (g.(timer_label))
    (g.(heat_value_label)) (g.(heat_fuzzy_label)) (g.(water_fuzzy_label))
    (g.(status_label)) (g.(pressure_label)) (g.(heat_membership_frame))
    (g.(fire_item)) (g.(pending_countdowns)).

Definition set_timer_label (v : string) (g : gui) : gui :=
  MkGui (g.(heat_level)) (g.(is_triggered)) (g.(animation_running))
    (g.(initial_heat)) (g.(fire_timer)) (g.(total_fire_time))
    (g.(fire_img_orig)) (g.(heat_scale)) (g.(start_btn)) v
    (g.(heat_value_label)) (g.(heat_fuzzy_label)) (g.(water_fuzzy_label))
    (g.(status_label)) (g.(pressure_label)) (g.(heat_membership_frame))
    (g.(fire_item)) (g.(pending_countdowns)).

Definition set_heat_value_label (v : string) (g : gui) : gui :=
  MkGui (g.(heat_level)) (g.(is_triggered)) (g.(animation_running))
    (g.(initial_heat)) (g.(fire_timer)) (g.(total_fire_time))
    (g.(fire_img_orig)) (g.(heat_scale)) (g.(start_btn)) (g.(timer_label)) v
    (g.(heat_fuzzy_label)) (g.(water_fuzzy_label)) (g.(status_label))
    (g.(pressure_label)) (g.(heat_membership_frame)) (g.(fire_item))
    (g.(pending_countdowns)).

Definition set_heat_fuzzy_label (v : string) (g : gui) : gui :=
  MkGui (g.(heat_level)) (g.(is_triggered)) (g.(animation_running))
    (g.(initial_heat)) (g.(fire_timer)) (g.(total_fire_time))
    (g.(fire_img_orig)) (g.(heat_scale)) (g.(start_btn)) (g.(timer_label))
    (g.(heat_value_label)) v (g.(water_fuzzy_label)) (g.(status_label))
    (g.(pressure_label)) (g.(heat_membership_frame)) (g.(fire_item))
    (g.(pending_countdowns)).

Definition set_water_fuzzy_label (v : string) (g : gui) : gui :=
  MkGui (g.(heat_level)) (g.(is_triggered)) (g.(animation_running))
    (g.(initial_heat)) (g.(fire_timer)) (g.(total_fire_time))
    (g.(fire_img_orig)) (g.(heat_scale)) (g.(start_btn)) (g.(timer_label))
    (g.(heat_value_label)) (g.(heat_fuzzy_label)) v (g.(status_label))
    (g.(pressure_label)) (g.(heat_membership_frame)) (g.(fire_item))
    (g.(pending_countdowns)).

Definition set_status_label (v : string * string) (g : gui) : gui :=
  MkGui (g.(heat_level)) (g.(is_triggered)) (g.(animation_running))
    (g.(initial_heat)) (g.(fire_timer)) (g.(total_fire_time))
    (g.(fire_img_orig)) (g.(heat_scale)) (g.(start_btn)) (g.(timer_label))
    (g.(heat_value_label)) (g.(heat_fuzzy_label)) (g.(water_fuzzy_label)) v
    (g.(pressure_label)) (g.(heat_membership_frame)) (g.(fire_item))
    (g.(pending_countdowns)).

Definition set_pressure_label (v : string) (g : gui) : gui :=
  MkGui (g.(heat_level)) (g.(is_triggered)) (g.(animation_running))
    (g.(initial_heat)) (g.(fire_timer)) (g.(total_fire_time))
    (g.(fire_img_orig)) (g.(heat_scale)) (g.(start_btn)) (g.(timer_label))
    (g.(heat_value_label)) (g.(heat_fuzzy_label)) (g.(water_fuzzy_label))
    (g.(status_label)) v (g.(heat_membership_frame)) (g.(fire_item))
    (g.(pending_countdowns)).

Definition set_heat_membership_frame (v : list string) (g : gui) : gui :=
  MkGui (g.(heat_level)) (g.(is_triggered)) (g.(animation_running))
    (g.(initial_heat)) (g.(fire_timer)) (g.(total_fire_time))
    (g.(fire_img_orig)) (g.(heat_scale)) (g.(start_btn)) (g.(timer_label))
    (g.(heat_value_label)) (g.(heat_fuzzy_label)) (g.(water_fuzzy_label))
    (g.(status_label)) (g.(pressure_label)) v (g.(fire_item))
    (g.(pending_countdowns)).

Definition set_fire_item (v : option (Z * Z)) (g : gui) : gui :=
  MkGui (g.(heat_level)) (g.(is_triggered)) (g.(animation_running))
    (g.(initial_heat)) (g.(fire_timer)) (g.(total_fire_time))
    (g.(fire_img_orig)) (g.(heat_scale)) (g.(start_btn)) (g.(timer_label))
    (g.(heat_value_label)) (g.(heat_fuzzy_label)) (g.(water_fuzzy_label))
    (g.(status_label)) (g.(pressure_label)) (g.(heat_membership_frame)) v
    (g.(pending_countdowns)).

Definition set_pending_countdowns (v : nat) (g : gui) : gui :=
  MkGui (g.(heat_level)) (g.(is_triggered)) (g.(animation_running))
    (g.(initial_heat)) (g.(fire_timer)) (g.(total_fire_time))
    (g.(fire_img_orig)) (g.(heat_scale)) (g.(start_btn)) (g.(timer_label))
    (g.(heat_value_label)) (g.(heat_fuzzy_label)) (g.(water_fuzzy_label))
    (g.(status_label)) (g.(pressure_label)) (g.(heat_membership_frame))
    (g.(fire_item)) v.

(** The f-string of the countdown label. *)
Definition countdown_text (timer total : Z) : string :=
  "Fire will be extinguished in " ++ str timer ++ "s (Total: " ++ str total
  ++ "s)".

Definition too_small_text (timer total : Z) : string :=
  "Fire is too small for sprinkler activation." ++ newline
  ++ countdown_text timer total.

(** The expression [int(3 + 12 * ((heat - 70) / 230))] of [start_fire] and
    [animate_fire]. *)
Definition fire_seconds (heat : Q) : Z := int (3 + 12 * ((heat - 70) / 230)).

(** [animate_fire()] *)
Definition animate_fire (g : gui) : outcome gui :=
  let g := set_fire_item None g in
  if negb g.(is_triggered) then Done g
  else if negb g.(fire_img_orig) then Done g
  else
    and_then (attr "fire_timer" g.(fire_timer)) (fun timer =>
    if (timer <=? 0)%Z then Done g
    else
      let min_height := 60 in
      let max_height := 320 in
      and_then (attr "initial_heat" g.(initial_heat)) (fun initial =>
      and_then (lift (div (inject_Z timer)
                        (inject_Z (fire_seconds initial))))
        (fun timer_ratio =>
      let fire_height :=
        int (min_height + (max_height - min_height) * ((initial - 70) / 230))
      in
      let fire_height := int (inject_Z fire_height * timer_ratio) in
      let fire_width := int (inject_Z fire_height * 0.7) in
      Done (set_fire_item (Some (fire_width, fire_height)) g)))).

(** [countdown_fire_timer()] *)
Definition countdown_fire_timer (g : gui) : outcome gui :=
  and_then (attr "fire_timer" g.(fire_timer)) (fun timer =>
  if (0 <? timer)%Z && g.(is_triggered) then
    and_then (attr "total_fire_time" g.(total_fire_time)) (fun total =>
    let g := set_timer_label (countdown_text timer total) g in
    let g := set_fire_timer (Some (timer - 1)%Z) g in
    and_then (animate_fire g) (fun g =>
    Done (set_pending_countdowns (S g.(pending_countdowns)) g)))
  else
    let g := set_timer_label "Fire extinguished!" g in
    let g := set_is_triggered false g in
    let g := set_animation_running false g in
    and_then (animate_fire g) (fun g =>
    let g := set_heat_scale NORMAL g in
    Done (set_start_btn NORMAL g))).

(** [start_fire()] *)
Definition start_fire (g : gui) : outcome gui :=
  if g.(is_triggered) then Done g
  else
    let g := set_heat_scale DISABLED g in
    let g := set_start_btn DISABLED g in
    let g := set_is_triggered true g in
    let initial := g.(heat_level) in
    let g := set_initial_heat (Some initial) g in
    let timer := fire_seconds initial in
    let g := set_fire_timer (Some timer) g in
    let g := set_total_fire_time (Some timer) g in
    let g :=
      if le 155 initial then
        let g := set_animation_running true g in
        set_timer_label (countdown_text timer timer) g
      else
        let g := set_animation_running false g in
        set_timer_label (too_small_text timer timer) g in
    and_then (animate_fire g) countdown_fire_timer.

(** The event loop runs one queued [countdown_fire_timer]; [None] when
    none is queued. *)
Definition tick (g : gui) : option (outcome gui) :=
  match g.(pending_countdowns) with
  | O => None
  | S n => Some (countdown_fire_timer (set_pending_countdowns n g))
  end.

(** The queued calls, one after the other, for as long as one is queued
    and at most [fuel] of them; the count of calls made is returned with the
    state. *)
Fixpoint run_countdown (fuel : nat) (g : gui) : outcome (gui * nat) :=
  match fuel with
  | O => Done (g, O)
  | S fuel' =>
      match tick g with
      | None => Done (g, O)
      | Some c =>
          and_then c (fun g' =>
          and_then (run_countdown fuel' g') (fun gn =>
          Done (fst gn, S (snd gn))))
      end
  end.

Section Display.

(** The text of a number under the format [.2f].  Formatting rounds a
    binary floating-point value; it is taken as given. *)
Variable format_2f : Q -> string.

(** The loop of [update_membership_display]: one label per degree above
    0.01. *)
Fixpoint membership_labels (items : dict) : list string :=
  match items with
  | [] => []
  | (key, value) :: rest =>
      if lt 0.01 value
      then (capitalize key ++ ": " ++ format_2f value)
             :: membership_labels rest
      else membership_labels rest
  end.

(** [update_membership_display(result)] *)
Definition update_membership_display (result : SystemResponse) (g : gui)
    : gui :=
  set_heat_membership_frame
    ("Heat:" :: membership_labels result.(heat_memberships)) g.

(** [update_system()] *)
Definition update_system (g : gui) : outcome gui :=
  and_then (lift (calculate_system_response g.(heat_level) 0)) (fun result =>
  let g := set_heat_fuzzy_label result.(dominant_heat) g in
  let g := set_water_fuzzy_label result.(water_level) g in
  let g :=
    set_status_label (result.(system_status), result.(status_color)) g in
  let g := set_pressure_label (str result.(water_pressure) ++ "%") g in
  Done (update_membership_display result g)).

(** [on_heat_change(value)]; [value] is the number the slider passes. *)
Definition on_heat_change (value : Q) (g : gui) : outcome gui :=
  let g := set_heat_value_label (str (int value) ++ degree_F) g in
  update_system g.

(** Moving the slider: the scale stores the value in its variable
    ([variable=self.heat_level]) and calls its command
    ([command=self.on_heat_change]). *)
Definition slide (value : Q) (g : gui) : outcome gui :=
  on_heat_change value (set_heat_level value g).

(** [reset_system()] *)
Definition reset_system (g : gui) : outcome gui :=
  let g := set_is_triggered false g in
  let g := set_animation_running false g in
  let g := set_heat_level 70 g in
  let g := set_heat_scale NORMAL g in
  let g := set_start_btn NORMAL g in
  and_then (update_system g) (fun g =>
  and_then (animate_fire g) (fun g =>
  Done (set_timer_label "" g))).

(** [__init__(root)]: the attributes, the widgets with the texts
    [setup_ui] gives them, [update_system()], and then the image, loaded or
    not. *)
Definition init (image_loaded : bool) : outcome gui :=
  let g :=
    {| heat_level := 70;
       is_triggered := false;
       animation_running := false;
       initial_heat := None;
       fire_timer := None;
       total_fire_time := None;
       fire_img_orig := image_loaded;
       heat_scale := NORMAL;
       start_btn := NORMAL;
       timer_label := "";
       heat_value_label := "70" ++ degree_F;
       heat_fuzzy_label := "Low";
       water_fuzzy_label := "None";
       status_label := ("STANDBY", "#4ecdc4");
       pressure_label := "0%";
       heat_membership_frame := [];
       fire_item := None;
       pending_countdowns := O |} in
  update_system g.

(** What happens in the window: the slider is moved to a value, a button
    is pressed, or the event loop runs a queued [countdown_fire_timer].  A
    disabled widget ignores the user; here the events may come in any state
    and with any value, which only adds runs. *)
Inductive event : Type :=
| Slide (value : Q)
| ClickStart
| ClickReset
| Timer.

(** The method an event calls; [None] for [Timer] with nothing queued. *)
Definition handle (e : event) (g : gui) : option (outcome gui) :=
  match e with
  | Slide value => Some (slide value g)
  | ClickStart => Some (start_fire g)
  | ClickReset => Some (reset_system g)
  | Timer => tick g
  end.

(** A sequence of events, from an outcome on; an exception ends the run,
    a [Timer] with nothing queued is skipped. *)
Fixpoint run_events (events : list event) (o : outcome gui) : outcome gui :=
  match events with
  | [] => o
  | e :: rest =>
      and_then o (fun g =>
      match handle e g with
      | None => run_events rest (Done g)
      | Some o' => run_events rest o'
      end)
  end.

End Display.

(** The invariant behind the absence of exceptions: the timer is set
    whenever a fire runs or a countdown is queued, and a timer that is set
    came with an initial heat and a total and has not grown past the seconds
    of that heat. *)
Definition timer_consistent (g : gui) : Prop :=
  (g.(is_triggered) = true \/ g.(pending_countdowns) <> O ->
   g.(fire_timer) <> None) /\
  (forall k, g.(fire_timer) = Some k ->
     exists h total,
       g.(initial_heat) = Some h /\ g.(total_fire_time) = Some total /\
       (k <= fire_seconds h)%Z).

(** An idle window with the slider at [heat]: attributes and widget
    texts as [__init__] and [setup_ui] create them. *)
Definition idle_window (heat : Q) (image_loaded : bool) : gui :=
  {| heat_level := heat;
     is_triggered := false;
     animation_running := false;
     initial_heat := None;
     fire_timer := None;
     total_fire_time := None;
     fire_img_orig := image_loaded;
     heat_scale := NORMAL;
     start_btn := NORMAL;
     timer_label := "";
     heat_value_label := "70" ++ degree_F;
     heat_fuzzy_label := "Low";
     water_fuzzy_label := "None";
     status_label := ("STANDBY", "#4ecdc4");
     pressure_label := "0%";
     heat_membership_frame := [];
     fire_item := None;
     pending_countdowns := O |}.

(** The status label as [update_system] sets it, with duration 0. *)
Definition status_of (heat : Q) : string * string :=
  if le 140 heat then ("WARNING", "#ffa726") else ("STANDBY", "#4ecdc4").

Definition window_ok (g : gui) : Prop :=
  timer_consistent g /\ g.(status_label) = status_of g.(heat_level).

End Gui.

(** * Binary floating point

    Python's [float] is IEEE 754 binary64, and every operation on it is
    rounded to the nearest binary64 number, ties to even.  A finite binary64
    number is a rational, so this second embedding of the controller keeps
    [Q] as the carrier and rounds after each operation; comparisons, [max],
    [min] and [int] are exact on binary64 numbers and are those of [Py].  An
    integer of the source ([0], [1], [120], [5000], ...) stands for itself:
    mixed with a [float] it is converted without error.  Overflow to
    infinity is not modelled; see [input] below. *)

Module B64.

Definition pow2 (k : Z) : Q := 2 ^ k.

(** The exponent [k] with [2^k <= x < 2^(k+1)], for [0 < x]. *)
Definition ilog2 (x : Q) : Z :=
  let k0 := (Z.log2 (Qnum x) - Z.log2 (Zpos (Qden x)))%Z in
  if Qle_bool (pow2 k0) x then k0 else (k0 - 1)%Z.

(** Exponent of the least positive binary64 number. *)
Definition emin : Z := (-1074)%Z.

(** Exponent of the last of the 53 bits of [x]. *)
Definition exponent (x : Q) : Z := Z.max (ilog2 x - 52) emin.

(** Nearest integer, ties to even. *)
Definition rne (x : Q) : Z :=
  let f := Qfloor x in
  match Qcompare (x - inject_Z f) (1 # 2) with
  | Lt => f
  | Gt => (f + 1)%Z
  | Eq => if Z.even f then f else (f + 1)%Z
  end.

Definition round_pos (x : Q) : Q :=
  let e := exponent x in inject_Z (rne (x / pow2 e)) * pow2 e.

(** The binary64 number nearest to [x], ties to even. *)
Definition round (x : Q) : Q :=
  let y := Qred x in
  match Qcompare y 0 with
  | Eq => 0
  | Gt => round_pos y
  | Lt => - round_pos (- y)
  end.

(** A number that a [float] can hold. *)
Definition representable (x : Q) : Prop := round x == x.

(** A decimal literal of the source denotes the nearest binary64 number. *)
Definition lit (x : Q) : Q := round x.

(** [a + b], [a - b], [a * b] on floats. *)
Definition add (a b : Q) : Q := round (a + b).
Definition sub (a b : Q) : Q := round (a - b).
Definition mul (a b : Q) : Q := round (a * b).

(** [a / b] by a nonzero literal [b]. *)
Definition quo (a b : Q) : Q := round (a / b).

(** [a / b], true division: raises on a zero divisor. *)
Definition div (a b : Q) : result Q :=
  if Qeq_bool b 0 then Raise ZeroDivisionError else Return (round (a / b)).

(** [get_heat_membership(temp)] *)
Definition get_heat_membership (temp : Q) : dict :=
  let memberships :=
    [("low", 0); ("medium", 0); ("high", 0); ("critical", 0)] in
  let memberships :=
    if le temp 120
    then setitem memberships "low" (max 0 (quo (sub 120 temp) 50))
    else memberships in
  let memberships :=
    if le 100 temp && le temp 180
    then if le temp 140
         then setitem memberships "medium" (quo (sub temp 100) 40)
         else setitem memberships "medium" (quo (sub 180 temp) 40)
    else memberships in
  let memberships :=
    if le 150 temp && le temp 220
    then if le temp 185
         then setitem memberships "high" (quo (sub temp 150) 35)
         else setitem memberships "high" (quo (sub 220 temp) 35)
    else memberships in
  let memberships :=
    if le 200 temp
    then setitem memberships "critical" (min 1 (quo (sub temp 200) 100))
    else memberships in
  memberships.

(** [get_duration_membership(duration)] *)
Definition get_duration_membership (duration : Q) : dict :=
  let memberships := [("short", 0); ("medium", 0); ("long", 0)] in
  let memberships :=
    if le duration 15
    then setitem memberships "short" (max 0 (quo (sub 15 duration) 15))
    else memberships in
  let memberships :=
    if le 10 duration && le duration 35
    then if le duration (lit 22.5)
         then setitem memberships "medium" (quo (sub duration 10) (lit 12.5))
         else setitem memberships "medium" (quo (sub 35 duration) (lit 12.5))
    else memberships in
  let memberships :=
    if le 25 duration
    then setitem memberships "long" (min 1 (quo (sub duration 25) 35))
    else memberships in
  memberships.

(** The body of the [for rule in rules] loop. *)
Definition apply_rule (heat_memberships duration_memberships : dict)
    (acc : Q * Q) (r : rule) : result (Q * Q) :=
  h <- getitem heat_memberships (heat r) ;;
  d <- getitem duration_memberships (duration r) ;;
  let strength := min h d in
  Return (add (fst acc) (mul strength (lit (output r))),
          add (snd acc) strength).

Fixpoint accumulate (heat_memberships duration_memberships : dict)
    (rs : list rule) (acc : Q * Q) : result (Q * Q) :=
  match rs with
  | [] => Return acc
  | r :: rest =>
      acc' <- apply_rule heat_memberships duration_memberships acc r ;;
      accumulate heat_memberships duration_memberships rest acc'
  end.

(** [get_fuzzy_output(heat_memberships, duration_memberships)] *)
Definition get_fuzzy_output (heat_memberships duration_memberships : dict)
    : result Q :=
  sums <- accumulate heat_memberships duration_memberships rules (0, 0) ;;
  let numerator := fst sums in
  let denominator := snd sums in
  if lt 0 denominator then div numerator denominator else Return 0.

(** [calculate_system_response(heat_level, duration)] *)
Definition calculate_system_response (heat_level duration : Q)
    : result SystemResponse :=
  let heat_memberships := get_heat_membership heat_level in
  let duration_memberships := get_duration_membership duration in
  water_output <- get_fuzzy_output heat_memberships duration_memberships ;;
  dominant_heat <- get_dominant_membership heat_memberships ;;
  dominant_duration <- get_dominant_membership duration_memberships ;;
  let should_trigger := le 155 heat_level && lt 0 duration in
  let base_duration := 5000 in
  let heat_multiplier := max 1 (quo (sub heat_level 155) 50) in
  let output_multiplier := max (lit 0.5) water_output in
  let spray_duration :=
    mul (mul base_duration heat_multiplier) output_multiplier in
  let '(system_status, status_color) :=
    if should_trigger then ("ACTIVE", "#ff4444")
    else if le 140 heat_level then ("WARNING", "#ffa726")
    else ("STANDBY", "#4ecdc4") in
  let water_level :=
    if lt 0 water_output
    then if lt water_output (lit 0.3) then "Low"
         else if lt water_output (lit 0.7) then "Medium"
         else "High"
    else "None" in
  Return {|
    heat_memberships := heat_memberships;
    duration_memberships := duration_memberships;
    water_output := water_output;
    dominant_heat := capitalize dominant_heat;
    dominant_duration := capitalize dominant_duration;
    should_trigger := should_trigger;
    spray_duration := int spray_duration;
    system_status := system_status;
    status_color := status_color;
    water_level := water_level;
    water_pressure := int (mul water_output 100)
  |}.

(** ** The value stored under each key *)

Definition heat_low (temp : Q) : Q :=
  if le temp 120 then max 0 (quo (sub 120 temp) 50) else 0.

Definition heat_medium (temp : Q) : Q :=
  if le 100 temp && le temp 180
  then if le temp 140 then quo (sub temp 100) 40 else quo (sub 180 temp) 40
  else 0.

Definition heat_high (temp : Q) : Q :=
  if le 150 temp && le temp 220
  then if le temp 185 then quo (sub temp 150) 35 else quo (sub 220 temp) 35
  else 0.

Definition heat_critical (temp : Q) : Q :=
  if le 200 temp then min 1 (quo (sub temp 200) 100) else 0.

Definition duration_short (d : Q) : Q :=
  if le d 15 then max 0 (quo (sub 15 d) 15) else 0.

Definition duration_medium (d : Q) : Q :=
  if le 10 d && le d 35
  then if le d (lit 22.5) then quo (sub d 10) (lit 12.5)
       else quo (sub 35 d) (lit 12.5)
  else 0.

Definition duration_long (d : Q) : Q :=
  if le 25 d then min 1 (quo (sub d 25) 35) else 0.

(** ** The specification's formulas, in binary64

    The specification accumulates the two sums rule by rule.  Here the table
    is a list of pairs (strength, rule output) in the order of the rules, and
    every product and every sum is rounded. *)

Definition table (hl hm hh hc ds dm dl : Q) : list (Q * Q) :=
  [ (strength_spec hl ds, 0); (strength_spec hl dm, 0);
    (strength_spec hl dl, 0);
    (strength_spec hm ds, 0.2); (strength_spec hm dm, 0.4);
    (strength_spec hm dl, 0.6);
    (strength_spec hh ds, 0.6); (strength_spec hh dm, 0.8);
    (strength_spec hh dl, 1.0);
    (strength_spec hc ds, 0.8); (strength_spec hc dm, 1.0);
    (strength_spec hc dl, 1.0) ].

Definition numerator_spec (hl hm hh hc ds dm dl : Q) : Q :=
  fold_left (fun acc term => add acc (mul (fst term) (lit (snd term))))
    (table hl hm hh hc ds dm dl) 0.

Definition denominator_spec (hl hm hh hc ds dm dl : Q) : Q :=
  fold_left (fun acc term => add acc (fst term))
    (table hl hm hh hc ds dm dl) 0.

(** A membership degree: a nonnegative binary64 number. *)
Definition degree (v : Q) : Prop := 0 <= v /\ representable v.

(** ** Size of a rounding error *)

(** Half the distance between 1 and the next binary64 number. *)
Definition unit_roundoff : Q := pow2 (-53).

(** Half the distance between two subnormal numbers. *)
Definition eta : Q := pow2 (-1075).

(** A rule output whose literal is read with a relative error of at most
    one part in 2^53. *)
Definition literal_ok (o : Q) : Prop :=
  0 <= o /\
  (1 - unit_roundoff) * o <= lit o <= (1 + unit_roundoff) * o.

(** After [k] terms the rounded sum [F] is within [5 k] parts in 2^53, and
    [3 k eta], of the exact sum [X]. *)
Definition within (k : nat) (F X : Q) : Prop :=
  0 <= X /\ 0 <= F /\
  (1 - inject_Z (Z.of_nat k) * (5 * unit_roundoff)) * X
    - inject_Z (Z.of_nat k) * (3 * eta) <= F /\
  F <= (1 + inject_Z (Z.of_nat k) * (5 * unit_roundoff)) * X
       + inject_Z (Z.of_nat k) * (3 * eta).

(** ** Arguments

    An argument of the controller: a binary64 number of magnitude at most
    2^1000.  On such arguments no result of the controller reaches 2^1024,
    where binary64 overflows to infinity ([b64_no_overflow] below), so the
    rounding of this model is the rounding of the code. *)
Definition input (x : Q) : Prop :=
  representable x /\ - pow2 1000 <= x <= pow2 1000.

End B64.

(** ** Comparisons and clamps *)

Lemma le_true_iff (a b : Q) : le a b = true <-> a <= b.
Proof. apply Qle_bool_iff. Qed.

Lemma le_false_iff (a b : Q) : le a b = false <-> b < a.
Proof.
  unfold le. split; intro H.
  - apply Qnot_le_lt. intro Hle. apply Qle_bool_iff in Hle. congruence.
  - destruct (Qle_bool a b) eqn:E; [|reflexivity].
    apply Qle_bool_iff in E. exfalso. apply (Qlt_not_le _ _ H E).
Qed.

Lemma lt_true_iff (a b : Q) : lt a b = true <-> a < b.
Proof.
  unfold lt. rewrite negb_true_iff. apply (le_false_iff b a).
Qed.

Lemma lt_false_iff (a b : Q) : lt a b = false <-> b <= a.
Proof.
  unfold lt. rewrite negb_false_iff. apply (le_true_iff b a).
Qed.

(** Case analysis on a comparison, leaving the order fact in the context. *)
Ltac case_le a b :=
  let E := fresh "E" in
  destruct (le a b) eqn:E;
  [ apply le_true_iff in E | apply le_false_iff in E ].

Ltac case_lt a b :=
  let E := fresh "E" in
  destruct (lt a b) eqn:E;
  [ apply lt_true_iff in E | apply lt_false_iff in E ].

(** Division by a literal is multiplication by its inverse, which [lra]
    understands. *)
Ltac by_literal :=
  unfold Qdiv in *;
  repeat match goal with
         | |- context [Qinv (Zpos ?p # ?q)] =>
             let c := eval vm_compute in (Qinv (Zpos p # q)) in
             change (Qinv (Zpos p # q)) with c
         | H : context [Qinv (Zpos ?p # ?q)] |- _ =>
             let c := eval vm_compute in (Qinv (Zpos p # q)) in
             change (Qinv (Zpos p # q)) with c in H
         end.

Ltac qarith := by_literal; lra.

Lemma max_spec (a b : Q) :
  (a < b /\ max a b = b) \/ (b <= a /\ max a b = a).
Proof.
  unfold max. case_lt a b; [left | right]; split; auto.
Qed.

Lemma min_spec (a b : Q) :
  (b < a /\ min a b = b) \/ (a <= b /\ min a b = a).
Proof.
  unfold min. case_lt b a; [left | right]; split; auto.
Qed.

Lemma min_Qmin (a b : Q) : min a b == Qmin a b.
Proof.
  destruct (min_spec a b) as [[H ->] | [H ->]].
  - symmetry. apply Q.min_r. apply Qlt_le_weak, H.
  - symmetry. apply Q.min_l, H.
Qed.

Lemma max_Qmax (a b : Q) : max a b == Qmax a b.
Proof.
  destruct (max_spec a b) as [[H ->] | [H ->]].
  - symmetry. apply Q.max_r. apply Qlt_le_weak, H.
  - symmetry. apply Q.max_l, H.
Qed.

Lemma min_nonneg (a b : Q) : 0 <= a -> 0 <= b -> 0 <= min a b.
Proof. intros. destruct (min_spec a b) as [[_ ->] | [_ ->]]; assumption. Qed.

Lemma min_pos (a b : Q) : 0 < a -> 0 < b -> 0 < min a b.
Proof. intros. destruct (min_spec a b) as [[_ ->] | [_ ->]]; assumption. Qed.

(** ** The membership dictionaries, key by key *)

Lemma get_heat_membership_items (temp : Q) :
  get_heat_membership temp =
  [("low", heat_low temp); ("medium", heat_medium temp);
   ("high", heat_high temp); ("critical", heat_critical temp)].
Proof.
  unfold get_heat_membership, heat_low, heat_medium, heat_high, heat_critical.
  destruct (le temp 120), (le 100 temp), (le temp 180), (le temp 140),
    (le 150 temp), (le temp 220), (le temp 185), (le 200 temp); reflexivity.
Qed.

Lemma get_duration_membership_items (d : Q) :
  get_duration_membership d =
  [("short", duration_short d); ("medium", duration_medium d);
   ("long", duration_long d)].
Proof.
  unfold get_duration_membership, duration_short, duration_medium,
    duration_long.
  destruct (le d 15), (le 10 d), (le d 35), (le d 22.5), (le 25 d);
    reflexivity.
Qed.

(** Each curve as a function of the input. *)

Lemma heat_low_cases (t : Q) :
  (t <= 120 /\ heat_low t == (120 - t) / 50) \/ (120 < t /\ heat_low t == 0).
Proof.
  unfold heat_low. case_le t 120; [left | right; split; auto; reflexivity].
  split; [assumption|].
  destruct (max_spec 0 ((120 - t) / 50)) as [[_ ->] | [H ->]];
    [reflexivity | qarith].
Qed.

(** A triangle with feet [a], [c] and peak [b], as the source writes it. *)
Lemma triangle_cases (a b c w t : Q) :
  let v := if le a t && le t c
           then if le t b then (t - a) / w else (c - t) / w
           else 0 in
  (a <= t <= b /\ v == (t - a) / w) \/
  (b < t <= c /\ v == (c - t) / w) \/
  ((t < a \/ c < t) /\ v == 0).
Proof.
  cbv zeta.
  case_le a t; case_le t c; cbn [andb]; try case_le t b;
    try (left; repeat split; solve [assumption | reflexivity]);
    try (right; left; repeat split; solve [assumption | reflexivity]);
    right; right; (split; [|reflexivity]); auto.
Qed.

Lemma heat_medium_cases (t : Q) :
  (100 <= t <= 140 /\ heat_medium t == (t - 100) / 40) \/
  (140 < t <= 180 /\ heat_medium t == (180 - t) / 40) \/
  ((t < 100 \/ 180 < t) /\ heat_medium t == 0).
Proof. exact (triangle_cases 100 140 180 40 t). Qed.

Lemma heat_high_cases (t : Q) :
  (150 <= t <= 185 /\ heat_high t == (t - 150) / 35) \/
  (185 < t <= 220 /\ heat_high t == (220 - t) / 35) \/
  ((t < 150 \/ 220 < t) /\ heat_high t == 0).
Proof. exact (triangle_cases 150 185 220 35 t). Qed.

Lemma duration_medium_cases (d : Q) :
  (10 <= d <= 22.5 /\ duration_medium d == (d - 10) / 12.5) \/
  (22.5 < d <= 35 /\ duration_medium d == (35 - d) / 12.5) \/
  ((d < 10 \/ 35 < d) /\ duration_medium d == 0).
Proof. exact (triangle_cases 10 22.5 35 12.5 d). Qed.

Lemma heat_critical_cases (t : Q) :
  (t < 200 /\ heat_critical t == 0) \/
  (200 <= t <= 300 /\ heat_critical t == (t - 200) / 100) \/
  (300 < t /\ heat_critical t == 1).
Proof.
  unfold heat_critical.
  case_le 200 t; [right | left; split; auto; reflexivity].
  destruct (min_spec 1 ((t - 200) / 100)) as [[H ->] | [H ->]].
  - left. split; [|reflexivity]. qarith.
  - assert (D : 300 <= t) by qarith.
    destruct (Qlt_le_dec 300 t) as [L | L].
    + right. split; [assumption | reflexivity].
    + left. split; [lra | qarith].
Qed.

Lemma duration_short_cases (d : Q) :
  (d <= 15 /\ duration_short d == (15 - d) / 15) \/
  (15 < d /\ duration_short d == 0).
Proof.
  unfold duration_short. case_le d 15; [left | right; split; auto; reflexivity].
  split; [assumption|].
  destruct (max_spec 0 ((15 - d) / 15)) as [[_ ->] | [H ->]];
    [reflexivity | qarith].
Qed.

Lemma duration_long_cases (d : Q) :
  (d < 25 /\ duration_long d == 0) \/
  (25 <= d <= 60 /\ duration_long d == (d - 25) / 35) \/
  (60 < d /\ duration_long d == 1).
Proof.
  unfold duration_long.
  case_le 25 d; [right | left; split; auto; reflexivity].
  destruct (min_spec 1 ((d - 25) / 35)) as [[H ->] | [H ->]].
  - left. split; [|reflexivity]. qarith.
  - assert (D : 60 <= d) by qarith.
    destruct (Qlt_le_dec 60 d) as [L | L].
    + right. split; [assumption | reflexivity].
    + left. split; [lra | qarith].
Qed.

(** Membership degrees are never negative, whatever the input. *)
Lemma heat_nonneg (t : Q) :
  0 <= heat_low t /\ 0 <= heat_medium t /\ 0 <= heat_high t /\
  0 <= heat_critical t.
Proof.
  destruct (heat_low_cases t) as [[? ?] | [? ?]];
  destruct (heat_medium_cases t) as [[[? ?] ?] | [[[? ?] ?] | [_ ?]]];
  destruct (heat_high_cases t) as [[[? ?] ?] | [[[? ?] ?] | [_ ?]]];
  destruct (heat_critical_cases t) as [[? ?] | [[[? ?] ?] | [? ?]]];
  repeat split; qarith.
Qed.

Lemma duration_nonneg (d : Q) :
  0 <= duration_short d /\ 0 <= duration_medium d /\ 0 <= duration_long d.
Proof.
  destruct (duration_short_cases d) as [[? ?] | [? ?]];
  destruct (duration_medium_cases d) as [[[? ?] ?] | [[[? ?] ?] | [_ ?]]];
  destruct (duration_long_cases d) as [[? ?] | [[[? ?] ?] | [? ?]]];
  repeat split; qarith.
Qed.

(** The supports of the curves cover the whole line: some degree is
    strictly positive at every input. *)
Lemma heat_some_positive (t : Q) :
  0 < heat_low t \/ 0 < heat_medium t \/ 0 < heat_high t \/
  0 < heat_critical t.
Proof.
  destruct (Qlt_le_dec t 120) as [L1 | L1].
  { left. destruct (heat_low_cases t) as [[? ?] | [? ?]]; qarith. }
  destruct (Qlt_le_dec t 180) as [L2 | L2].
  { right; left.
    destruct (heat_medium_cases t) as [[[? ?] ?] | [[[? ?] ?] | [[?|?] ?]]];
      qarith. }
  destruct (Qlt_le_dec t 220) as [L3 | L3].
  { right; right; left.
    destruct (heat_high_cases t) as [[[? ?] ?] | [[[? ?] ?] | [[?|?] ?]]];
      qarith. }
  right; right; right.
  destruct (heat_critical_cases t) as [[? ?] | [[[? ?] ?] | [? ?]]]; qarith.
Qed.

Lemma duration_some_positive (d : Q) :
  0 < duration_short d \/ 0 < duration_medium d \/ 0 < duration_long d.
Proof.
  destruct (Qlt_le_dec d 15) as [L1 | L1].
  { left. destruct (duration_short_cases d) as [[? ?] | [? ?]]; qarith. }
  destruct (Qlt_le_dec d 35) as [L2 | L2].
  { right; left.
    destruct (duration_medium_cases d)
      as [[[? ?] ?] | [[[? ?] ?] | [[?|?] ?]]]; qarith. }
  right; right.
  destruct (duration_long_cases d) as [[? ?] | [[[? ?] ?] | [? ?]]]; qarith.
Qed.

(** ** The defuzzifier *)

Lemma strength_spec_nonneg (a b : Q) : 0 <= a -> 0 <= b -> 0 <= strength_spec a b.
Proof. intros. unfold strength_spec. apply Q.min_glb; assumption. Qed.

Lemma strength_spec_pos (a b : Q) : 0 < a -> 0 < b -> 0 < strength_spec a b.
Proof. intros. unfold strength_spec. apply Q.min_glb_lt; assumption. Qed.

Lemma div_positive (n d : Q) : 0 < d -> div n d = Return (n / d).
Proof.
  intro Hd. unfold div.
  destruct (Qeq_bool d 0) eqn:E; [|reflexivity].
  apply Qeq_bool_iff in E. lra.
Qed.

Lemma ratio_in_unit (n d : Q) : 0 < d -> 0 <= n <= d -> 0 <= n / d <= 1.
Proof.
  intros Hd [Hn Hnd]. split.
  - apply Qle_shift_div_l; [assumption | lra].
  - apply Qle_shift_div_r; [assumption | lra].
Qed.

Section Defuzzifier.

(** Two dictionaries holding a degree under each category. *)
Variables hmap dmap : dict.
Variables hl hm hh hc ds dm dl : Q.

Hypothesis hmap_low : getitem hmap "low" = Return hl.
Hypothesis hmap_medium : getitem hmap "medium" = Return hm.
Hypothesis hmap_high : getitem hmap "high" = Return hh.
Hypothesis hmap_critical : getitem hmap "critical" = Return hc.
Hypothesis dmap_short : getitem dmap "short" = Return ds.
Hypothesis dmap_medium : getitem dmap "medium" = Return dm.
Hypothesis dmap_long : getitem dmap "long" = Return dl.

(** The loop over [rules] returns the two sums of the specification. *)
Lemma accumulate_rules :
  exists n d,
    accumulate hmap dmap rules (0, 0) = Return (n, d) /\
    n == numerator_spec hl hm hh hc ds dm dl /\
    d == denominator_spec hl hm hh hc ds dm dl.
Proof.
  unfold rules. cbn [accumulate]. unfold apply_rule.
  cbn [heat duration output].
  rewrite hmap_low, hmap_medium, hmap_high, hmap_critical.
  rewrite dmap_short, dmap_medium, dmap_long.
  cbn [bind fst snd].
  eexists; eexists; split; [reflexivity|].
  unfold numerator_spec, denominator_spec, strength_spec.
  rewrite <- !min_Qmin. split; ring.
Qed.

Hypothesis hl_nonneg : 0 <= hl.
Hypothesis hm_nonneg : 0 <= hm.
Hypothesis hh_nonneg : 0 <= hh.
Hypothesis hc_nonneg : 0 <= hc.
Hypothesis ds_nonneg : 0 <= ds.
Hypothesis dm_nonneg : 0 <= dm.
Hypothesis dl_nonneg : 0 <= dl.

(** The strengths with their signs, for linear arithmetic. *)
Ltac strengths :=
  pose proof (strength_spec_nonneg hl ds hl_nonneg ds_nonneg);
  pose proof (strength_spec_nonneg hl dm hl_nonneg dm_nonneg);
  pose proof (strength_spec_nonneg hl dl hl_nonneg dl_nonneg);
  pose proof (strength_spec_nonneg hm ds hm_nonneg ds_nonneg);
  pose proof (strength_spec_nonneg hm dm hm_nonneg dm_nonneg);
  pose proof (strength_spec_nonneg hm dl hm_nonneg dl_nonneg);
  pose proof (strength_spec_nonneg hh ds hh_nonneg ds_nonneg);
  pose proof (strength_spec_nonneg hh dm hh_nonneg dm_nonneg);
  pose proof (strength_spec_nonneg hh dl hh_nonneg dl_nonneg);
  pose proof (strength_spec_nonneg hc ds hc_nonneg ds_nonneg);
  pose proof (strength_spec_nonneg hc dm hc_nonneg dm_nonneg);
  pose proof (strength_spec_nonneg hc dl hc_nonneg dl_nonneg).

(** Every rule output lies in [0,1], so the weighted sum is between 0 and
    the sum of the weights. *)
Lemma spec_sums_bounds :
  0 <= numerator_spec hl hm hh hc ds dm dl
    <= denominator_spec hl hm hh hc ds dm dl.
Proof.
  unfold numerator_spec, denominator_spec. strengths. split; lra.
Qed.

(** One positive degree on each side makes one rule fire. *)
Lemma denominator_spec_positive :
  0 < hl \/ 0 < hm \/ 0 < hh \/ 0 < hc ->
  0 < ds \/ 0 < dm \/ 0 < dl ->
  0 < denominator_spec hl hm hh hc ds dm dl.
Proof.
  intros Hh Hd. unfold denominator_spec. strengths.
  destruct Hh as [Hh | [Hh | [Hh | Hh]]];
    destruct Hd as [Hd | [Hd | Hd]];
    pose proof (strength_spec_pos _ _ Hh Hd); lra.
Qed.

End Defuzzifier.

(** ** The defuzzifier on the membership dictionaries *)

(** On the dictionaries the two membership functions return, the loop ends
    with a strictly positive denominator. *)
Lemma accumulate_of_inputs (t d : Q) :
  exists n den,
    accumulate (get_heat_membership t) (get_duration_membership d) rules (0, 0)
      = Return (n, den) /\
    0 <= n <= den /\ 0 < den.
Proof.
  destruct (heat_nonneg t) as (Hl & Hm & Hh & Hc).
  destruct (duration_nonneg d) as (Ds & Dm & Dl).
  destruct (accumulate_rules
              (get_heat_membership t) (get_duration_membership d)
              (heat_low t) (heat_medium t) (heat_high t) (heat_critical t)
              (duration_short d) (duration_medium d) (duration_long d))
    as (n & den & Hacc & Hn & Hden);
    try (rewrite get_heat_membership_items; reflexivity);
    try (rewrite get_duration_membership_items; reflexivity).
  exists n, den. split; [exact Hacc|].
  rewrite Hn, Hden. split.
  - apply spec_sums_bounds; assumption.
  - apply denominator_spec_positive; try assumption.
    + apply heat_some_positive.
    + apply duration_some_positive.
Qed.

Lemma get_fuzzy_output_of_inputs (t d : Q) :
  exists w,
    get_fuzzy_output (get_heat_membership t) (get_duration_membership d)
      = Return w /\
    0 <= w <= 1.
Proof.
  destruct (accumulate_of_inputs t d) as (n & den & Hacc & Hb & Hpos).
  exists (n / den). unfold get_fuzzy_output.
  rewrite Hacc. cbn [bind fst snd].
  apply lt_true_iff in Hpos as Hlt. rewrite Hlt.
  split; [apply div_positive; assumption | apply ratio_in_unit; assumption].
Qed.

(** ** Dominant category *)

(** What the loop of [get_dominant_membership] leaves in
    [(max_value, dominant)]: either nothing exceeded the starting value, or
    the first item holding the greatest value was recorded. *)
Lemma dominant_loop_spec (items : dict) :
  forall (mx : Q) (dom : string),
    (Forall (fun kv => snd kv <= mx) items /\
     dominant_loop items mx dom = (mx, dom)) \/
    (exists i k v,
        nth_error items i = Some (k, v) /\
        dominant_loop items mx dom = (v, k) /\
        mx < v /\
        forall j kj vj,
          nth_error items j = Some (kj, vj) ->
          vj <= v /\ ((j < i)%nat -> vj < v)).
Proof.
  induction items as [| [k v] rest IH]; intros mx dom.
  - left. split; [constructor | reflexivity].
  - cbn [dominant_loop]. case_lt mx v.
    + destruct (IH v k) as [[Hall Heq] | (i & k' & v' & Hnth & Heq & Hlt & Hmax)].
      * right. exists 0%nat, k, v.
        split; [reflexivity|]. split; [exact Heq|]. split; [exact E|].
        intros [| j] kj vj Hj; cbn [nth_error] in Hj.
        -- injection Hj as _ <-. split; [lra | lia].
        -- split; [|lia].
           apply nth_error_In in Hj.
           rewrite Forall_forall in Hall. exact (Hall _ Hj).
      * right. exists (S i), k', v'.
        split; [exact Hnth|]. split; [exact Heq|]. split; [lra|].
        intros [| j] kj vj Hj; cbn [nth_error] in Hj.
        -- injection Hj as _ <-. split; [lra | intros _; exact Hlt].
        -- destruct (Hmax j kj vj Hj) as [Hle Hbefore].
           split; [exact Hle | intro; apply Hbefore; lia].
    + destruct (IH mx dom) as [[Hall Heq] | (i & k' & v' & Hnth & Heq & Hlt & Hmax)].
      * left. split; [|exact Heq]. constructor; assumption.
      * right. exists (S i), k', v'.
        split; [exact Hnth|]. split; [exact Heq|]. split; [exact Hlt|].
        intros [| j] kj vj Hj; cbn [nth_error] in Hj.
        -- injection Hj as _ <-. cbn [snd] in *. split; [lra | intros _; lra].
        -- destruct (Hmax j kj vj Hj) as [Hle Hbefore].
           split; [exact Hle | intro; apply Hbefore; lia].
Qed.

Lemma truthy_nonempty (s : string) : s <> "" -> truthy s = true.
Proof. destruct s; [congruence | reflexivity]. Qed.

(** On a dictionary with at least one key the function raises nothing. *)
Lemma get_dominant_membership_returns (m : dict) :
  m <> [] -> exists k, get_dominant_membership m = Return k.
Proof.
  intro Hne. unfold get_dominant_membership.
  destruct (truthy (snd (dominant_loop m 0 ""))); [eauto|].
  destruct m as [| [k v] rest]; [congruence | cbn; eauto].
Qed.

(** C9. On a membership mapping (at least one key, keys that are non-empty
    strings, values that are not negative, as both membership functions
    return), [get_dominant_membership] returns the key of the greatest value;
    on ties the first one in the mapping's order wins: every value is at most
    the chosen one, and every value before it is strictly smaller.  When all
    values are zero the first key of the mapping is returned, and nothing is
    raised. *)
Theorem get_dominant_membership_first_maximum (m : dict) :
  m <> [] ->
  Forall (fun kv => fst kv <> "" /\ 0 <= snd kv) m ->
  exists i k v,
    get_dominant_membership m = Return k /\
    nth_error m i = Some (k, v) /\
    (forall j kj vj,
        nth_error m j = Some (kj, vj) ->
        vj <= v /\ ((j < i)%nat -> vj < v)) /\
    (Forall (fun kv => snd kv == 0) m -> i = 0%nat).
Proof.
  intros Hne Hwf. unfold get_dominant_membership.
  destruct (dominant_loop_spec m 0 "")
    as [[Hall Heq] | (i & k & v & Hnth & Heq & Hlt & Hmax)].
  - rewrite Heq. cbn [snd truthy].
    destruct m as [| [k0 v0] rest]; [congruence|].
    cbn [keys map fst].
    exists 0%nat, k0, v0. split; [reflexivity|]. split; [reflexivity|].
    split; [|reflexivity].
    intros j kj vj Hj. split; [|lia].
    apply nth_error_In in Hj.
    rewrite Forall_forall in Hall. specialize (Hall _ Hj). cbn [snd] in Hall.
    inversion Hwf as [| ? ? [_ H0] _]; subst. cbn [snd] in H0. lra.
  - rewrite Heq. cbn [snd].
    assert (Hk : k <> "").
    { apply nth_error_In in Hnth.
      rewrite Forall_forall in Hwf. exact (proj1 (Hwf _ Hnth)). }
    rewrite (truthy_nonempty k Hk).
    exists i, k, v. split; [reflexivity|]. split; [exact Hnth|].
    split; [exact Hmax|].
    intro Hzero. exfalso.
    apply nth_error_In in Hnth.
    rewrite Forall_forall in Hzero. specialize (Hzero _ Hnth).
    cbn [snd] in Hzero. lra.
Qed.

(** ** Conversion to an integer *)

Lemma int_truncate (x : Q) : int x = truncate_spec x.
Proof.
  unfold int, truncate_spec. destruct x as [n p]. cbn [Qnum Qden].
  destruct (Qle_bool 0 (n # p)) eqn:E.
  - apply Qle_bool_iff in E. unfold Qle in E. cbn in E.
    cbn [Qfloor]. apply Z.quot_div_nonneg; lia.
  - assert (Hn : (n < 0)%Z).
    { destruct (Z_lt_le_dec n 0) as [L | L]; [exact L|].
      assert (Hle : Qle_bool 0 (n # p) = true)
        by (apply Qle_bool_iff; unfold Qle; cbn; lia).
      congruence. }
    unfold Qceiling. cbn [Qopp Qfloor Qnum Qden].
    rewrite <- (Z.opp_involutive n) at 1.
    rewrite Z.quot_opp_l by lia.
    rewrite Z.quot_div_nonneg by lia. reflexivity.
Qed.

Lemma truncate_spec_comp (x y : Q) : x == y -> truncate_spec x = truncate_spec y.
Proof.
  intro H. unfold truncate_spec. rewrite H.
  destruct (Qle_bool 0 y); [apply Qfloor_comp | apply Qceiling_comp]; exact H.
Qed.

Lemma truncate_spec_nonneg (x : Q) : 0 <= x -> (0 <= truncate_spec x)%Z.
Proof.
  intro H. unfold truncate_spec.
  rewrite (proj2 (Qle_bool_iff 0 x) H).
  change 0%Z with (Qfloor 0). apply Qfloor_resp_le. exact H.
Qed.

Lemma truncate_spec_le (x : Q) (z : Z) :
  0 <= x -> x <= inject_Z z -> (truncate_spec x <= z)%Z.
Proof.
  intros H0 H. unfold truncate_spec.
  rewrite (proj2 (Qle_bool_iff 0 x) H0).
  rewrite <- (Qfloor_Z z). apply Qfloor_resp_le. exact H.
Qed.

(** ** The response *)

(** [calculate_system_response] raises nothing, and its fields are the
    expressions of the source over the three intermediate results. *)
Lemma calculate_system_response_fields (t d : Q) :
  exists r w kh kd,
    calculate_system_response t d = Return r /\
    get_fuzzy_output (get_heat_membership t) (get_duration_membership d)
      = Return w /\
    0 <= w <= 1 /\
    get_dominant_membership (get_heat_membership t) = Return kh /\
    get_dominant_membership (get_duration_membership d) = Return kd /\
    heat_memberships r = get_heat_membership t /\
    duration_memberships r = get_duration_membership d /\
    water_output r = w /\
    dominant_heat r = capitalize kh /\
    dominant_duration r = capitalize kd /\
    should_trigger r = le 155 t && lt 0 d /\
    spray_duration r = int (5000 * max 1 ((t - 155) / 50) * max 0.5 w) /\
    (system_status r, status_color r) =
      (if should_trigger r then ("ACTIVE", "#ff4444")
       else if le 140 t then ("WARNING", "#ffa726")
       else ("STANDBY", "#4ecdc4")) /\
    water_level r =
      (if lt 0 w
       then if lt w 0.3 then "Low" else if lt w 0.7 then "Medium" else "High"
       else "None") /\
    water_pressure r = int (w * 100).
Proof.
  destruct (get_fuzzy_output_of_inputs t d) as (w & Hw & Hunit).
  destruct (get_dominant_membership_returns (get_heat_membership t))
    as [kh Hkh].
  { rewrite get_heat_membership_items. discriminate. }
  destruct (get_dominant_membership_returns (get_duration_membership d))
    as [kd Hkd].
  { rewrite get_duration_membership_items. discriminate. }
  unfold calculate_system_response.
  rewrite Hw, Hkh, Hkd. cbn [bind].
  destruct (le 155 t && lt 0 d) eqn:Etrig; destruct (le 140 t) eqn:Ewarn;
    eexists; exists w, kh, kd; (split; [reflexivity|]);
    cbn [heat_memberships duration_memberships water_output dominant_heat
         dominant_duration should_trigger spray_duration system_status
         status_color water_level water_pressure];
    repeat (split; try assumption; try reflexivity).
Qed.

(** ** Sample evaluations *)

(** At 120 degrees low has reached 0 and medium stands at 0.5. *)
Example heat_membership_120 :
  exists low medium,
    getitem (get_heat_membership 120) "low" = Return low /\
    getitem (get_heat_membership 120) "medium" = Return medium /\
    low == 0 /\ medium == 0.5.
Proof.
  eexists. eexists. repeat split; vm_compute; reflexivity.
Qed.

(** At 25 seconds long starts at 0; at 35 seconds medium is back to 0. *)
Example duration_membership_25_35 :
  exists long medium,
    getitem (get_duration_membership 25) "long" = Return long /\
    getitem (get_duration_membership 35) "medium" = Return medium /\
    long == 0 /\ medium == 0.
Proof.
  eexists. eexists. repeat split; vm_compute; reflexivity.
Qed.

Example response_70_0 :
  exists r,
    calculate_system_response 70 0 = Return r /\
    dominant_heat r = "Low" /\ dominant_duration r = "Short" /\
    should_trigger r = false /\ system_status r = "STANDBY" /\
    water_level r = "None" /\ water_pressure r = 0%Z.
Proof.
  eexists. split; [vm_compute; reflexivity|].
  repeat split; vm_compute; reflexivity.
Qed.

Example response_160_5 :
  exists r,
    calculate_system_response 160 5 = Return r /\
    dominant_heat r = "Medium" /\ dominant_duration r = "Short" /\
    should_trigger r = true /\ system_status r = "ACTIVE".
Proof.
  eexists. split; [vm_compute; reflexivity|].
  repeat split; vm_compute; reflexivity.
Qed.

Example response_130_10 :
  exists r,
    calculate_system_response 130 10 = Return r /\
    should_trigger r = false /\ system_status r = "STANDBY".
Proof.
  eexists. split; [vm_compute; reflexivity|].
  repeat split; vm_compute; reflexivity.
Qed.

(** C5. For every temperature and duration the response is returned and
    its [should_trigger] is true exactly when the temperature is at least 155
    and the duration is strictly positive; a duration of 0 never triggers. *)
Theorem should_trigger_iff (t d : Q) :
  exists r,
    calculate_system_response t d = Return r /\
    (should_trigger r = true <-> 155 <= t /\ 0 < d) /\
    (d == 0 -> should_trigger r = false).
Proof.
  destruct (calculate_system_response_fields t d)
    as (r & w & kh & kd & Hr & _ & _ & _ & _ & _ & _ & _ & _ & _ & Htrig & _).
  exists r. split; [exact Hr|]. rewrite Htrig.
  rewrite andb_true_iff, le_true_iff, lt_true_iff.
  split; [reflexivity|].
  intro Hd. apply andb_false_iff. right. apply lt_false_iff. lra.
Qed.

(** C6. For every input the status follows the cascade: ACTIVE with colour
    #ff4444 when [should_trigger] is true; otherwise WARNING with #ffa726 when
    the temperature is at least 140; otherwise STANDBY with #4ecdc4. *)
Theorem system_status_cascade (t d : Q) :
  exists r,
    calculate_system_response t d = Return r /\
    (should_trigger r = true ->
     system_status r = "ACTIVE" /\ status_color r = "#ff4444") /\
    (should_trigger r = false -> 140 <= t ->
     system_status r = "WARNING" /\ status_color r = "#ffa726") /\
    (should_trigger r = false -> t < 140 ->
     system_status r = "STANDBY" /\ status_color r = "#4ecdc4").
Proof.
  destruct (calculate_system_response_fields t d)
    as (r & w & kh & kd & Hr & _ & _ & _ & _ & _ & _ & _ & _ & _ & _ & _
        & Hstatus & _).
  exists r. split; [exact Hr|].
  destruct (should_trigger r); case_le 140 t;
    injection Hstatus as -> ->;
    repeat split; intros; try reflexivity; try discriminate; lra.
Qed.


(** ** Range of the membership degrees *)

(** No degree is negative, at any input. *)
Lemma memberships_nonneg (t d : Q) :
  Forall (fun v => 0 <= v) (values (get_heat_membership t)) /\
  Forall (fun v => 0 <= v) (values (get_duration_membership d)).
Proof.
  rewrite get_heat_membership_items, get_duration_membership_items.
  destruct (heat_nonneg t) as (? & ? & ? & ?).
  destruct (duration_nonneg d) as (? & ? & ?).
  split; cbn [values map snd]; repeat constructor; assumption.
Qed.

(** From the lower ends of the modelled spans on (70 degrees, 0 seconds) no
    degree exceeds 1. *)
Lemma memberships_at_most_one (t d : Q) :
  70 <= t -> 0 <= d ->
  Forall (fun v => v <= 1) (values (get_heat_membership t)) /\
  Forall (fun v => v <= 1) (values (get_duration_membership d)).
Proof.
  intros Ht Hd.
  rewrite get_heat_membership_items, get_duration_membership_items.
  split; cbn [values map snd]; repeat constructor.
  - destruct (heat_low_cases t) as [[? ?] | [? ?]]; qarith.
  - destruct (heat_medium_cases t) as [[[? ?] ?] | [[[? ?] ?] | [_ ?]]];
      qarith.
  - destruct (heat_high_cases t) as [[[? ?] ?] | [[[? ?] ?] | [_ ?]]];
      qarith.
  - destruct (heat_critical_cases t) as [[? ?] | [[[? ?] ?] | [? ?]]];
      qarith.
  - destruct (duration_short_cases d) as [[? ?] | [? ?]]; qarith.
  - destruct (duration_medium_cases d) as [[[? ?] ?] | [[[? ?] ?] | [_ ?]]];
      qarith.
  - destruct (duration_long_cases d) as [[? ?] | [[[? ?] ?] | [? ?]]];
      qarith.
Qed.

(** C1. The claim is that every degree lies in [0,1] at every input.  The
    code breaks it below the modelled spans: at temperature 20 the degree
    stored under low is (120 - 20)/50 = 2, and at duration -15 the degree
    stored under short is (15 + 15)/15 = 2; neither is clamped at 1. *)
Theorem low_and_short_exceed_one :
  (exists v, getitem (get_heat_membership 20) "low" = Return v /\
             v == 2 /\ ~ v <= 1) /\
  (exists v, getitem (get_duration_membership (-15)) "short" = Return v /\
             v == 2 /\ ~ v <= 1).
Proof.
  split; eexists; (split; [vm_compute; reflexivity|]);
    split; [reflexivity | | reflexivity |]; intro H; vm_compute in H;
    apply H; reflexivity.
Qed.

(** ** The curves of [get_heat_membership] *)

(** C4. The claim asks low to be 1.0 at every temperature at most 70.  The
    code stores max(0, (120 - t)/50) there and nothing clamps it at 1: at
    temperature 20 the degree stored under low is 2, and at every temperature
    below 70 it is (120 - t)/50, which exceeds 1. *)
Theorem heat_low_exceeds_one_below_70 :
  (exists v, getitem (get_heat_membership 20) "low" = Return v /\
             v == 2 /\ ~ v == 1) /\
  (forall t, t < 70 ->
     exists v, getitem (get_heat_membership t) "low" = Return v /\
               v == (120 - t) / 50 /\ 1 < v).
Proof.
  split.
  - eexists. split; [vm_compute; reflexivity|].
    split; [reflexivity | discriminate].
  - intros t Ht. exists (heat_low t).
    split; [rewrite get_heat_membership_items; reflexivity|].
    destruct (heat_low_cases t) as [[? ?] | [? ?]]; split; qarith.
Qed.

(** The curves the code computes, at every temperature.
    [get_heat_membership] returns the four keys in order, and: up to 120
    low equals max(0, (120 - t)/50) = (120 - t)/50, which is 1 at t = 70, and
    low is 0 for t > 120; medium is (t - 100)/40 on [100,140], (180 - t)/40
    on [140,180], 1 at t = 140 and 0 outside [100,180]; critical is 0 below
    200, min(1, (t - 200)/100) from 200 on, and 1 from 300 on. *)
Lemma get_heat_membership_curves (t : Q) :
  exists low medium high critical,
    get_heat_membership t =
      [("low", low); ("medium", medium); ("high", high);
       ("critical", critical)] /\
    (t <= 120 ->
     low == Qmax 0 ((120 - t) / 50) /\ low == (120 - t) / 50) /\
    (t == 70 -> low == 1) /\
    (120 < t -> low == 0) /\
    (100 <= t <= 140 -> medium == (t - 100) / 40) /\
    (140 <= t <= 180 -> medium == (180 - t) / 40) /\
    (t == 140 -> medium == 1) /\
    (t < 100 \/ 180 < t -> medium == 0) /\
    (t < 200 -> critical == 0) /\
    (200 <= t -> critical == Qmin 1 ((t - 200) / 100)) /\
    (300 <= t -> critical == 1).
Proof.
  exists (heat_low t), (heat_medium t), (heat_high t), (heat_critical t).
  split; [apply get_heat_membership_items|].
  pose proof (heat_low_cases t) as Hlow.
  pose proof (heat_medium_cases t) as Hmed.
  pose proof (heat_critical_cases t) as Hcrit.
  repeat split; intros.
  - destruct Hlow as [[? ?] | [? ?]];
      destruct (Q.max_spec 0 ((120 - t) / 50)) as [[? ?] | [? ?]]; qarith.
  - destruct Hlow as [[? ?] | [? ?]]; qarith.
  - destruct Hlow as [[? ?] | [? ?]]; qarith.
  - destruct Hlow as [[? ?] | [? ?]]; qarith.
  - destruct Hmed as [[[? ?] ?] | [[[? ?] ?] | [[?|?] ?]]]; qarith.
  - destruct Hmed as [[[? ?] ?] | [[[? ?] ?] | [[?|?] ?]]]; qarith.
  - destruct Hmed as [[[? ?] ?] | [[[? ?] ?] | [[?|?] ?]]]; qarith.
  - destruct Hmed as [[[? ?] ?] | [[[? ?] ?] | [[?|?] ?]]];
      match goal with H : _ \/ _ |- _ => destruct H end; qarith.
  - destruct Hcrit as [[? ?] | [[[? ?] ?] | [? ?]]]; qarith.
  - destruct Hcrit as [[? ?] | [[[? ?] ?] | [? ?]]];
      destruct (Q.min_spec 1 ((t - 200) / 100)) as [[? ?] | [? ?]]; qarith.
  - destruct Hcrit as [[? ?] | [[[? ?] ?] | [? ?]]]; qarith.
Qed.

(** ** The response at 250 degrees held for 30 seconds *)

(** C2, as the claim states it (category names read up to letter case, as
    the response capitalizes them), fails: the dominant duration category of
    the response is not long. *)
Lemma response_250_30_is_not_long :
  ~ exists r,
      calculate_system_response 250 30 = Return r /\
      lower (dominant_heat r) = "critical" /\
      lower (dominant_duration r) = "long" /\
      water_output r == 1 /\
      should_trigger r = true /\
      system_status r = "ACTIVE" /\
      water_level r = "High" /\
      water_pressure r = 100%Z /\
      spray_duration r = 9500%Z.
Proof.
  intros (r & Hr & _ & Hlong & _).
  vm_compute in Hr. injection Hr as <-.
  vm_compute in Hlong. discriminate.
Qed.

(** C2, amended. [calculate_system_response(250, 30)] returns a response
    with dominant heat category critical (reported as Critical) and dominant
    duration category medium (reported as Medium: the degrees are short 0,
    medium 0.4, long 1/7), water_output equal to 1, should_trigger true,
    system_status ACTIVE, water_level High, water_pressure 100 and
    spray_duration 9500. *)
Theorem response_250_30 :
  exists r,
    calculate_system_response 250 30 = Return r /\
    get_dominant_membership (heat_memberships r) = Return "critical" /\
    dominant_heat r = "Critical" /\
    get_dominant_membership (duration_memberships r) = Return "medium" /\
    dominant_duration r = "Medium" /\
    water_output r == 1 /\
    should_trigger r = true /\
    system_status r = "ACTIVE" /\
    water_level r = "High" /\
    water_pressure r = 100%Z /\
    spray_duration r = 9500%Z /\
    exists dm dl,
      getitem (duration_memberships r) "medium" = Return dm /\
      getitem (duration_memberships r) "long" = Return dl /\
      dm == 0.4 /\ dl == 1 # 7 /\ dl < dm.
Proof.
  eexists. split; [vm_compute; reflexivity|].
  repeat (split; [vm_compute; reflexivity|]).
  eexists. eexists.
  split; [vm_compute; reflexivity|]. split; [vm_compute; reflexivity|].
  repeat split; vm_compute; reflexivity.
Qed.

(** ** Instances *)

(** C9 at the duration dictionary of 30 seconds. *)
Lemma get_dominant_membership_first_maximum_witness :
  exists i k v,
    get_dominant_membership [("short", 0); ("medium", 0.4); ("long", 1 # 7)]
      = Return k /\
    nth_error [("short", 0); ("medium", 0.4); ("long", 1 # 7)] i
      = Some (k, v) /\
    (forall j kj vj,
        nth_error [("short", 0); ("medium", 0.4); ("long", 1 # 7)] j
          = Some (kj, vj) ->
        vj <= v /\ ((j < i)%nat -> vj < v)) /\
    (Forall (fun kv => snd kv == 0)
       [("short", 0); ("medium", 0.4); ("long", 1 # 7)] -> i = 0%nat).
Proof.
  apply (get_dominant_membership_first_maximum
           [("short", 0); ("medium", 0.4); ("long", 1 # 7)]).
  - discriminate.
  - repeat constructor; cbn [fst snd];
      first [discriminate | unfold Qle; simpl; lia].
Defined.

(** * Further properties of the controller *)

(** ** The remaining curves *)



(** ** Exceptions of the defuzzifier *)

Lemma getitem_cases (m : dict) (k : string) :
  (exists v, getitem m k = Return v) \/ getitem m k = Raise (KeyError k).
Proof.
  induction m as [| [k' v'] rest IH]; cbn [getitem]; [right; reflexivity|].
  destruct (String.eqb k' k); [left; eauto | exact IH].
Qed.

Lemma getitem_return_iff (m : dict) (k : string) :
  (exists v, getitem m k = Return v) <-> In k (keys m).
Proof.
  induction m as [| [k' v'] rest IH]; cbn [getitem keys map fst In].
  - split; [intros [v H]; discriminate | tauto].
  - destruct (String.eqb k' k) eqn:E.
    + apply String.eqb_eq in E. split; [intros _; left; exact E | eauto].
    + apply String.eqb_neq in E. rewrite IH. unfold keys. tauto.
Qed.

Lemma getitem_raise_iff (m : dict) (k : string) :
  getitem m k = Raise (KeyError k) <-> ~ In k (keys m).
Proof.
  rewrite <- getitem_return_iff.
  destruct (getitem_cases m k) as [[v H] | H]; rewrite H.
  - split; [discriminate | intro N; exfalso; apply N; eauto].
  - split; [intros _ [v' H']; discriminate | reflexivity].
Qed.

(** With all seven categories present the function returns, whatever the
    values are. *)
Lemma get_fuzzy_output_returns (hmap dmap : dict) (hl hm hh hc ds dm dl : Q) :
  getitem hmap "low" = Return hl ->
  getitem hmap "medium" = Return hm ->
  getitem hmap "high" = Return hh ->
  getitem hmap "critical" = Return hc ->
  getitem dmap "short" = Return ds ->
  getitem dmap "medium" = Return dm ->
  getitem dmap "long" = Return dl ->
  exists r, get_fuzzy_output hmap dmap = Return r.
Proof.
  intros H1 H2 H3 H4 H5 H6 H7.
  destruct (accumulate_rules hmap dmap hl hm hh hc ds dm dl H1 H2 H3 H4 H5 H6 H7)
    as (n & d & Hacc & _).
  unfold get_fuzzy_output. rewrite Hacc. cbn [bind fst snd].
  case_lt 0 d; [rewrite (div_positive n d E)|]; eauto.
Qed.

(** A failed lookup in the rule loop is what the function raises. *)
Ltac run_rules :=
  unfold get_fuzzy_output, rules; cbn [accumulate]; unfold apply_rule;
  cbn [heat duration output];
  repeat match goal with
         | H : getitem _ _ = _ |- _ => rewrite H
         end;
  cbn [bind].

Lemma get_fuzzy_output_raises (hmap dmap : dict) (e : exn) :
  get_fuzzy_output hmap dmap = Raise e ->
  exists k,
    e = KeyError k /\
    ((In k ["low"; "medium"; "high"; "critical"] /\
      getitem hmap k = Raise (KeyError k)) \/
     (In k ["short"; "medium"; "long"] /\
      getitem dmap k = Raise (KeyError k))).
Proof.
  intro Hraise.
  destruct (getitem_cases hmap "low") as [[hl H1] | H1].
  2:{ revert Hraise. run_rules. intro Hraise. injection Hraise as <-.
      eexists; split; [reflexivity|]. left. split; [cbn; tauto | exact H1]. }
  destruct (getitem_cases dmap "short") as [[ds H5] | H5].
  2:{ revert Hraise. run_rules. intro Hraise. injection Hraise as <-.
      eexists; split; [reflexivity|]. right. split; [cbn; tauto | exact H5]. }
  destruct (getitem_cases dmap "medium") as [[dm H6] | H6].
  2:{ revert Hraise. run_rules. intro Hraise. injection Hraise as <-.
      eexists; split; [reflexivity|]. right. split; [cbn; tauto | exact H6]. }
  destruct (getitem_cases dmap "long") as [[dl H7] | H7].
  2:{ revert Hraise. run_rules. intro Hraise. injection Hraise as <-.
      eexists; split; [reflexivity|]. right. split; [cbn; tauto | exact H7]. }
  destruct (getitem_cases hmap "medium") as [[hm H2] | H2].
  2:{ revert Hraise. run_rules. intro Hraise. injection Hraise as <-.
      eexists; split; [reflexivity|]. left. split; [cbn; tauto | exact H2]. }
  destruct (getitem_cases hmap "high") as [[hh H3] | H3].
  2:{ revert Hraise. run_rules. intro Hraise. injection Hraise as <-.
      eexists; split; [reflexivity|]. left. split; [cbn; tauto | exact H3]. }
  destruct (getitem_cases hmap "critical") as [[hc H4] | H4].
  2:{ revert Hraise. run_rules. intro Hraise. injection Hraise as <-.
      eexists; split; [reflexivity|]. left. split; [cbn; tauto | exact H4]. }
  destruct (get_fuzzy_output_returns hmap dmap hl hm hh hc ds dm dl
              H1 H2 H3 H4 H5 H6 H7) as [r Hr].
  congruence.
Qed.

(** X3. For any two dictionaries, whatever their keys and values:
    [get_fuzzy_output] returns a value exactly when the heat dictionary has
    the keys low, medium, high, critical and the duration dictionary has the
    keys short, medium, long; and when it raises, it raises KeyError for one
    of those keys that is absent, never a division by zero. *)
Theorem get_fuzzy_output_raises_only_missing_keys (hmap dmap : dict) :
  ((exists r, get_fuzzy_output hmap dmap = Return r) <->
   incl ["low"; "medium"; "high"; "critical"] (keys hmap) /\
   incl ["short"; "medium"; "long"] (keys dmap)) /\
  (forall e,
      get_fuzzy_output hmap dmap = Raise e ->
      exists k,
        e = KeyError k /\
        ((In k ["low"; "medium"; "high"; "critical"] /\ ~ In k (keys hmap)) \/
         (In k ["short"; "medium"; "long"] /\ ~ In k (keys dmap)))).
Proof.
  split; [split|].
  - intros [r Hr]. split; intros k Hk.
    + destruct (getitem_cases hmap k) as [Hv | Hm];
        [apply getitem_return_iff; exact Hv|].
      exfalso. revert Hr.
      cbn in Hk. destruct Hk as [<- | [<- | [<- | [<- | []]]]];
        destruct (getitem_cases hmap "low") as [[? ?] | ?];
        destruct (getitem_cases dmap "short") as [[? ?] | ?];
        destruct (getitem_cases dmap "medium") as [[? ?] | ?];
        destruct (getitem_cases dmap "long") as [[? ?] | ?];
        destruct (getitem_cases hmap "medium") as [[? ?] | ?];
        destruct (getitem_cases hmap "high") as [[? ?] | ?];
        run_rules; try discriminate; congruence.
    + destruct (getitem_cases dmap k) as [Hv | Hm];
        [apply getitem_return_iff; exact Hv|].
      exfalso. revert Hr.
      cbn in Hk. destruct Hk as [<- | [<- | [<- | []]]];
        destruct (getitem_cases hmap "low") as [[? ?] | ?];
        destruct (getitem_cases dmap "short") as [[? ?] | ?];
        destruct (getitem_cases dmap "medium") as [[? ?] | ?];
        run_rules; try discriminate; congruence.
  - intros [Hh Hd].
    assert (Hget : forall m ks k, incl ks (keys m) -> In k ks ->
                                  exists v, getitem m k = Return v).
    { intros m ks k Hincl Hin. apply getitem_return_iff, Hincl, Hin. }
    destruct (Hget hmap _ "low" Hh) as [hl H1]; [cbn; tauto|].
    destruct (Hget hmap _ "medium" Hh) as [hm H2]; [cbn; tauto|].
    destruct (Hget hmap _ "high" Hh) as [hh H3]; [cbn; tauto|].
    destruct (Hget hmap _ "critical" Hh) as [hc H4]; [cbn; tauto|].
    destruct (Hget dmap _ "short" Hd) as [ds H5]; [cbn; tauto|].
    destruct (Hget dmap _ "medium" Hd) as [dm H6]; [cbn; tauto|].
    destruct (Hget dmap _ "long" Hd) as [dl H7]; [cbn; tauto|].
    exact (get_fuzzy_output_returns hmap dmap hl hm hh hc ds dm dl
             H1 H2 H3 H4 H5 H6 H7).
  - intros e He.
    destruct (get_fuzzy_output_raises hmap dmap e He)
      as (k & -> & [[Hin Hk] | [Hin Hk]]);
      exists k; (split; [reflexivity|]); [left | right];
      (split; [exact Hin | apply getitem_raise_iff; exact Hk]).
Qed.

(** ** Outcome of the dominant-category selection *)

Lemma nth_error_key (m : dict) (i : nat) (k : string) (v : Q) :
  nth_error m i = Some (k, v) -> In k (keys m).
Proof.
  intro H. apply nth_error_In in H.
  unfold keys. change k with (fst (k, v)). apply in_map. exact H.
Qed.

(** On a non-empty dictionary the returned key is one of its keys, whatever
    the keys and values are. *)
Lemma get_dominant_membership_in_keys (m : dict) :
  m <> [] ->
  exists k, get_dominant_membership m = Return k /\ In k (keys m).
Proof.
  intro Hne. unfold get_dominant_membership.
  destruct m as [| [k0 v0] rest]; [congruence|].
  destruct (dominant_loop_spec ((k0, v0) :: rest) 0 "")
    as [[_ Heq] | (i & k & v & Hnth & Heq & _)]; rewrite Heq; cbn [snd].
  - cbn. eauto.
  - destruct (truthy k).
    + exists k. split; [reflexivity | exact (nth_error_key _ _ _ _ Hnth)].
    + cbn. eauto.
Qed.

(** X4. [get_dominant_membership] raises IndexError on the empty
    dictionary (the fallback indexes an empty key list) and on every other
    dictionary returns one of the dictionary's own keys, also when values are
    negative or a key is the empty string. *)
Theorem get_dominant_membership_outcome (m : dict) :
  (m = [] -> get_dominant_membership m = Raise IndexError) /\
  (m <> [] -> exists k, get_dominant_membership m = Return k /\ In k (keys m)).
Proof.
  split.
  - intros ->. reflexivity.
  - apply get_dominant_membership_in_keys.
Qed.

(** X5. With values that may be negative the function still starts from
    max_value = 0: when no value is strictly positive it returns the first key
    of the dictionary, whichever value is greatest. *)
Theorem get_dominant_membership_no_positive_value (m : dict) (k0 : string)
    (v0 : Q) (rest : dict) :
  m = (k0, v0) :: rest ->
  Forall (fun kv => snd kv <= 0) m ->
  get_dominant_membership m = Return k0.
Proof.
  intros -> Hall. unfold get_dominant_membership.
  destruct (dominant_loop_spec ((k0, v0) :: rest) 0 "")
    as [[_ Heq] | (i & k & v & Hnth & Heq & Hlt & _)].
  - rewrite Heq. reflexivity.
  - exfalso. apply nth_error_In in Hnth.
    rewrite Forall_forall in Hall. specialize (Hall _ Hnth).
    cbn [snd] in Hall. lra.
Qed.

Lemma get_dominant_membership_no_positive_value_witness :
  get_dominant_membership [("low", -1); ("medium", 0); ("high", -(1 # 2))]
  = Return "low".
Proof.
  apply (get_dominant_membership_no_positive_value
           [("low", -1); ("medium", 0); ("high", -(1 # 2))]
           "low" (-1) [("medium", 0); ("high", -(1 # 2))]).
  - reflexivity.
  - repeat constructor; cbn [snd]; unfold Qle; simpl; lia.
Defined.

(** X6. For every input the two labels of the response are capitalized
    category names: dominant_heat is one of Low, Medium, High, Critical and
    dominant_duration one of Short, Medium, Long. *)
Theorem dominant_labels (t d : Q) :
  exists r,
    calculate_system_response t d = Return r /\
    In (dominant_heat r) ["Low"; "Medium"; "High"; "Critical"] /\
    In (dominant_duration r) ["Short"; "Medium"; "Long"].
Proof.
  destruct (calculate_system_response_fields t d)
    as (r & w & kh & kd & Hr & _ & _ & Hkh & Hkd & _ & _ & _ & Hdh & Hdd & _).
  exists r. split; [exact Hr|]. rewrite Hdh, Hdd.
  destruct (get_dominant_membership_in_keys (get_heat_membership t))
    as (kh' & Hkh' & Hinh).
  { rewrite get_heat_membership_items. discriminate. }
  destruct (get_dominant_membership_in_keys (get_duration_membership d))
    as (kd' & Hkd' & Hind).
  { rewrite get_duration_membership_items. discriminate. }
  rewrite Hkh in Hkh'. injection Hkh' as <-.
  rewrite Hkd in Hkd'. injection Hkd' as <-.
  rewrite get_heat_membership_items in Hinh.
  rewrite get_duration_membership_items in Hind.
  cbn [keys map fst In] in Hinh, Hind.
  split.
  - destruct Hinh as [<- | [<- | [<- | [<- | []]]]]; cbn; tauto.
  - destruct Hind as [<- | [<- | [<- | []]]]; cbn; tauto.
Qed.

(** ** Water output by temperature and duration *)

(** The output of the response is the quotient of the two sums, and the
    denominator is strictly positive. *)
Lemma water_output_quotient (t d : Q) :
  exists r,
    calculate_system_response t d = Return r /\
    0 < input_denominator t d /\
    water_output r == input_numerator t d / input_denominator t d /\
    0 <= water_output r <= 1 /\
    should_trigger r = le 155 t && lt 0 d /\
    spray_duration r =
      int (5000 * max 1 ((t - 155) / 50) * max 0.5 (water_output r)) /\
    water_level r =
      (if lt 0 (water_output r)
       then if lt (water_output r) 0.3 then "Low"
            else if lt (water_output r) 0.7 then "Medium" else "High"
       else "None") /\
    water_pressure r = int (water_output r * 100).
Proof.
  destruct (calculate_system_response_fields t d)
    as (r & w & kh & kd & Hr & Hw & Hunit & _ & _ & _ & _ & Hwr & _ & _
        & Htrig & Hspray & _ & Hlevel & Hpress).
  destruct (heat_nonneg t) as (Hl & Hm & Hh & Hc).
  destruct (duration_nonneg d) as (Ds & Dm & Dl).
  destruct (accumulate_rules
              (get_heat_membership t) (get_duration_membership d)
              (heat_low t) (heat_medium t) (heat_high t) (heat_critical t)
              (duration_short d) (duration_medium d) (duration_long d))
    as (n & den & Hacc & Hn & Hden);
    try (rewrite get_heat_membership_items; reflexivity);
    try (rewrite get_duration_membership_items; reflexivity).
  assert (Hpos : 0 < input_denominator t d).
  { unfold input_denominator.
    apply denominator_spec_positive; try assumption.
    - apply heat_some_positive.
    - apply duration_some_positive. }
  assert (Hpos' : 0 < den) by (rewrite Hden; exact Hpos).
  unfold get_fuzzy_output in Hw. rewrite Hacc in Hw. cbn [bind fst snd] in Hw.
  rewrite (proj2 (lt_true_iff 0 den) Hpos'), (div_positive n den Hpos') in Hw.
  injection Hw as Hw.
  exists r. rewrite Hwr. split; [exact Hr|]. split; [exact Hpos|].
  split; [rewrite <- Hw, Hn, Hden; unfold input_numerator, input_denominator;
          reflexivity|].
  repeat split; tauto.
Qed.

(** Signs and sizes of the twelve strengths at an input. *)
Ltac input_strengths t d :=
  destruct (heat_nonneg t) as (Hl0 & Hm0 & Hh0 & Hc0);
  destruct (duration_nonneg d) as (Ds0 & Dm0 & Dl0);
  pose proof (strength_spec_nonneg _ _ Hl0 Ds0);
  pose proof (strength_spec_nonneg _ _ Hl0 Dm0);
  pose proof (strength_spec_nonneg _ _ Hl0 Dl0);
  pose proof (strength_spec_nonneg _ _ Hm0 Ds0);
  pose proof (strength_spec_nonneg _ _ Hm0 Dm0);
  pose proof (strength_spec_nonneg _ _ Hm0 Dl0);
  pose proof (strength_spec_nonneg _ _ Hh0 Ds0);
  pose proof (strength_spec_nonneg _ _ Hh0 Dm0);
  pose proof (strength_spec_nonneg _ _ Hh0 Dl0);
  pose proof (strength_spec_nonneg _ _ Hc0 Ds0);
  pose proof (strength_spec_nonneg _ _ Hc0 Dm0);
  pose proof (strength_spec_nonneg _ _ Hc0 Dl0);
  pose proof (Q.le_min_l (heat_low t) (duration_short d));
  pose proof (Q.le_min_l (heat_low t) (duration_medium d));
  pose proof (Q.le_min_l (heat_low t) (duration_long d));
  pose proof (Q.le_min_l (heat_medium t) (duration_short d));
  pose proof (Q.le_min_l (heat_medium t) (duration_medium d));
  pose proof (Q.le_min_l (heat_medium t) (duration_long d));
  pose proof (Q.le_min_l (heat_high t) (duration_short d));
  pose proof (Q.le_min_l (heat_high t) (duration_medium d));
  pose proof (Q.le_min_l (heat_high t) (duration_long d));
  pose proof (Q.le_min_l (heat_critical t) (duration_short d));
  pose proof (Q.le_min_l (heat_critical t) (duration_medium d));
  pose proof (Q.le_min_l (heat_critical t) (duration_long d));
  pose proof (Q.le_min_r (heat_low t) (duration_medium d));
  pose proof (Q.le_min_r (heat_low t) (duration_long d));
  pose proof (Q.le_min_r (heat_medium t) (duration_medium d));
  pose proof (Q.le_min_r (heat_medium t) (duration_long d));
  pose proof (Q.le_min_r (heat_high t) (duration_medium d));
  pose proof (Q.le_min_r (heat_high t) (duration_long d));
  pose proof (Q.le_min_r (heat_critical t) (duration_medium d));
  pose proof (Q.le_min_r (heat_critical t) (duration_long d));
  unfold strength_spec in *.

(** A bound on the quotient is a linear bound on the two sums. *)
Lemma quotient_ge (c n d q : Q) : 0 < d -> q == n / d -> c * d <= n -> c <= q.
Proof.
  intros Hd -> H. apply Qle_shift_div_l; assumption.
Qed.

Lemma quotient_le (c n d q : Q) : 0 < d -> q == n / d -> n <= c * d -> q <= c.
Proof.
  intros Hd -> H. apply Qle_shift_div_r; assumption.
Qed.

Lemma heat_zero_above_low (t : Q) : 120 <= t -> heat_low t == 0.
Proof. intro. destruct (heat_low_cases t) as [[? ?] | [? ?]]; qarith. Qed.

Lemma heat_zero_above_medium (t : Q) : 180 <= t -> heat_medium t == 0.
Proof.
  intro. destruct (heat_medium_cases t) as [[[? ?] ?] | [[[? ?] ?] | [_ ?]]];
    qarith.
Qed.

Lemma heat_zero_above_high (t : Q) : 220 <= t -> heat_high t == 0.
Proof.
  intro. destruct (heat_high_cases t) as [[[? ?] ?] | [[[? ?] ?] | [_ ?]]];
    qarith.
Qed.

Lemma heat_zero_below_medium (t : Q) : t <= 100 -> heat_medium t == 0.
Proof.
  intro. destruct (heat_medium_cases t) as [[[? ?] ?] | [[[? ?] ?] | [_ ?]]];
    qarith.
Qed.

Lemma heat_zero_below_high (t : Q) : t <= 150 -> heat_high t == 0.
Proof.
  intro. destruct (heat_high_cases t) as [[[? ?] ?] | [[[? ?] ?] | [_ ?]]];
    qarith.
Qed.

Lemma heat_zero_below_critical (t : Q) : t <= 200 -> heat_critical t == 0.
Proof.
  intro. destruct (heat_critical_cases t) as [[? ?] | [[[? ?] ?] | [? ?]]];
    qarith.
Qed.

Lemma duration_zero_below_medium (d : Q) : d <= 10 -> duration_medium d == 0.
Proof.
  intro.
  destruct (duration_medium_cases d) as [[[? ?] ?] | [[[? ?] ?] | [_ ?]]];
    qarith.
Qed.

Lemma duration_zero_below_long (d : Q) : d <= 25 -> duration_long d == 0.
Proof.
  intro. destruct (duration_long_cases d) as [[? ?] | [[[? ?] ?] | [? ?]]];
    qarith.
Qed.

(** Above 100 degrees a category other than low has a positive degree. *)
Lemma heat_above_low_positive (t : Q) :
  100 < t -> 0 < heat_medium t \/ 0 < heat_high t \/ 0 < heat_critical t.
Proof.
  intro Ht.
  destruct (Qlt_le_dec t 180) as [L2 | L2].
  { left.
    destruct (heat_medium_cases t) as [[[? ?] ?] | [[[? ?] ?] | [[?|?] ?]]];
      qarith. }
  destruct (Qlt_le_dec t 220) as [L3 | L3].
  { right; left.
    destruct (heat_high_cases t) as [[[? ?] ?] | [[[? ?] ?] | [[?|?] ?]]];
      qarith. }
  right; right.
  destruct (heat_critical_cases t) as [[? ?] | [[[? ?] ?] | [? ?]]]; qarith.
Qed.

Lemma input_numerator_positive (t d : Q) : 100 < t -> 0 < input_numerator t d.
Proof.
  intro Ht. unfold input_numerator, numerator_spec.
  input_strengths t d.
  destruct (heat_above_low_positive t Ht) as [Hh | [Hh | Hh]];
    destruct (duration_some_positive d) as [Hd | [Hd | Hd]];
    pose proof (Q.min_glb_lt _ _ _ Hh Hd); lra.
Qed.

Lemma input_numerator_zero (t d : Q) : t <= 100 -> input_numerator t d == 0.
Proof.
  intro Ht. unfold input_numerator, numerator_spec.
  input_strengths t d.
  pose proof (heat_zero_below_medium t Ht).
  pose proof (heat_zero_below_high t ltac:(lra)).
  pose proof (heat_zero_below_critical t ltac:(lra)).
  lra.
Qed.

Lemma quotient_pos (n d q : Q) : 0 < d -> q == n / d -> 0 < n -> 0 < q.
Proof.
  intros Hd -> H. apply Qlt_shift_div_l; [assumption | lra].
Qed.

Lemma water_level_none_iff (w : Q) :
  0 <= w ->
  ((if lt 0 w
    then if lt w 0.3 then "Low" else if lt w 0.7 then "Medium" else "High"
    else "None") = "None" <-> w == 0).
Proof.
  intro Hw. case_lt 0 w; [case_lt w 0.3; [|case_lt w 0.7]|];
    split; intro H; try discriminate; try reflexivity; lra.
Qed.

Lemma water_level_high_iff (w : Q) :
  ((if lt 0 w
    then if lt w 0.3 then "Low" else if lt w 0.7 then "Medium" else "High"
    else "None") = "High" <-> 0.7 <= w).
Proof.
  case_lt 0 w; [case_lt w 0.3; [|case_lt w 0.7]|];
    split; intro H; try discriminate; try reflexivity; lra.
Qed.

Lemma truncate_spec_ge (x : Q) (z : Z) :
  0 <= x -> inject_Z z <= x -> (z <= truncate_spec x)%Z.
Proof.
  intros H0 H. unfold truncate_spec.
  rewrite (proj2 (Qle_bool_iff 0 x) H0).
  rewrite <- (Qfloor_Z z). apply Qfloor_resp_le. exact H.
Qed.

(** X7. Water flows exactly above 100 degrees: for every duration the
    output is 0, the level None and the pressure 0 when the temperature is at
    most 100, and the output is strictly positive above 100. *)
Theorem water_output_zero_iff (t d : Q) :
  exists r,
    calculate_system_response t d = Return r /\
    (water_output r == 0 <-> t <= 100) /\
    (water_level r = "None" <-> t <= 100) /\
    (t <= 100 -> water_pressure r = 0%Z).
Proof.
  destruct (water_output_quotient t d)
    as (r & Hr & Hden & Hq & [Hw0 Hw1] & _ & _ & Hlevel & Hpress).
  exists r. split; [exact Hr|].
  assert (Hiff : water_output r == 0 <-> t <= 100).
  { split; intro H.
    - destruct (Qlt_le_dec 100 t) as [L | L]; [|exact L].
      pose proof (quotient_pos _ _ _ Hden Hq (input_numerator_positive t d L)).
      lra.
    - rewrite Hq, (input_numerator_zero t d H). unfold Qdiv.
      apply Qmult_0_l. }
  split; [exact Hiff|]. split.
  - rewrite Hlevel, (water_level_none_iff _ Hw0). exact Hiff.
  - intro H. apply Hiff in H.
    rewrite Hpress, int_truncate.
    rewrite (truncate_spec_comp (water_output r * 100) 0)
      by (rewrite H; apply Qmult_0_l).
    reflexivity.
Qed.

(** X10. Bounds of the spray duration: never below 2500 ms; at most
    5000 ms up to 205 degrees, where the heat multiplier is 1; at most
    14500 ms up to 300 degrees. *)
Theorem spray_duration_bounds (t d : Q) :
  exists r,
    calculate_system_response t d = Return r /\
    (2500 <= spray_duration r)%Z /\
    (t <= 205 -> (spray_duration r <= 5000)%Z) /\
    (t <= 300 -> (spray_duration r <= 14500)%Z).
Proof.
  destruct (water_output_quotient t d)
    as (r & Hr & _ & _ & [Hw0 Hw1] & _ & Hspray & _).
  exists r. split; [exact Hr|].
  rewrite Hspray, int_truncate.
  set (a := max 1 ((t - 155) / 50)).
  set (b := max 0.5 (water_output r)).
  assert (Ha : 1 <= a /\ (t <= 205 -> a == 1) /\ (t <= 300 -> a <= 2.9)).
  { subst a. destruct (max_spec 1 ((t - 155) / 50)) as [[H ->] | [H ->]];
      repeat split; intros; qarith. }
  assert (Hb : 0.5 <= b <= 1).
  { subst b. destruct (max_spec 0.5 (water_output r)) as [[H ->] | [H ->]];
      split; lra. }
  destruct Ha as (Ha1 & Ha205 & Ha300). destruct Hb as [Hb0 Hb1].
  assert (Hab : 0.5 <= a * b) by nra.
  split; [|split].
  - apply truncate_spec_ge; unfold inject_Z; nra.
  - intro Ht. specialize (Ha205 Ht).
    apply truncate_spec_le; unfold inject_Z; [nra|].
    rewrite Ha205. lra.
  - intro Ht. specialize (Ha300 Ht).
    assert (a * b <= 2.9) by nra.
    apply truncate_spec_le; unfold inject_Z; nra.
Qed.

(** * Properties of the window *)

Import Gui.

(** ** What [update_system] shows *)

(** The response is a function of the input: facts about one returned
    response hold of every response the call returns. *)
Lemma response_facts (t d : Q) (r : SystemResponse) :
  calculate_system_response t d = Return r ->
  0 < input_denominator t d /\
  water_output r == input_numerator t d / input_denominator t d /\
  0 <= water_output r <= 1 /\
  should_trigger r = le 155 t && lt 0 d /\
  (system_status r, status_color r) =
    (if should_trigger r then ("ACTIVE", "#ff4444")
     else if le 140 t then ("WARNING", "#ffa726")
     else ("STANDBY", "#4ecdc4")) /\
  water_pressure r = int (water_output r * 100) /\
  heat_memberships r = get_heat_membership t /\
  exists kh,
    get_dominant_membership (get_heat_membership t) = Return kh /\
    dominant_heat r = capitalize kh.
Proof.
  intro Hr.
  destruct (water_output_quotient t d)
    as (r1 & Hr1 & Hden & Hq & Hunit & Htrig & _ & _ & Hpress).
  destruct (calculate_system_response_fields t d)
    as (r2 & w & kh & kd & Hr2 & _ & _ & Hkh & _ & Hhm & _ & _ & Hdh & _ & _
        & _ & Hstatus & _).
  rewrite Hr in Hr1, Hr2.
  injection Hr1 as <-. injection Hr2 as <-.
  repeat (split; [assumption|]). eauto.
Qed.

Lemma short_only_ceiling (t d : Q) :
  d <= 10 -> input_numerator t d <= 0.8 * input_denominator t d.
Proof.
  intro Hd.
  unfold input_numerator, input_denominator, numerator_spec,
    denominator_spec.
  input_strengths t d.
  pose proof (duration_zero_below_medium d Hd).
  pose proof (duration_zero_below_long d ltac:(lra)). lra.
Qed.

(** [update_system] computes the response at duration 0 and writes five
    widgets. *)
Lemma update_system_done (format_2f : Q -> string) (g : gui) :
  exists r,
    calculate_system_response g.(heat_level) 0 = Return r /\
    update_system format_2f g =
      Done (update_membership_display format_2f r
              (set_pressure_label (str r.(water_pressure) ++ "%")
                 (set_status_label (r.(system_status), r.(status_color))
                    (set_water_fuzzy_label r.(water_level)
                       (set_heat_fuzzy_label r.(dominant_heat) g))))).
Proof.
  destruct (calculate_system_response_fields g.(heat_level) 0)
    as (r & _ & _ & _ & Hr & _).
  exists r. split; [exact Hr|].
  unfold update_system. rewrite Hr. reflexivity.
Qed.

(** X11. [update_system] always passes duration 0, so whatever the slider
    shows the status label never reads ACTIVE: it reads WARNING (#ffa726)
    from 140 degrees and STANDBY (#4ecdc4) below; the pressure label is a
    percentage between 0 and 80; the attributes and the other widgets are
    left as they were. *)
Theorem update_system_never_active (format_2f : Q -> string) (g : gui) :
  exists g',
    update_system format_2f g = Done g' /\
    (140 <= g.(heat_level) -> g'.(status_label) = ("WARNING", "#ffa726")) /\
    (g.(heat_level) < 140 -> g'.(status_label) = ("STANDBY", "#4ecdc4")) /\
    (exists p, g'.(pressure_label) = str p ++ "%" /\ (0 <= p <= 80)%Z) /\
    g'.(heat_level) = g.(heat_level) /\
    g'.(is_triggered) = g.(is_triggered) /\
    g'.(animation_running) = g.(animation_running) /\
    g'.(fire_timer) = g.(fire_timer) /\
    g'.(timer_label) = g.(timer_label) /\
    g'.(heat_scale) = g.(heat_scale) /\
    g'.(start_btn) = g.(start_btn) /\
    g'.(pending_countdowns) = g.(pending_countdowns).
Proof.
  destruct (update_system_done format_2f g) as (r & Hr & Hupd).
  destruct (response_facts _ _ _ Hr)
    as (Hden & Hq & [Hw0 Hw1] & Htrig & Hstatus & Hpress & _).
  eexists. split; [exact Hupd|].
  cbn [update_membership_display set_heat_membership_frame set_pressure_label
       set_status_label set_water_fuzzy_label set_heat_fuzzy_label
       status_label pressure_label heat_level is_triggered animation_running
       fire_timer timer_label heat_scale start_btn pending_countdowns].
  assert (Hidle : should_trigger r = false).
  { rewrite Htrig. apply andb_false_iff. right. reflexivity. }
  rewrite Hidle in Hstatus. rewrite Hstatus.
  split; [|split; [|split]].
  - intro H. apply le_true_iff in H. rewrite H. reflexivity.
  - intro H. apply le_false_iff in H. rewrite H. reflexivity.
  - exists (water_pressure r). split; [reflexivity|].
    assert (H08 : water_output r <= 0.8).
    { apply (quotient_le _ _ _ _ Hden Hq).
      apply short_only_ceiling. lra. }
    rewrite Hpress, int_truncate. split.
    + apply truncate_spec_nonneg. lra.
    + apply truncate_spec_le; unfold inject_Z; lra.
  - repeat split.
Qed.

(** ** The membership rows *)

(** At every temperature some heat degree is above the display threshold
    0.01. *)
Lemma heat_some_displayed (t : Q) :
  0.01 < heat_low t \/ 0.01 < heat_medium t \/ 0.01 < heat_high t \/
  0.01 < heat_critical t.
Proof.
  destruct (Qlt_le_dec t 119) as [L1 | L1].
  { left. destruct (heat_low_cases t) as [[? ?] | [? ?]]; qarith. }
  destruct (Qlt_le_dec t 179) as [L2 | L2].
  { right; left.
    destruct (heat_medium_cases t) as [[[? ?] ?] | [[[? ?] ?] | [[?|?] ?]]];
      qarith. }
  destruct (Qlt_le_dec t 219) as [L3 | L3].
  { right; right; left.
    destruct (heat_high_cases t) as [[[? ?] ?] | [[[? ?] ?] | [[?|?] ?]]];
      qarith. }
  right; right; right.
  destruct (heat_critical_cases t) as [[? ?] | [[[? ?] ?] | [? ?]]]; qarith.
Qed.

(** The returned key holds a greatest value, when no value is negative and
    no key is empty. *)
Lemma get_dominant_membership_greatest (m : dict) :
  m <> [] ->
  Forall (fun kv => fst kv <> "" /\ 0 <= snd kv) m ->
  exists k v,
    get_dominant_membership m = Return k /\
    In (k, v) m /\
    Forall (fun kv => snd kv <= v) m.
Proof.
  intros Hne Hwf. unfold get_dominant_membership.
  destruct (dominant_loop_spec m 0 "")
    as [[Hall Heq] | (i & k & v & Hnth & Heq & Hlt & Hmax)]; rewrite Heq;
    cbn [snd].
  - destruct m as [| [k0 v0] rest]; [congruence|].
    exists k0, v0. split; [reflexivity|]. split; [left; reflexivity|].
    inversion Hwf as [| ? ? [_ H0] _]; subst. cbn [snd] in H0.
    rewrite Forall_forall in Hall |- *.
    intros kv Hin. specialize (Hall kv Hin). lra.
  - assert (Hin : In (k, v) m) by (eapply nth_error_In; exact Hnth).
    rewrite Forall_forall in Hwf.
    rewrite (truthy_nonempty k (proj1 (Hwf _ Hin))).
    exists k, v. split; [reflexivity|]. split; [exact Hin|].
    rewrite Forall_forall. intros [kj vj] Hj.
    destruct (In_nth_error _ _ Hj) as [j Hjn].
    exact (proj1 (Hmax j kj vj Hjn)).
Qed.

Lemma membership_labels_in (format_2f : Q -> string) (items : dict)
    (k : string) (v : Q) :
  In (k, v) items -> 0.01 < v ->
  In (capitalize k ++ ": " ++ format_2f v)
     (membership_labels format_2f items).
Proof.
  intros Hin Hv. induction items as [| [k' v'] rest IH]; [contradiction|].
  cbn [membership_labels].
  destruct Hin as [Heq | Hin].
  - injection Heq as -> ->.
    rewrite (proj2 (lt_true_iff 0.01 v) Hv). left. reflexivity.
  - destruct (lt 0.01 v'); [right|]; exact (IH Hin).
Qed.

Lemma membership_labels_origin (format_2f : Q -> string) (items : dict)
    (s : string) :
  In s (membership_labels format_2f items) ->
  exists k v,
    In (k, v) items /\ 0.01 < v /\ s = capitalize k ++ ": " ++ format_2f v.
Proof.
  induction items as [| [k' v'] rest IH]; cbn [membership_labels];
    [contradiction|].
  case_lt 0.01 v'.
  - intros [<- | Hin].
    + exists k', v'. split; [left; reflexivity|]. split; [exact E|reflexivity].
    + destruct (IH Hin) as (k & v & H1 & H2 & H3).
      exists k, v. split; [right; exact H1 | split; assumption].
  - intro Hin. destruct (IH Hin) as (k & v & H1 & H2 & H3).
    exists k, v. split; [right; exact H1 | split; assumption].
Qed.

(** X12. After [update_system] the membership frame holds the heading
    "Heat:" followed by one row per heat degree above 0.01, in the order low,
    medium, high, critical; there is always at least one row, and the
    category shown in the heat label always has its row. *)
Theorem membership_frame_shows_dominant (format_2f : Q -> string) (g : gui) :
  exists g' rows,
    update_system format_2f g = Done g' /\
    g'.(heat_membership_frame) = "Heat:" :: rows /\
    rows = membership_labels format_2f (get_heat_membership g.(heat_level)) /\
    (forall s, In s rows <->
       exists k v,
         In (k, v) (get_heat_membership g.(heat_level)) /\ 0.01 < v /\
         s = capitalize k ++ ": " ++ format_2f v) /\
    exists v,
      0.01 < v /\
      In (g'.(heat_fuzzy_label) ++ ": " ++ format_2f v) rows.
Proof.
  destruct (update_system_done format_2f g) as (r & Hr & Hupd).
  destruct (response_facts _ _ _ Hr)
    as (_ & _ & _ & _ & _ & _ & Hhm & kh & Hkh & Hdh).
  eexists. eexists. split; [exact Hupd|].
  cbn [update_membership_display set_heat_membership_frame set_pressure_label
       set_status_label set_water_fuzzy_label set_heat_fuzzy_label
       heat_membership_frame heat_fuzzy_label].
  rewrite Hhm, Hdh.
  split; [reflexivity|]. split; [reflexivity|]. split.
  - intro s. split.
    + apply membership_labels_origin.
    + intros (k & v & Hin & Hv & ->). apply membership_labels_in; assumption.
  - set (t := g.(heat_level)) in *.
    destruct (get_dominant_membership_greatest (get_heat_membership t))
      as (k & v & Hk & Hin & Hmax).
    { rewrite get_heat_membership_items. discriminate. }
    { rewrite get_heat_membership_items.
      destruct (heat_nonneg t) as (? & ? & ? & ?).
      repeat constructor; cbn [fst snd]; first [discriminate | assumption]. }
    rewrite Hkh in Hk. injection Hk as <-.
    exists v.
    assert (Hv : 0.01 < v).
    { rewrite get_heat_membership_items in Hmax.
      inversion Hmax as [| ? ? M1 Hmax1]; subst.
      inversion Hmax1 as [| ? ? M2 Hmax2]; subst.
      inversion Hmax2 as [| ? ? M3 Hmax3]; subst.
      inversion Hmax3 as [| ? ? M4 _]; subst.
      cbn [snd] in *.
      destruct (heat_some_displayed t) as [H | [H | [H | H]]]; lra. }
    split; [exact Hv|].
    apply membership_labels_in; assumption.
Qed.

(** ** The fire timer and the fire image *)

(** Projections of assignments. *)
Ltac gui_fields :=
  cbn [heat_level is_triggered animation_running initial_heat fire_timer
       total_fire_time fire_img_orig heat_scale start_btn timer_label
       heat_value_label heat_fuzzy_label water_fuzzy_label status_label
       pressure_label heat_membership_frame fire_item pending_countdowns
       set_heat_level set_is_triggered set_animation_running set_initial_heat
       set_fire_timer set_total_fire_time set_heat_scale set_start_btn
       set_timer_label set_heat_value_label set_heat_fuzzy_label
       set_water_fuzzy_label set_status_label set_pressure_label
       set_heat_membership_frame set_fire_item set_pending_countdowns] in *.

Lemma truncate_spec_mono (x y : Q) :
  x <= y -> (truncate_spec x <= truncate_spec y)%Z.
Proof.
  intro H. unfold truncate_spec.
  destruct (Qle_bool 0 x) eqn:Ex; destruct (Qle_bool 0 y) eqn:Ey.
  - apply Qfloor_resp_le. exact H.
  - apply Qle_bool_iff in Ex.
    assert (0 <= y) by lra. apply Qle_bool_iff in H0. congruence.
  - assert (Hx : x <= 0).
    { apply Qlt_le_weak, Qnot_le_lt. intro Hle.
      apply Qle_bool_iff in Hle. congruence. }
    apply Qle_bool_iff in Ey.
    apply Z.le_trans with 0%Z.
    + change 0%Z with (Qceiling 0). apply Qceiling_resp_le. exact Hx.
    + change 0%Z with (Qfloor 0). apply Qfloor_resp_le. exact Ey.
  - apply Qceiling_resp_le. exact H.
Qed.

Lemma fire_seconds_range (h : Q) :
  70 <= h <= 300 -> (3 <= fire_seconds h <= 15)%Z.
Proof.
  intros [H1 H2]. unfold fire_seconds. rewrite int_truncate. split.
  - apply truncate_spec_ge; unfold inject_Z; qarith.
  - apply truncate_spec_le; unfold inject_Z; qarith.
Qed.

Lemma div_by_positive (k n : Z) :
  (0 < n)%Z ->
  div (inject_Z k) (inject_Z n) = Return (inject_Z k / inject_Z n).
Proof.
  intro Hn. apply div_positive.
  unfold Qlt, inject_Z. cbn. lia.
Qed.

(** Without a running fire, without the image, or with the timer at 0 the
    method only removes the image. *)
Lemma animate_fire_hidden (g : gui) :
  g.(is_triggered) = false \/ g.(fire_img_orig) = false \/
  (exists k, g.(fire_timer) = Some k /\ (k <= 0)%Z) ->
  animate_fire g = Done (set_fire_item None g).
Proof.
  intro H. unfold animate_fire. gui_fields.
  destruct g.(is_triggered); [|reflexivity].
  destruct g.(fire_img_orig); [|reflexivity].
  destruct H as [H | [H | (k & Hk & Hle)]]; try discriminate.
  rewrite Hk. cbn [attr and_then negb].
  apply Z.leb_le in Hle. rewrite Hle. reflexivity.
Qed.

(** The method raises nothing when the timer, once set, came from an
    initial heat and has not grown, and is set whenever a fire runs. *)
Lemma animate_fire_done (g : gui) :
  (g.(is_triggered) = true -> g.(fire_timer) <> None) ->
  (forall k, g.(fire_timer) = Some k ->
             exists h, g.(initial_heat) = Some h /\ (k <= fire_seconds h)%Z) ->
  exists item, animate_fire g = Done (set_fire_item item g).
Proof.
  intros Hset Hinit.
  destruct g.(is_triggered) eqn:Etrig;
    [|exists None; apply animate_fire_hidden; auto].
  destruct g.(fire_img_orig) eqn:Eimg;
    [|exists None; apply animate_fire_hidden; auto].
  destruct g.(fire_timer) as [k|] eqn:Etimer;
    [|exfalso; apply Hset; reflexivity].
  destruct (Z_le_gt_dec k 0) as [Hk | Hk];
    [exists None; apply animate_fire_hidden; eauto|].
  destruct (Hinit k eq_refl) as (h & Hh & Hle).
  unfold animate_fire. gui_fields. rewrite Etrig, Eimg, Etimer, Hh.
  cbn [attr and_then negb].
  assert (Hleb : (k <=? 0)%Z = false) by (apply Z.leb_gt; lia).
  rewrite Hleb, (div_by_positive k (fire_seconds h)) by lia.
  cbn [lift and_then]. eexists. reflexivity.
Qed.

(** X13. While a fire runs with the image loaded, an initial heat in the
    slider's range 70..300 and a timer between 1 and the initial number of
    seconds, [animate_fire] raises nothing (the divisor is not zero) and
    draws an image whose height is between 4 and 320 and whose width is
    between 2 and 224: neither dimension is ever 0. *)
Theorem animate_fire_image_size (g : gui) (k : Z) (h : Q) :
  g.(is_triggered) = true ->
  g.(fire_img_orig) = true ->
  g.(fire_timer) = Some k ->
  g.(initial_heat) = Some h ->
  70 <= h <= 300 ->
  (0 < k <= fire_seconds h)%Z ->
  exists width height,
    animate_fire g = Done (set_fire_item (Some (width, height)) g) /\
    (4 <= height <= 320)%Z /\ (2 <= width <= 224)%Z.
Proof.
  intros Etrig Eimg Etimer Hh Hrange [Hk0 Hk1].
  destruct (fire_seconds_range h Hrange) as [Hs3 Hs15].
  unfold animate_fire. gui_fields. rewrite Etrig, Eimg, Etimer, Hh.
  cbn [attr and_then negb].
  assert (Hleb : (k <=? 0)%Z = false) by (apply Z.leb_gt; lia).
  rewrite Hleb, (div_by_positive k (fire_seconds h)) by lia.
  cbn [lift and_then]. eexists. eexists. split; [reflexivity|].
  rewrite !int_truncate.
  set (n := fire_seconds h) in *.
  set (base := truncate_spec (60 + (320 - 60) * ((h - 70) / 230))).
  assert (Hbase : (60 <= base <= 320)%Z).
  { subst base. split.
    - apply truncate_spec_ge; unfold inject_Z; qarith.
    - apply truncate_spec_le; unfold inject_Z; qarith. }
  assert (Hratio : 1 # 15 <= inject_Z k / inject_Z n <= 1).
  { assert (0 < inject_Z n) by (unfold Qlt, inject_Z; cbn; lia).
    assert (1 <= inject_Z k) by (unfold Qle, inject_Z; cbn; lia).
    assert (inject_Z k <= inject_Z n) by (unfold Qle, inject_Z; cbn; lia).
    assert (inject_Z n <= 15) by (unfold Qle, inject_Z; cbn; lia).
    split.
    - apply Qle_shift_div_l; [assumption | lra].
    - apply Qle_shift_div_r; [assumption | lra]. }
  set (ratio := inject_Z k / inject_Z n) in *.
  assert (Hb : 60 <= inject_Z base <= 320).
  { split; unfold Qle, inject_Z; cbn; lia. }
  set (height := truncate_spec (inject_Z base * ratio)).
  assert (Hheight : (4 <= height <= 320)%Z).
  { subst height. split.
    - apply truncate_spec_ge; [nra | change (inject_Z 4) with 4; nra].
    - apply truncate_spec_le; [nra | change (inject_Z 320) with 320; nra]. }
  split; [exact Hheight|].
  assert (Hh' : 4 <= inject_Z height <= 320).
  { split; unfold Qle, inject_Z; cbn; lia. }
  split.
  - apply truncate_spec_ge; [lra | change (inject_Z 2) with 2; lra].
  - apply truncate_spec_le; [lra | change (inject_Z 224) with 224; lra].
Qed.

(** ** Starting a fire and counting down *)

(** While the timer is positive and the fire runs, a countdown call shows
    the time left, takes one second off, redraws the fire and queues the next
    call. *)
Lemma countdown_running (g : gui) (k total : Z) (h : Q) :
  g.(fire_timer) = Some k ->
  (0 < k)%Z ->
  g.(is_triggered) = true ->
  g.(total_fire_time) = Some total ->
  g.(initial_heat) = Some h ->
  (k <= fire_seconds h)%Z ->
  exists item,
    countdown_fire_timer g =
      Done (set_pending_countdowns (S g.(pending_countdowns))
              (set_fire_item item
                 (set_fire_timer (Some (k - 1)%Z)
                    (set_timer_label (countdown_text k total) g)))).
Proof.
  intros Ht Hk Htrig Htot Hh Hle.
  unfold countdown_fire_timer. rewrite Ht, Htrig, Htot.
  cbn [attr and_then].
  assert (Hltb : (0 <? k)%Z = true) by (apply Z.ltb_lt; exact Hk).
  rewrite Hltb. cbn [andb].
  destruct (animate_fire_done
              (set_fire_timer (Some (k - 1)%Z)
                 (set_timer_label (countdown_text k total) g)))
    as [item Hitem].
  - intros _. gui_fields. discriminate.
  - intros k' Hk'. gui_fields. injection Hk' as <-.
    exists h. split; [exact Hh | lia].
  - rewrite Hitem. cbn [and_then]. exists item. reflexivity.
Qed.

(** With the timer at 0 or below, or the fire no longer running, a
    countdown call ends the fire and queues nothing. *)
Lemma countdown_finished (g : gui) (k : Z) :
  g.(fire_timer) = Some k ->
  (k <= 0)%Z \/ g.(is_triggered) = false ->
  countdown_fire_timer g =
    Done (set_start_btn NORMAL
            (set_heat_scale NORMAL
               (set_fire_item None
                  (set_animation_running false
                     (set_is_triggered false
                        (set_timer_label "Fire extinguished!" g)))))).
Proof.
  intros Ht Hend.
  unfold countdown_fire_timer. rewrite Ht. cbn [attr and_then].
  assert (Hcond : (0 <? k)%Z && g.(is_triggered) = false).
  { destruct Hend as [Hk | Htrig].
    - apply andb_false_iff. left. apply Z.ltb_ge. exact Hk.
    - apply andb_false_iff. right. exact Htrig. }
  rewrite Hcond.
  rewrite animate_fire_hidden by (left; reflexivity).
  reflexivity.
Qed.

(** [start_fire] from an idle window, when the seconds of the heat are
    positive: the state it leaves, after its own first countdown call. *)
Lemma start_fire_started (g : gui) :
  g.(is_triggered) = false ->
  (0 < fire_seconds g.(heat_level))%Z ->
  exists g',
    start_fire g = Done g' /\
    g'.(total_fire_time) = Some (fire_seconds g.(heat_level)) /\
    g'.(fire_timer) = Some (fire_seconds g.(heat_level) - 1)%Z /\
    g'.(initial_heat) = Some g.(heat_level) /\
    g'.(heat_level) = g.(heat_level) /\
    g'.(is_triggered) = true /\
    g'.(animation_running) = le 155 g.(heat_level) /\
    g'.(timer_label) =
      countdown_text (fire_seconds g.(heat_level))
        (fire_seconds g.(heat_level)) /\
    g'.(heat_scale) = DISABLED /\
    g'.(start_btn) = DISABLED /\
    g'.(pending_countdowns) = S g.(pending_countdowns) /\
    g'.(fire_img_orig) = g.(fire_img_orig) /\
    g'.(status_label) = g.(status_label).
Proof.
  intros Hidle Hpos.
  unfold start_fire. rewrite Hidle. gui_fields.
  set (h := g.(heat_level)) in *. set (n := fire_seconds h) in *.
  match goal with
  | |- context [and_then (animate_fire ?s) _] => set (g2 := s)
  end.
  assert (F : g2.(fire_timer) = Some n /\ g2.(is_triggered) = true /\
              g2.(total_fire_time) = Some n /\ g2.(initial_heat) = Some h /\
              g2.(animation_running) = le 155 h /\
              g2.(heat_scale) = DISABLED /\ g2.(start_btn) = DISABLED /\
              g2.(pending_countdowns) = g.(pending_countdowns) /\
              g2.(heat_level) = h /\
              g2.(fire_img_orig) = g.(fire_img_orig) /\
              g2.(status_label) = g.(status_label)).
  { subst g2. destruct (le 155 h); gui_fields; repeat split. }
  clearbody g2.
  destruct F as (F1 & F2 & F3 & F4 & F5 & F6 & F7 & F8 & F9 & F10 & F11).
  destruct (animate_fire_done g2) as [item Hitem].
  - intros _. rewrite F1. discriminate.
  - intros k Hk. rewrite F1 in Hk. injection Hk as <-.
    exists h. split; [exact F4 | lia].
  - rewrite Hitem. cbn [and_then].
    destruct (countdown_running (set_fire_item item g2) n n h)
      as [item' Hcount]; gui_fields; try assumption; try lia.
    rewrite Hcount. eexists. split; [reflexivity|].
    gui_fields. rewrite F8.
    repeat split; assumption.
Qed.

(** X14. Pressing Start in an idle window whose slider is in its range
    70..300: the total is int(3 + 12 * (heat - 70) / 230), between 3 and 15
    seconds; one second is already taken off when [start_fire] returns, and
    one countdown call is queued; slider and button are disabled; the label
    reads the countdown text also below 155 degrees, where the text about a
    fire too small for the sprinkler has been overwritten; and
    animation_running is true exactly from 155 degrees, the temperature at
    which the controller triggers for any positive duration. *)
Theorem start_fire_in_range (g : gui) :
  g.(is_triggered) = false ->
  70 <= g.(heat_level) <= 300 ->
  exists g' n,
    start_fire g = Done g' /\
    n = fire_seconds g.(heat_level) /\
    (3 <= n <= 15)%Z /\
    g'.(total_fire_time) = Some n /\
    g'.(fire_timer) = Some (n - 1)%Z /\
    g'.(initial_heat) = Some g.(heat_level) /\
    g'.(is_triggered) = true /\
    (g'.(animation_running) = true <-> 155 <= g.(heat_level)) /\
    g'.(timer_label) = countdown_text n n /\
    g'.(heat_scale) = DISABLED /\
    g'.(start_btn) = DISABLED /\
    g'.(pending_countdowns) = S g.(pending_countdowns) /\
    (forall d, 0 < d ->
       exists r,
         calculate_system_response g.(heat_level) d = Return r /\
         should_trigger r = g'.(animation_running)).
Proof.
  intros Hidle Hrange.
  pose proof (fire_seconds_range _ Hrange) as Hn.
  destruct (start_fire_started g Hidle ltac:(lia))
    as (g' & Hstart & Htot & Htimer & Hinit & _ & Htrig & Hanim & Hlabel
        & Hscale & Hbtn & Hpend & _).
  exists g', (fire_seconds g.(heat_level)).
  repeat (split; [first [assumption | reflexivity | lia]|]).
  split; [rewrite Hanim; apply le_true_iff|].
  repeat (split; [assumption|]).
  intros d Hd.
  destruct (calculate_system_response_fields g.(heat_level) d)
    as (r & w & kh & kd & Hr & _ & _ & _ & _ & _ & _ & _ & _ & _ & Hst & _).
  exists r. split; [exact Hr|].
  rewrite Hst, Hanim, (proj2 (lt_true_iff 0 d) Hd). apply andb_true_r.
Qed.

(** The queued calls from a running fire to its end. *)
Lemma run_countdown_to_end (k : nat) :
  forall (g : gui) (fuel : nat) (total : Z) (h : Q),
    g.(is_triggered) = true ->
    g.(fire_timer) = Some (Z.of_nat k) ->
    g.(total_fire_time) = Some total ->
    g.(initial_heat) = Some h ->
    (Z.of_nat k <= fire_seconds h)%Z ->
    g.(pending_countdowns) = 1%nat ->
    (k < fuel)%nat ->
    exists g',
      run_countdown fuel g = Done (g', S k) /\
      g'.(is_triggered) = false /\
      g'.(animation_running) = false /\
      g'.(heat_scale) = NORMAL /\
      g'.(start_btn) = NORMAL /\
      g'.(timer_label) = "Fire extinguished!" /\
      g'.(fire_timer) = Some 0%Z /\
      g'.(fire_item) = None /\
      g'.(pending_countdowns) = O /\
      g'.(heat_level) = g.(heat_level) /\
      g'.(total_fire_time) = Some total.
Proof.
  induction k as [| k IH]; intros g fuel total h Htrig Ht Htot Hh Hle Hp Hfuel;
    (destruct fuel as [| fuel]; [lia|]);
    cbn [run_countdown]; unfold tick; rewrite Hp.
  - rewrite (countdown_finished (set_pending_countdowns 0 g) 0)
      by (gui_fields; first [exact Ht | left; lia]).
    cbn [and_then].
    assert (Hstop : forall s, s.(pending_countdowns) = O ->
                              run_countdown fuel s = Done (s, O)).
    { intros s Hs. destruct fuel; cbn [run_countdown]; [reflexivity|].
      unfold tick. rewrite Hs. reflexivity. }
    rewrite Hstop by reflexivity. cbn [and_then fst snd].
    eexists. split; [reflexivity|]. gui_fields.
    repeat split; assumption.
  - destruct (countdown_running (set_pending_countdowns 0 g)
                (Z.of_nat (S k)) total h)
      as [item Hcount]; gui_fields; try assumption; try lia.
    rewrite Hcount. cbn [and_then]. gui_fields.
    match goal with
    | |- context [run_countdown fuel ?s] => set (g1 := s)
    end.
    destruct (IH g1 fuel total h) as (g' & Hrun & Hfinal);
      subst g1; gui_fields; try assumption; try reflexivity; try lia.
    { f_equal. lia. }
    rewrite Hrun. cbn [and_then fst snd].
    exists g'. split; [reflexivity | exact Hfinal].
Qed.

(** X15. After Start in an idle window with nothing queued and the slider
    in its range, the queued countdown calls end by themselves: exactly as
    many calls as the total number of seconds are made, and they leave the
    fire extinguished, the animation stopped, the image removed, slider and
    button enabled again, the timer at 0 and nothing queued. *)
Theorem countdown_completes (g : gui) (fuel : nat) :
  g.(is_triggered) = false ->
  g.(pending_countdowns) = O ->
  70 <= g.(heat_level) <= 300 ->
  (Z.to_nat (fire_seconds g.(heat_level)) <= fuel)%nat ->
  exists g1 g2,
    start_fire g = Done g1 /\
    run_countdown fuel g1 =
      Done (g2, Z.to_nat (fire_seconds g.(heat_level))) /\
    g2.(is_triggered) = false /\
    g2.(animation_running) = false /\
    g2.(heat_scale) = NORMAL /\
    g2.(start_btn) = NORMAL /\
    g2.(timer_label) = "Fire extinguished!" /\
    g2.(fire_timer) = Some 0%Z /\
    g2.(fire_item) = None /\
    g2.(pending_countdowns) = O /\
    g2.(heat_level) = g.(heat_level) /\
    g2.(total_fire_time) = Some (fire_seconds g.(heat_level)).
Proof.
  intros Hidle Hp Hrange Hfuel.
  pose proof (fire_seconds_range _ Hrange) as Hn.
  destruct (start_fire_started g Hidle ltac:(lia))
    as (g1 & Hstart & Htot & Htimer & Hinit & Hheat & Htrig & _ & _ & _ & _
        & Hpend & _).
  set (n := fire_seconds g.(heat_level)) in *.
  destruct (run_countdown_to_end (Z.to_nat (n - 1)) g1 fuel n g.(heat_level))
    as (g2 & Hrun & Hfinal); try assumption; try lia.
  { rewrite Htimer. f_equal. lia. }
  exists g1, g2. split; [exact Hstart|].
  replace (S (Z.to_nat (n - 1))) with (Z.to_nat n) in Hrun by lia.
  split; [exact Hrun|].
  rewrite <- Hheat. exact Hfinal.
Qed.

(** ** Reset *)

Lemma response_70_0_fields :
  exists r v,
    calculate_system_response 70 0 = Return r /\
    dominant_heat r = "Low" /\ water_level r = "None" /\
    system_status r = "STANDBY" /\ status_color r = "#4ecdc4" /\
    water_pressure r = 0%Z /\
    heat_memberships r =
      [("low", v); ("medium", 0); ("high", 0); ("critical", 0)] /\
    v == 1.
Proof.
  eexists. eexists. split; [vm_compute; reflexivity|].
  repeat split.
Qed.

(** X16. [reset_system], from any state: the slider variable is back at 70
    and the widgets show the response at 70 degrees (Low, None, STANDBY in
    #4ecdc4, 0%, one row for low); the fire is stopped, its image removed,
    slider and button enabled, the timer label empty.  The timer and the
    queued countdown calls are left as they were (nothing is cancelled), and
    so is the label beside the slider. *)
Theorem reset_system_restores (format_2f : Q -> string) (g : gui) :
  exists g' v,
    reset_system format_2f g = Done g' /\
    g'.(heat_level) = 70 /\
    g'.(is_triggered) = false /\
    g'.(animation_running) = false /\
    g'.(heat_scale) = NORMAL /\
    g'.(start_btn) = NORMAL /\
    g'.(timer_label) = "" /\
    g'.(fire_item) = None /\
    g'.(heat_fuzzy_label) = "Low" /\
    g'.(water_fuzzy_label) = "None" /\
    g'.(status_label) = ("STANDBY", "#4ecdc4") /\
    g'.(pressure_label) = "0%" /\
    g'.(heat_membership_frame) = ["Heat:"; "Low: " ++ format_2f v] /\
    v == 1 /\
    g'.(pending_countdowns) = g.(pending_countdowns) /\
    g'.(fire_timer) = g.(fire_timer) /\
    g'.(heat_value_label) = g.(heat_value_label).
Proof.
  destruct response_70_0_fields
    as (r & v & Hr & Hdh & Hwl & Hss & Hsc & Hwp & Hhm & Hv).
  unfold reset_system, update_system. gui_fields. rewrite Hr.
  cbn [lift and_then]. unfold update_membership_display.
  rewrite Hdh, Hwl, Hss, Hsc, Hwp, Hhm.
  rewrite animate_fire_hidden by (left; reflexivity).
  cbn [and_then]. eexists. exists v. split; [reflexivity|]. gui_fields.
  assert (Hrow : membership_labels format_2f
                   [("low", v); ("medium", 0); ("high", 0); ("critical", 0)]
                 = ["Low: " ++ format_2f v]).
  { cbn [membership_labels].
    assert (Hlt : lt 0.01 v = true) by (apply lt_true_iff; lra).
    rewrite Hlt. reflexivity. }
  rewrite Hrow.
  repeat split. exact Hv.
Qed.

(** ** Runs of the window *)

Lemma update_system_keeps (format_2f : Q -> string) (g : gui) :
  exists g',
    update_system format_2f g = Done g' /\
    g'.(status_label) = status_of g.(heat_level) /\
    g'.(heat_level) = g.(heat_level) /\
    g'.(is_triggered) = g.(is_triggered) /\
    g'.(animation_running) = g.(animation_running) /\
    g'.(pending_countdowns) = g.(pending_countdowns) /\
    g'.(fire_timer) = g.(fire_timer) /\
    g'.(initial_heat) = g.(initial_heat) /\
    g'.(total_fire_time) = g.(total_fire_time).
Proof.
  destruct (update_system_done format_2f g) as (r & Hr & Hupd).
  destruct (response_facts _ _ _ Hr)
    as (_ & _ & _ & Htrig & Hstatus & _).
  eexists. split; [exact Hupd|].
  unfold update_membership_display. gui_fields.
  split; [|repeat split].
  rewrite Hstatus, Htrig.
  replace (le 155 g.(heat_level) && lt 0 0) with false
    by (symmetry; apply andb_false_iff; right; reflexivity).
  reflexivity.
Qed.

Lemma timer_consistent_fields (g g' : gui) :
  timer_consistent g ->
  g'.(is_triggered) = g.(is_triggered) ->
  g'.(pending_countdowns) = g.(pending_countdowns) ->
  g'.(fire_timer) = g.(fire_timer) ->
  g'.(initial_heat) = g.(initial_heat) ->
  g'.(total_fire_time) = g.(total_fire_time) ->
  timer_consistent g'.
Proof.
  unfold timer_consistent. intros [H1 H2] -> -> -> -> ->. split; assumption.
Qed.

Lemma start_fire_keeps (g : gui) :
  window_ok g -> exists g', start_fire g = Done g' /\ window_ok g'.
Proof.
  intros Hok. pose proof Hok as [[Hset Hinit] Hstatus].
  unfold start_fire.
  destruct g.(is_triggered) eqn:Htrig.
  { exists g. split; [reflexivity | exact Hok]. }
  gui_fields.
  set (h := g.(heat_level)) in *. set (n := fire_seconds h) in *.
  match goal with
  | |- context [and_then (animate_fire ?s) _] => set (g2 := s)
  end.
  assert (F : g2.(fire_timer) = Some n /\ g2.(is_triggered) = true /\
              g2.(total_fire_time) = Some n /\ g2.(initial_heat) = Some h /\
              g2.(heat_level) = h /\
              g2.(status_label) = g.(status_label)).
  { subst g2. destruct (le 155 h); gui_fields; repeat split. }
  clearbody g2.
  destruct F as (F1 & F2 & F3 & F4 & F5 & F6).
  destruct (animate_fire_done g2) as [item Hitem].
  - intros _. rewrite F1. discriminate.
  - intros k Hk. rewrite F1 in Hk. injection Hk as <-.
    exists h. split; [exact F4 | lia].
  - rewrite Hitem. cbn [and_then].
    destruct (Z_lt_le_dec 0 n) as [Hpos | Hneg].
    + destruct (countdown_running (set_fire_item item g2) n n h)
        as [item' Hcount]; gui_fields; try assumption; try lia.
      rewrite Hcount. eexists. split; [reflexivity|].
      unfold window_ok, timer_consistent. gui_fields.
      rewrite F4, F3, F5, F6. split; [split|exact Hstatus].
      * intros _. discriminate.
      * intros k Hk. injection Hk as <-.
        exists h, n. repeat split. fold n. lia.
    + rewrite (countdown_finished (set_fire_item item g2) n)
        by (gui_fields; first [exact F1 | left; exact Hneg]).
      eexists. split; [reflexivity|].
      unfold window_ok, timer_consistent. gui_fields.
      rewrite F1, F4, F3, F5, F6. split; [split|exact Hstatus].
      * intros _. discriminate.
      * intros k Hk. injection Hk as <-.
        exists h, n. repeat split. fold n. lia.
Qed.

Lemma tick_keeps (g : gui) (o : outcome gui) :
  window_ok g -> tick g = Some o -> exists g', o = Done g' /\ window_ok g'.
Proof.
  intros [[Hset Hinit] Hstatus]. unfold tick.
  destruct g.(pending_countdowns) as [| p] eqn:Hp; [discriminate|].
  intro Ho. injection Ho as <-.
  destruct g.(fire_timer) as [k|] eqn:Ht;
    [|exfalso; apply Hset; [right; discriminate | reflexivity]].
  destruct (Hinit k eq_refl) as (h & total & Hh & Htot & Hle).
  destruct (Z_lt_le_dec 0 k) as [Hpos | Hneg];
    [destruct g.(is_triggered) eqn:Htrig|].
  - destruct (countdown_running (set_pending_countdowns p g) k total h)
      as [item Hcount]; gui_fields; try assumption.
    rewrite Hcount. eexists. split; [reflexivity|].
    unfold window_ok, timer_consistent. gui_fields.
    rewrite Hh, Htot. split; [split|exact Hstatus].
    + intros _. discriminate.
    + intros k' Hk'. injection Hk' as <-.
      exists h, total. repeat split. lia.
  - rewrite (countdown_finished (set_pending_countdowns p g) k)
      by (gui_fields; first [exact Ht | right; exact Htrig]).
    eexists. split; [reflexivity|].
    unfold window_ok, timer_consistent. gui_fields.
    rewrite Ht, Hh, Htot. split; [split|exact Hstatus].
    + intros _. discriminate.
    + intros k' Hk'. injection Hk' as <-.
      exists h, total. repeat split. exact Hle.
  - rewrite (countdown_finished (set_pending_countdowns p g) k)
      by (gui_fields; first [exact Ht | left; exact Hneg]).
    eexists. split; [reflexivity|].
    unfold window_ok, timer_consistent. gui_fields.
    rewrite Ht, Hh, Htot. split; [split|exact Hstatus].
    + intros _. discriminate.
    + intros k' Hk'. injection Hk' as <-.
      exists h, total. repeat split. exact Hle.
Qed.

Lemma slide_keeps (format_2f : Q -> string) (value : Q) (g : gui) :
  window_ok g ->
  exists g', slide format_2f value g = Done g' /\ window_ok g'.
Proof.
  intros [Htimer _]. unfold slide, on_heat_change.
  destruct (update_system_keeps format_2f
              (set_heat_value_label (str (int value) ++ degree_F)
                 (set_heat_level value g)))
    as (g' & Hupd & Hst & Hheat & H1 & _ & H2 & H3 & H4 & H5).
  gui_fields. exists g'. split; [exact Hupd|]. split.
  - exact (timer_consistent_fields g g' Htimer H1 H2 H3 H4 H5).
  - rewrite Hst, Hheat. reflexivity.
Qed.

Lemma reset_system_fields (format_2f : Q -> string) (g : gui) :
  exists g',
    reset_system format_2f g = Done g' /\
    g'.(heat_level) = 70 /\
    g'.(is_triggered) = false /\
    g'.(status_label) = status_of 70 /\
    g'.(pending_countdowns) = g.(pending_countdowns) /\
    g'.(fire_timer) = g.(fire_timer) /\
    g'.(initial_heat) = g.(initial_heat) /\
    g'.(total_fire_time) = g.(total_fire_time).
Proof.
  unfold reset_system.
  match goal with
  | |- context [update_system format_2f ?s] =>
      destruct (update_system_keeps format_2f s)
        as (g1 & Hupd & Hst & Hheat & H1 & _ & H2 & H3 & H4 & H5)
  end.
  gui_fields. rewrite Hupd. cbn [and_then].
  rewrite animate_fire_hidden by (left; exact H1).
  cbn [and_then]. eexists. split; [reflexivity|]. gui_fields.
  repeat split; assumption.
Qed.

Lemma reset_system_keeps (format_2f : Q -> string) (g : gui) :
  window_ok g ->
  exists g', reset_system format_2f g = Done g' /\ window_ok g'.
Proof.
  intros [[Hset Hinit] _].
  destruct (reset_system_fields format_2f g)
    as (g' & Hreset & Hheat & Htrig & Hst & Hp & Ht & Hi & Htot).
  exists g'. split; [exact Hreset|].
  unfold window_ok, timer_consistent.
  rewrite Htrig, Hp, Ht, Hi, Htot, Hst, Hheat. split; [split|reflexivity].
  - intros [Hf | Hq]; [discriminate|]. apply Hset. right. exact Hq.
  - exact Hinit.
Qed.

Lemma init_ok (format_2f : Q -> string) (image_loaded : bool) :
  exists g, init format_2f image_loaded = Done g /\ window_ok g.
Proof.
  unfold init.
  match goal with
  | |- context [update_system format_2f ?s] =>
      destruct (update_system_keeps format_2f s)
        as (g1 & Hupd & Hst & Hheat & H1 & _ & H2 & H3 & H4 & H5)
  end.
  gui_fields. exists g1. split; [exact Hupd|].
  unfold window_ok, timer_consistent.
  rewrite H1, H2, H3, Hst, Hheat. split; [split|reflexivity].
  - intros [Hf | Hq]; [discriminate | exfalso; apply Hq; reflexivity].
  - discriminate.
Qed.

Lemma some_injective {A : Type} (a b : A) : Some a = Some b -> a = b.
Proof. intro H. injection H as H. exact H. Qed.

Lemma handle_keeps (format_2f : Q -> string) (e : event) (g : gui)
    (o : outcome gui) :
  window_ok g ->
  handle format_2f e g = Some o ->
  exists g', o = Done g' /\ window_ok g'.
Proof.
  intros Hok. destruct e as [value | | |]; cbn [handle].
  - intro Ho. apply some_injective in Ho. subst o.
    exact (slide_keeps format_2f value g Hok).
  - intro Ho. apply some_injective in Ho. subst o.
    exact (start_fire_keeps g Hok).
  - intro Ho. apply some_injective in Ho. subst o.
    exact (reset_system_keeps format_2f g Hok).
  - exact (tick_keeps g o Hok).
Qed.

Lemma run_events_keeps (format_2f : Q -> string) (events : list event) :
  forall g,
    window_ok g ->
    exists g', run_events format_2f events (Done g) = Done g' /\ window_ok g'.
Proof.
  induction events as [| e rest IH]; intros g Hok; cbn [run_events and_then].
  - exists g. split; [reflexivity | exact Hok].
  - destruct (handle format_2f e g) as [o|] eqn:He.
    + destruct (handle_keeps format_2f e g o Hok He) as (g1 & -> & Hok1).
      exact (IH g1 Hok1).
    + exact (IH g Hok).
Qed.

(** X17. From [__init__] on, with or without the fire image, no sequence
    of slider moves (to any value), presses of Start and Reset, and queued
    countdown calls makes [update_system], [on_heat_change], [start_fire],
    [reset_system], [countdown_fire_timer] or [animate_fire] raise: the timer
    attributes are never read before [start_fire] has assigned them, the
    controller raises nothing, and [animate_fire] never divides by zero. *)
Theorem no_event_sequence_raises (format_2f : Q -> string)
    (image_loaded : bool) (events : list event) :
  exists g g',
    init format_2f image_loaded = Done g /\
    run_events format_2f events (init format_2f image_loaded) = Done g' /\
    timer_consistent g'.
Proof.
  destruct (init_ok format_2f image_loaded) as (g & Hinit & Hok).
  destruct (run_events_keeps format_2f events g Hok) as (g' & Hrun & Hok').
  exists g, g'. rewrite Hinit. split; [reflexivity|].
  split; [exact Hrun | exact (proj1 Hok')].
Qed.

(** X18. After any such sequence the status label follows the slider
    alone: WARNING in #ffa726 from 140 degrees, STANDBY in #4ecdc4 below.  It
    never reads ACTIVE, whether or not a fire runs and water is sprayed. *)
Theorem status_label_follows_slider (format_2f : Q -> string)
    (image_loaded : bool) (events : list event) :
  exists g,
    run_events format_2f events (init format_2f image_loaded) = Done g /\
    g.(status_label) =
      (if le 140 g.(heat_level) then ("WARNING", "#ffa726")
       else ("STANDBY", "#4ecdc4")) /\
    fst g.(status_label) <> "ACTIVE".
Proof.
  destruct (init_ok format_2f image_loaded) as (g0 & Hinit & Hok).
  destruct (run_events_keeps format_2f events g0 Hok)
    as (g & Hrun & [_ Hstatus]).
  exists g. rewrite Hinit. split; [exact Hrun|].
  split; [exact Hstatus|].
  rewrite Hstatus. unfold status_of.
  destruct (le 140 g.(heat_level)); discriminate.
Qed.

(** ** Reset while a countdown is queued *)

Lemma fire_seconds_70 : fire_seconds 70 = 3%Z.
Proof. reflexivity. Qed.

(** X19. [reset_system] cancels nothing: after Start, Reset, Start in a
    window that was idle with nothing queued (slider in its range), two
    countdown calls are queued for the one fire of 3 seconds that runs at 70
    degrees; each of the next two calls takes a second off, the third ends the
    fire, and one call is still queued then. *)
Theorem reset_leaves_countdown_queued (format_2f : Q -> string) (g : gui) :
  g.(is_triggered) = false ->
  g.(pending_countdowns) = O ->
  70 <= g.(heat_level) <= 300 ->
  exists g3 g6,
    run_events format_2f [ClickStart; ClickReset; ClickStart] (Done g)
      = Done g3 /\
    g3.(pending_countdowns) = 2%nat /\
    g3.(is_triggered) = true /\
    g3.(total_fire_time) = Some 3%Z /\
    g3.(fire_timer) = Some 2%Z /\
    run_events format_2f [Timer; Timer; Timer] (Done g3) = Done g6 /\
    g6.(is_triggered) = false /\
    g6.(timer_label) = "Fire extinguished!" /\
    g6.(fire_timer) = Some 0%Z /\
    g6.(pending_countdowns) = 1%nat.
Proof.
  intros Hidle Hp Hrange.
  pose proof (fire_seconds_range _ Hrange) as Hn.
  destruct (start_fire_started g Hidle ltac:(lia))
    as (g1 & Hs1 & _ & _ & _ & _ & _ & _ & _ & _ & _ & Hp1 & _).
  destruct (reset_system_fields format_2f g1)
    as (g2 & Hreset & Hheat2 & Htrig2 & _ & Hp2 & _).
  destruct (start_fire_started g2 Htrig2)
    as (g3 & Hs3 & Htot3 & Ht3 & Hi3 & _ & Htrig3 & _ & _ & _ & _ & Hp3 & _).
  { rewrite Hheat2, fire_seconds_70. lia. }
  rewrite Hheat2, fire_seconds_70 in Htot3, Ht3.
  rewrite Hheat2 in Hi3.
  assert (Hq3 : g3.(pending_countdowns) = 2%nat) by lia.
  destruct (countdown_running (set_pending_countdowns 1 g3) 2 3 70)
    as [item4 Hc4]; gui_fields; try assumption; try (rewrite fire_seconds_70);
    try lia.
  set (g4 := set_pending_countdowns 2
               (set_fire_item item4
                  (set_fire_timer (Some (2 - 1)%Z)
                     (set_timer_label (countdown_text 2 3)
                        (set_pending_countdowns 1 g3))))) in *.
  destruct (countdown_running (set_pending_countdowns 1 g4) 1 3 70)
    as [item5 Hc5]; subst g4; gui_fields; try assumption;
    try (rewrite fire_seconds_70); try reflexivity; try lia.
  match type of Hc5 with
  | _ = Done ?s => set (g5 := s) in *
  end.
  pose proof (countdown_finished (set_pending_countdowns 1 g5) 0) as Hc6.
  exists g3. eexists.
  split.
  { cbn [run_events and_then handle]. rewrite Hs1.
    cbn [run_events and_then handle]. rewrite Hreset.
    cbn [run_events and_then handle]. exact Hs3. }
  repeat (split; [assumption|]).
  split.
  { cbn [run_events and_then handle]. unfold tick at 1. rewrite Hq3, Hc4.
    cbn [run_events and_then handle]. unfold tick at 1. gui_fields.
    rewrite Hc5.
    cbn [run_events and_then handle]. unfold tick at 1. fold g5.
    replace g5.(pending_countdowns) with 2%nat by reflexivity.
    rewrite Hc6; [reflexivity | reflexivity | left; lia]. }
  gui_fields. repeat split.
Qed.

(** ** Instances for the window *)

(** X13 at a fire of 200 degrees with 5 seconds left. *)
Lemma animate_fire_image_size_witness :
  exists width height,
    animate_fire
      (set_fire_timer (Some 5%Z)
         (set_initial_heat (Some 200)
            (set_is_triggered true (idle_window 200 true))))
    = Done (set_fire_item (Some (width, height))
              (set_fire_timer (Some 5%Z)
                 (set_initial_heat (Some 200)
                    (set_is_triggered true (idle_window 200 true))))) /\
    (4 <= height <= 320)%Z /\ (2 <= width <= 224)%Z.
Proof.
  apply (animate_fire_image_size
           (set_fire_timer (Some 5%Z)
              (set_initial_heat (Some 200)
                 (set_is_triggered true (idle_window 200 true))))
           5%Z 200); try reflexivity.
  - split; unfold Qle; simpl; lia.
  - vm_compute. split; [reflexivity | discriminate].
Defined.

(** X14 at an idle window with the slider at 200 degrees. *)
Lemma start_fire_in_range_witness :
  exists g' n,
    start_fire (idle_window 200 true) = Done g' /\
    (3 <= n <= 15)%Z /\
    g'.(total_fire_time) = Some n /\
    g'.(fire_timer) = Some (n - 1)%Z /\
    g'.(is_triggered) = true.
Proof.
  destruct (start_fire_in_range (idle_window 200 true))
    as (g' & n & Hs & _ & Hn & Htot & Ht & _ & Htrig & _).
  - reflexivity.
  - split; unfold Qle; simpl; lia.
  - exists g', n. repeat (split; [assumption|]). assumption.
Defined.

(** X15 at an idle window with the slider at 200 degrees. *)
Lemma countdown_completes_witness :
  exists g1 g2,
    start_fire (idle_window 200 true) = Done g1 /\
    run_countdown 15 g1 = Done (g2, 9%nat) /\
    g2.(is_triggered) = false /\
    g2.(timer_label) = "Fire extinguished!" /\
    g2.(pending_countdowns) = O.
Proof.
  destruct (countdown_completes (idle_window 200 true) 15)
    as (g1 & g2 & Hs & Hrun & Htrig & _ & _ & _ & Hlabel & _ & _ & Hp & _).
  - reflexivity.
  - reflexivity.
  - split; unfold Qle; simpl; lia.
  - vm_compute. lia.
  - exists g1, g2. repeat (split; [assumption|]). assumption.
Defined.

(** X19 at an idle window with the slider at 200 degrees. *)
Lemma reset_leaves_countdown_queued_witness :
  exists g3,
    run_events (fun _ => "") [ClickStart; ClickReset; ClickStart]
      (Done (idle_window 200 true)) = Done g3 /\
    g3.(pending_countdowns) = 2%nat.
Proof.
  destruct (reset_leaves_countdown_queued (fun _ => "")
              (idle_window 200 true))
    as (g3 & g6 & Hrun & Hp & _).
  - reflexivity.
  - reflexivity.
  - split; unfold Qle; simpl; lia.
  - exists g3. split; assumption.
Defined.

(** * The controller in binary64 *)

(** ** Powers of two *)

Lemma two_neq_0 : ~ 2 == 0.
Proof. discriminate. Qed.

Lemma pow2_pos k : 0 < B64.pow2 k.
Proof. apply Qpower_0_lt. reflexivity. Qed.

Lemma pow2_add a b : B64.pow2 (a + b) == B64.pow2 a * B64.pow2 b.
Proof. apply Qpower_plus, two_neq_0. Qed.

Lemma pow2_le a b : (a <= b)%Z -> B64.pow2 a <= B64.pow2 b.
Proof. intro. apply Qpower_le_compat_l; [assumption | discriminate]. Qed.

Lemma pow2_lt a b : (a < b)%Z -> B64.pow2 a < B64.pow2 b.
Proof. intro. apply Qpower_lt_compat_l; [assumption | reflexivity]. Qed.

Lemma pow2_lt_inv a b : B64.pow2 a < B64.pow2 b -> (a < b)%Z.
Proof.
  intro H. apply (Qpower_lt_compat_l_inv 2); [exact H | reflexivity].
Qed.

Lemma pow2_le_inv a b : B64.pow2 a <= B64.pow2 b -> (a <= b)%Z.
Proof.
  intro H. apply (Qpower_le_compat_l_inv 2); [exact H | reflexivity].
Qed.

Lemma pow2_Z k : (0 <= k)%Z -> B64.pow2 k == inject_Z (2 ^ k).
Proof.
  intro H. unfold B64.pow2. rewrite (Zpower_Qpower 2 k H). reflexivity.
Qed.

Lemma pow2_split a b : B64.pow2 a == B64.pow2 (a - b) * B64.pow2 b.
Proof.
  rewrite <- pow2_add. replace (a - b + b)%Z with a by lia. reflexivity.
Qed.

(** *** Binary logarithm *)

(** [ilog2] is the binary logarithm, rounded down. *)
Lemma ilog2_spec x :
  0 < x -> B64.pow2 (B64.ilog2 x) <= x < B64.pow2 (B64.ilog2 x + 1).
Proof.
  intro Hx. unfold B64.ilog2. destruct x as [a b]. cbn [Qnum Qden].
  assert (Ha : (0 < a)%Z) by (unfold Qlt in Hx; cbn in Hx; lia).
  set (la := Z.log2 a). set (lb := Z.log2 (Zpos b)).
  destruct (Z.log2_spec a Ha) as [A1 A2]. fold la in A1, A2.
  destruct (Z.log2_spec (Zpos b) ltac:(lia)) as [B1 B2]. fold lb in B1, B2.
  assert (Hla : (0 <= la)%Z) by apply Z.log2_nonneg.
  assert (Hlb : (0 <= lb)%Z) by apply Z.log2_nonneg.
  set (A := inject_Z a). set (B := inject_Z (Zpos b)).
  assert (HA1 : B64.pow2 la <= A).
  { rewrite (pow2_Z la Hla). unfold A. rewrite <- Zle_Qle. exact A1. }
  assert (HA2 : A < B64.pow2 (la + 1)).
  { rewrite (pow2_Z (la + 1)) by lia. unfold A. rewrite <- Zlt_Qlt.
    replace (la + 1)%Z with (Z.succ la) by lia. exact A2. }
  assert (HB1 : B64.pow2 lb <= B).
  { rewrite (pow2_Z lb Hlb). unfold B. rewrite <- Zle_Qle. exact B1. }
  assert (HB2 : B < B64.pow2 (lb + 1)).
  { rewrite (pow2_Z (lb + 1)) by lia. unfold B. rewrite <- Zlt_Qlt.
    replace (lb + 1)%Z with (Z.succ lb) by lia. exact B2. }
  assert (HB0 : 0 < B) by (unfold B, Qlt; cbn; lia).
  assert (Hx' : a # b == A / B) by apply Qmake_Qdiv.
  set (k0 := (la - lb)%Z).
  assert (U : a # b < B64.pow2 (k0 + 1)).
  { rewrite Hx'. apply Qlt_shift_div_r; [exact HB0|].
    apply Qlt_le_trans with (B64.pow2 (la + 1)); [exact HA2|].
    rewrite (pow2_split (la + 1) lb).
    replace (la + 1 - lb)%Z with (k0 + 1)%Z by (unfold k0; lia).
    apply Qmult_le_l; [apply pow2_pos | exact HB1]. }
  assert (L : B64.pow2 (k0 - 1) < a # b).
  { rewrite Hx'. apply Qlt_shift_div_l; [exact HB0|].
    apply Qlt_le_trans with (B64.pow2 la); [|exact HA1].
    rewrite (pow2_split la (lb + 1)).
    replace (la - (lb + 1))%Z with (k0 - 1)%Z by (unfold k0; lia).
    apply Qmult_lt_l; [apply pow2_pos | exact HB2]. }
  destruct (Qle_bool (B64.pow2 k0) (a # b)) eqn:E.
  - apply Qle_bool_iff in E. split; assumption.
  - assert (E' : a # b < B64.pow2 k0).
    { apply Qnot_le_lt. intro H. apply Qle_bool_iff in H. congruence. }
    split; [apply Qlt_le_weak; exact L|].
    replace (k0 - 1 + 1)%Z with k0 by lia. exact E'.
Qed.

Lemma ilog2_unique x k :
  0 < x -> B64.pow2 k <= x < B64.pow2 (k + 1) -> B64.ilog2 x = k.
Proof.
  intros Hx [H1 H2]. destruct (ilog2_spec x Hx) as [S1 S2].
  assert (B64.pow2 k < B64.pow2 (B64.ilog2 x + 1)) by lra.
  assert (B64.pow2 (B64.ilog2 x) < B64.pow2 (k + 1)) by lra.
  apply pow2_lt_inv in H, H0. lia.
Qed.

Lemma ilog2_mono x y : 0 < x -> x <= y -> (B64.ilog2 x <= B64.ilog2 y)%Z.
Proof.
  intros Hx Hxy. assert (Hy : 0 < y) by lra.
  destruct (ilog2_spec x Hx) as [S1 _]. destruct (ilog2_spec y Hy) as [_ S2].
  assert (B64.pow2 (B64.ilog2 x) < B64.pow2 (B64.ilog2 y + 1)) by lra.
  apply pow2_lt_inv in H. lia.
Qed.

(** *** Exponent of the last bit *)

Lemma exponent_ge x : (B64.emin <= B64.exponent x)%Z.
Proof. unfold B64.exponent. lia. Qed.

Lemma exponent_upper x : 0 < x -> x < B64.pow2 (B64.exponent x + 53).
Proof.
  intro Hx. destruct (ilog2_spec x Hx) as [_ S2].
  apply Qlt_le_trans with (B64.pow2 (B64.ilog2 x + 1)); [exact S2|].
  apply pow2_le. unfold B64.exponent. lia.
Qed.

Lemma exponent_lower x :
  0 < x -> (B64.emin < B64.exponent x)%Z ->
  B64.pow2 (B64.exponent x + 52) <= x.
Proof.
  intros Hx He. destruct (ilog2_spec x Hx) as [S1 _].
  replace (B64.exponent x + 52)%Z with (B64.ilog2 x)
    by (unfold B64.exponent in *; lia).
  exact S1.
Qed.

Lemma exponent_mono x y :
  0 < x -> x <= y -> (B64.exponent x <= B64.exponent y)%Z.
Proof.
  intros Hx Hxy. pose proof (ilog2_mono x y Hx Hxy). unfold B64.exponent. lia.
Qed.

(** *** Nearest integer *)

Lemma rne_bounds x : (Qfloor x <= B64.rne x <= Qfloor x + 1)%Z.
Proof.
  unfold B64.rne. destruct (Qcompare (x - inject_Z (Qfloor x)) (1 # 2));
    try destruct (Z.even (Qfloor x)); lia.
Qed.

Lemma rne_Z n : B64.rne (inject_Z n) = n.
Proof.
  unfold B64.rne. rewrite Qfloor_Z.
  destruct (Qcompare_spec (inject_Z n - inject_Z n) (1 # 2));
    [exfalso; lra | reflexivity | exfalso; lra].
Qed.

Lemma rne_comp x y : x == y -> B64.rne x = B64.rne y.
Proof.
  intro H. unfold B64.rne. rewrite (Qfloor_comp x y H).
  assert (E : Qcompare (x - inject_Z (Qfloor y)) (1 # 2)
              = Qcompare (y - inject_Z (Qfloor y)) (1 # 2)).
  { apply Qcompare_comp; [rewrite H; reflexivity | reflexivity]. }
  rewrite E. reflexivity.
Qed.

(** The nearest integer is monotone. *)
Lemma rne_mono x y : x <= y -> (B64.rne x <= B64.rne y)%Z.
Proof.
  intro H.
  pose proof (Qfloor_resp_le x y H) as Hf.
  destruct (Z.eq_dec (Qfloor x) (Qfloor y)) as [E | N].
  - unfold B64.rne. rewrite E.
    destruct (Qcompare_spec (x - inject_Z (Qfloor y)) (1 # 2));
      destruct (Qcompare_spec (y - inject_Z (Qfloor y)) (1 # 2));
      try destruct (Z.even (Qfloor y)); try lia; exfalso; lra.
  - pose proof (rne_bounds x). pose proof (rne_bounds y). lia.
Qed.

Lemma rne_le_Z x n : x <= inject_Z n -> (B64.rne x <= n)%Z.
Proof. intro H. rewrite <- (rne_Z n). apply rne_mono, H. Qed.

Lemma rne_ge_Z x n : inject_Z n <= x -> (n <= B64.rne x)%Z.
Proof. intro H. rewrite <- (rne_Z n). apply rne_mono, H. Qed.

(** *** Rounding a positive number *)

Lemma div_pow2_nonneg x e : 0 <= x -> 0 <= x / B64.pow2 e.
Proof.
  intro H. apply Qle_shift_div_l; [apply pow2_pos | lra].
Qed.

Lemma round_pos_nonneg x : 0 <= x -> 0 <= B64.round_pos x.
Proof.
  intro Hx. unfold B64.round_pos.
  assert (H : (0 <= B64.rne (x / B64.pow2 (B64.exponent x)))%Z).
  { apply rne_ge_Z. apply div_pow2_nonneg, Hx. }
  rewrite Zle_Qle in H. pose proof (pow2_pos (B64.exponent x)).
  apply Qmult_le_0_compat; [exact H | lra].
Qed.

Lemma mul_div_comm (a c : Q) : ~ c == 0 -> a / c * c == a.
Proof. intro H. field. exact H. Qed.

Lemma mul_div_pow2 x e : x / B64.pow2 e * B64.pow2 e == x.
Proof.
  field. intro H. pose proof (pow2_pos e). lra.
Qed.

(** Rounding is monotone, within a binade and across binades. *)
Lemma round_pos_mono x y :
  0 < x -> x <= y -> B64.round_pos x <= B64.round_pos y.
Proof.
  intros Hx Hxy. assert (Hy : 0 < y) by lra.
  pose proof (exponent_mono x y Hx Hxy) as He.
  unfold B64.round_pos.
  set (ex := B64.exponent x) in *. set (ey := B64.exponent y) in *.
  pose proof (pow2_pos ex) as Pex. pose proof (pow2_pos ey) as Pey.
  destruct (Z.eq_dec ex ey) as [E | N].
  - rewrite <- E.
    apply Qmult_le_compat_r; [|lra].
    rewrite <- Zle_Qle. apply rne_mono.
    apply Qle_shift_div_l; [exact Pex|]. rewrite mul_div_pow2. exact Hxy.
  - assert (Lt : (ex < ey)%Z) by lia.
    assert (Hey : (B64.emin < ey)%Z)
      by (pose proof (exponent_ge x); fold ex in H; lia).
    apply Qle_trans with (B64.pow2 (ey + 52)).
    + (* the rounding of x is at most 2^(ey+52) *)
      assert (Hxb : x < B64.pow2 (ey + 52)).
      { apply Qnot_le_lt. intro Hge.
        destruct (ilog2_spec x Hx) as [_ S2].
        assert (B64.pow2 (ey + 52) < B64.pow2 (B64.ilog2 x + 1)) by lra.
        apply pow2_lt_inv in H.
        unfold ex, B64.exponent in Lt. fold ey in Lt. lia. }
      assert (Hn : (B64.rne (x / B64.pow2 ex) <= 2 ^ (ey + 52 - ex))%Z).
      { apply rne_le_Z. rewrite <- pow2_Z by lia.
        apply Qle_shift_div_r; [exact Pex|].
        rewrite <- pow2_split. lra. }
      rewrite Zle_Qle in Hn. rewrite <- pow2_Z in Hn by lia.
      rewrite (pow2_split (ey + 52) ex).
      apply Qmult_le_compat_r; [exact Hn | lra].
    + pose proof (exponent_lower y Hy Hey) as Hyb. fold ey in Hyb.
      assert (Hn : (2 ^ 52 <= B64.rne (y / B64.pow2 ey))%Z).
      { apply rne_ge_Z. rewrite <- pow2_Z by lia.
        apply Qle_shift_div_l; [exact Pey|].
        rewrite <- pow2_add. replace (52 + ey)%Z with (ey + 52)%Z by lia.
        exact Hyb. }
      rewrite Zle_Qle in Hn. rewrite <- pow2_Z in Hn by lia.
      replace (ey + 52)%Z with (52 + ey)%Z by lia. rewrite pow2_add.
      apply Qmult_le_compat_r; [exact Hn | lra].
Qed.

(** A positive multiple of a power of two with at most 53 bits, at or above
    the least exponent, is left unchanged. *)
Lemma round_pos_grid y n e :
  0 < y -> y == inject_Z n * B64.pow2 e -> (B64.emin <= e)%Z ->
  (n <= 2 ^ 53)%Z ->
  B64.round_pos y == y.
Proof.
  intros Hy Hyn He Hn. unfold B64.round_pos.
  set (e' := B64.exponent y).
  pose proof (pow2_pos e) as Pe. pose proof (pow2_pos e') as Pe'.
  assert (Hint : exists m, y / B64.pow2 e' == inject_Z m).
  { destruct (Z_le_gt_dec e' e) as [Le | Gt].
    - exists (n * 2 ^ (e - e'))%Z.
      rewrite inject_Z_mult, <- pow2_Z by lia.
      rewrite Hyn, (pow2_split e e'). field. lra.
    - assert (He' : (B64.emin < e')%Z) by lia.
      pose proof (exponent_lower y Hy He') as Hlow. fold e' in Hlow.
      assert (Hup : y <= B64.pow2 (e + 53)).
      { rewrite Hyn. replace (e + 53)%Z with (53 + e)%Z by lia.
        rewrite pow2_add. apply Qmult_le_compat_r; [|lra].
        rewrite pow2_Z by lia. rewrite <- Zle_Qle. exact Hn. }
      assert (B64.pow2 (e' + 52) <= B64.pow2 (e + 53)) by lra.
      apply pow2_le_inv in H.
      assert (Ee : e' = (e + 1)%Z) by lia.
      exists (2 ^ 52)%Z. rewrite <- pow2_Z by lia.
      assert (Hy' : y == B64.pow2 (e + 53)).
      { apply Qle_antisym; [exact Hup|].
        replace (e + 53)%Z with (e' + 52)%Z by lia. exact Hlow. }
      rewrite Hy'. replace (e + 53)%Z with (52 + e')%Z by lia.
      rewrite pow2_add. field. lra. }
  destruct Hint as [m Hm].
  rewrite (rne_comp _ _ Hm), rne_Z, <- Hm. apply mul_div_pow2.
Qed.

Lemma round_pos_is_grid x :
  0 < x ->
  exists n, B64.round_pos x == inject_Z n * B64.pow2 (B64.exponent x) /\
            (0 <= n <= 2 ^ 53)%Z.
Proof.
  intro Hx. exists (B64.rne (x / B64.pow2 (B64.exponent x))).
  split; [reflexivity|].
  pose proof (pow2_pos (B64.exponent x)) as Pe. split.
  - apply rne_ge_Z. apply div_pow2_nonneg. lra.
  - apply rne_le_Z. rewrite <- pow2_Z by lia.
    apply Qle_shift_div_r; [exact Pe|].
    rewrite <- pow2_add.
    replace (53 + B64.exponent x)%Z with (B64.exponent x + 53)%Z by lia.
    apply Qlt_le_weak, exponent_upper, Hx.
Qed.

(** *** Rounding *)

(** Rounding sees a number, not the fraction that writes it. *)
Lemma round_comp x y : x == y -> B64.round x = B64.round y.
Proof.
  intro H. unfold B64.round. rewrite (Qred_complete x y H). reflexivity.
Qed.

Lemma round_0 : B64.round 0 = 0.
Proof. reflexivity. Qed.

Lemma round_cases x :
  (x == 0 /\ B64.round x = 0) \/
  (0 < x /\ B64.round x = B64.round_pos (Qred x)) \/
  (x < 0 /\ B64.round x = - B64.round_pos (- Qred x)).
Proof.
  unfold B64.round. pose proof (Qred_correct x) as Hr.
  destruct (Qcompare_spec (Qred x) 0) as [E | L | G].
  - left. split; [rewrite <- Hr; exact E | reflexivity].
  - right; right. split; [rewrite <- Hr; exact L | reflexivity].
  - right; left. split; [rewrite <- Hr; exact G | reflexivity].
Qed.

Lemma round_nonneg x : 0 <= x -> 0 <= B64.round x.
Proof.
  intro Hx. pose proof (Qred_correct x) as Hr.
  destruct (round_cases x) as [[_ ->] | [[H ->] | [H _]]]; [lra | | lra].
  apply round_pos_nonneg. lra.
Qed.

Lemma round_nonpos x : x <= 0 -> B64.round x <= 0.
Proof.
  intro Hx. pose proof (Qred_correct x) as Hr.
  destruct (round_cases x) as [[_ ->] | [[H _] | [H ->]]]; [lra | lra |].
  assert (0 <= B64.round_pos (- Qred x)) by (apply round_pos_nonneg; lra).
  lra.
Qed.

(** Rounding is monotone. *)
Lemma round_mono x y : x <= y -> B64.round x <= B64.round y.
Proof.
  intro Hxy.
  pose proof (Qred_correct x) as Hrx. pose proof (Qred_correct y) as Hry.
  destruct (Qlt_le_dec 0 x) as [Px | Nx].
  - destruct (round_cases x) as [[H _] | [[_ ->] | [H _]]]; [lra | | lra].
    destruct (round_cases y) as [[H _] | [[_ ->] | [H _]]]; [lra | | lra].
    apply round_pos_mono; lra.
  - destruct (Qlt_le_dec y 0) as [Ny | Py].
    + destruct (round_cases x) as [[H _] | [[H _] | [_ ->]]]; [lra | lra |].
      destruct (round_cases y) as [[H _] | [[H _] | [_ ->]]]; [lra | lra |].
      assert (B64.round_pos (- Qred y) <= B64.round_pos (- Qred x))
        by (apply round_pos_mono; lra).
      lra.
    + pose proof (round_nonpos x Nx). pose proof (round_nonneg y Py). lra.
Qed.

(** A value on the grid is left unchanged. *)
Lemma round_grid y n e :
  y == inject_Z n * B64.pow2 e -> (B64.emin <= e)%Z ->
  (Z.abs n <= 2 ^ 53)%Z ->
  B64.round y == y.
Proof.
  intros Hy He Hn. pose proof (Qred_correct y) as Hr.
  pose proof (pow2_pos e) as Pe.
  destruct (round_cases y) as [[H ->] | [[H ->] | [H ->]]].
  - rewrite H. reflexivity.
  - rewrite <- Hr at 2.
    apply (round_pos_grid (Qred y) n e); [lra | lra | exact He | lia].
  - assert (G : B64.round_pos (- Qred y) == - Qred y).
    { apply (round_pos_grid (- Qred y) (- n) e); [lra | | exact He | lia].
      rewrite Hr, Hy, inject_Z_opp. ring. }
    rewrite G, Hr. ring.
Qed.

(** A rounded number is a binary64 number. *)
Lemma round_idem x : B64.round (B64.round x) == B64.round x.
Proof.
  pose proof (Qred_correct x) as Hr.
  destruct (round_cases x) as [[H ->] | [[H ->] | [H ->]]].
  - reflexivity.
  - destruct (round_pos_is_grid (Qred x)) as (n & Hn & Hb); [lra|].
    apply (round_grid _ n (B64.exponent (Qred x)));
      [exact Hn | apply exponent_ge | lia].
  - destruct (round_pos_is_grid (- Qred x)) as (n & Hn & Hb); [lra|].
    apply (round_grid _ (- n) (B64.exponent (- Qred x)));
      [rewrite Hn, inject_Z_opp; ring | apply exponent_ge | lia].
Qed.

(** An integer of at most 53 bits is a binary64 number. *)
Lemma round_Z n :
  (Z.abs n <= 2 ^ 53)%Z -> B64.round (inject_Z n) == inject_Z n.
Proof.
  intro H. apply (round_grid _ n 0); [|unfold B64.emin; lia | exact H].
  unfold B64.pow2. cbn. ring.
Qed.

(** ** Size of a rounding error *)

(** The nearest integer is at most 1/2 away. *)
Lemma rne_error (y : Q) :
  y - (1 # 2) <= inject_Z (B64.rne y) <= y + (1 # 2).
Proof.
  unfold B64.rne.
  pose proof (Qfloor_le y) as Hlo. pose proof (Qlt_floor y) as Hhi.
  rewrite inject_Z_plus in Hhi. change (inject_Z 1) with 1 in Hhi.
  destruct (Qcompare_spec (y - inject_Z (Qfloor y)) (1 # 2)) as [E | L | G].
  - destruct (Z.even (Qfloor y)).
    + split; lra.
    + rewrite inject_Z_plus. change (inject_Z 1) with 1. split; lra.
  - split; lra.
  - rewrite inject_Z_plus. change (inject_Z 1) with 1. split; lra.
Qed.

Lemma unit_roundoff_value : B64.unit_roundoff == 1 # 9007199254740992.
Proof. reflexivity. Qed.

Lemma eta_small :
  0 < B64.eta /\ B64.eta <= 1 # 1000000000000000000000000000000.
Proof.
  split; [apply pow2_pos|].
  apply Qle_trans with (B64.pow2 (-100)).
  - apply pow2_le. lia.
  - vm_compute. discriminate.
Qed.

Lemma round_pos_error (x : Q) :
  0 < x ->
  (1 - B64.unit_roundoff) * x - B64.eta <= B64.round_pos x
    <= (1 + B64.unit_roundoff) * x + B64.eta.
Proof.
  intro Hx. unfold B64.round_pos.
  set (e := B64.exponent x).
  pose proof (pow2_pos e) as Pe.
  pose proof (rne_error (x / B64.pow2 e)) as [Rlo Rhi].
  set (n := inject_Z (B64.rne (x / B64.pow2 e))) in *.
  assert (Hx' : x == x / B64.pow2 e * B64.pow2 e)
    by (symmetry; apply mul_div_pow2).
  set (y := x / B64.pow2 e) in *.
  assert (Hhalf : (1 # 2) * B64.pow2 e <= B64.unit_roundoff * x + B64.eta).
  { pose proof (pow2_pos (-53)) as Pu. pose proof (pow2_pos (-1075)) as Pn.
    fold B64.unit_roundoff in Pu. fold B64.eta in Pn.
    destruct (Z.eq_dec e B64.emin) as [E | N].
    - assert (Hh : (1 # 2) * B64.pow2 e == B64.eta).
      { rewrite E. reflexivity. }
      rewrite Hh. nra.
    - assert (Hlow : B64.pow2 (e + 52) <= x).
      { apply exponent_lower; [exact Hx|].
        pose proof (exponent_ge x). fold e in H. fold e. lia. }
      assert (Hh : (1 # 2) * B64.pow2 e
                   == B64.unit_roundoff * B64.pow2 (e + 52)).
      { unfold B64.unit_roundoff. rewrite <- pow2_add.
        replace (-53 + (e + 52))%Z with (-1 + e)%Z by lia.
        rewrite pow2_add. reflexivity. }
      rewrite Hh. nra. }
  split; nra.
Qed.

(** Rounding moves a nonnegative number by at most one part in 2^53, or by
    [eta] near zero. *)
Lemma round_error (x : Q) :
  0 <= x ->
  (1 - B64.unit_roundoff) * x - B64.eta <= B64.round x
    <= (1 + B64.unit_roundoff) * x + B64.eta.
Proof.
  intro Hx. pose proof (Qred_correct x) as Hr.
  pose proof eta_small as [He _].
  destruct (round_cases x) as [[H ->] | [[H ->] | [H _]]]; [| |lra].
  - rewrite H. lra.
  - destruct (round_pos_error (Qred x)) as [A B]; [lra|].
    setoid_replace ((1 - B64.unit_roundoff) * Qred x)
      with ((1 - B64.unit_roundoff) * x) in A by (rewrite Hr; reflexivity).
    setoid_replace ((1 + B64.unit_roundoff) * Qred x)
      with ((1 + B64.unit_roundoff) * x) in B by (rewrite Hr; reflexivity).
    split; assumption.
Qed.

(** ** The binary64 numbers next to a given one *)

Lemma ilog2_comp (x y : Q) : 0 < x -> x == y -> B64.ilog2 x = B64.ilog2 y.
Proof.
  intros Hx E. apply ilog2_unique; [exact Hx|].
  rewrite E. apply ilog2_spec. rewrite <- E. exact Hx.
Qed.

Lemma round_pos_comp (x y : Q) :
  0 < x -> x == y -> B64.round_pos x == B64.round_pos y.
Proof.
  intros Hx E. unfold B64.round_pos, B64.exponent.
  rewrite (ilog2_comp x y Hx E).
  set (e := Z.max (B64.ilog2 y - 52) B64.emin).
  rewrite (rne_comp (x / B64.pow2 e) (y / B64.pow2 e))
    by (rewrite E; reflexivity).
  reflexivity.
Qed.

(** Rounding is symmetric. *)
Lemma round_opp (x : Q) : B64.round (- x) == - B64.round x.
Proof.
  pose proof (Qred_correct x) as Hr. pose proof (Qred_correct (- x)) as Hr'.
  destruct (round_cases x) as [[H ->] | [[H ->] | [H ->]]];
    destruct (round_cases (- x)) as [[H' ->] | [[H' ->] | [H' ->]]];
    try lra.
  - rewrite (round_pos_comp (- Qred (- x)) (Qred x));
      [reflexivity | lra | lra].
  - rewrite (round_pos_comp (Qred (- x)) (- Qred x)); [ring | lra | lra].
Qed.

Lemma representable_opp (x : Q) :
  B64.representable x -> B64.representable (- x).
Proof.
  unfold B64.representable. intro H. rewrite round_opp, H. reflexivity.
Qed.

(** A binary64 number at or above [2^(e+52)] is a multiple of [2^e]. *)
Lemma representable_multiple (x : Q) (e : Z) :
  B64.representable x -> (B64.emin <= e)%Z -> B64.pow2 (e + 52) <= x ->
  exists m, x == inject_Z m * B64.pow2 e.
Proof.
  intros Hx He Hlow. unfold B64.representable in Hx.
  pose proof (pow2_pos (e + 52)) as Pe.
  pose proof (Qred_correct x) as Hr.
  destruct (round_cases x) as [[H _] | [[H E] | [H _]]]; [lra | | lra].
  rewrite E in Hx.
  destruct (round_pos_is_grid (Qred x)) as (k & Hk & _); [lra|].
  set (e' := B64.exponent (Qred x)) in *.
  assert (Hee : (e <= e')%Z).
  { destruct (ilog2_spec (Qred x)) as [_ S2]; [lra|].
    assert (B64.pow2 (e + 52) < B64.pow2 (B64.ilog2 (Qred x) + 1)) by lra.
    apply pow2_lt_inv in H0. unfold e', B64.exponent. lia. }
  exists (k * 2 ^ (e' - e))%Z.
  rewrite inject_Z_mult, <- pow2_Z by lia.
  rewrite <- Hx, Hk, (pow2_split e' e). ring.
Qed.

(** Above [n * 2^e], with [n] of 53 bits, the next binary64 number is
    [(n + 1) * 2^e]. *)
Lemma representable_succ (x : Q) (n e : Z) :
  B64.representable x -> (B64.emin <= e)%Z -> (2 ^ 52 <= n)%Z ->
  inject_Z n * B64.pow2 e < x -> inject_Z (n + 1) * B64.pow2 e <= x.
Proof.
  intros Hx He Hn Hlt.
  pose proof (pow2_pos e) as Pe.
  assert (Hlow : B64.pow2 (e + 52) <= x).
  { replace (e + 52)%Z with (52 + e)%Z by lia. rewrite pow2_add.
    rewrite (pow2_Z 52) by lia.
    apply Qle_trans with (inject_Z n * B64.pow2 e); [|lra].
    apply Qmult_le_compat_r; [|lra]. rewrite <- Zle_Qle. exact Hn. }
  destruct (representable_multiple x e Hx He Hlow) as [m Hm].
  rewrite Hm in Hlt |- *.
  apply Qmult_lt_r in Hlt; [|exact Pe].
  apply Qmult_le_compat_r; [|lra].
  rewrite <- Zlt_Qlt in Hlt. rewrite <- Zle_Qle. lia.
Qed.

(** Below [n * 2^e] the previous binary64 number is [(n - 1) * 2^e]. *)
Lemma representable_pred (x : Q) (n e : Z) :
  B64.representable x -> (B64.emin <= e)%Z -> (2 ^ 52 < n)%Z ->
  x < inject_Z n * B64.pow2 e -> x <= inject_Z (n - 1) * B64.pow2 e.
Proof.
  intros Hx He Hn Hlt.
  pose proof (pow2_pos e) as Pe.
  destruct (Qlt_le_dec (inject_Z (n - 1) * B64.pow2 e) x) as [L | L];
    [exfalso | exact L].
  assert (Hs : inject_Z (n - 1 + 1) * B64.pow2 e <= x).
  { apply representable_succ; [exact Hx | exact He | lia | exact L]. }
  replace (n - 1 + 1)%Z with n in Hs by lia. lra.
Qed.

(** Quotients of a rounded number by a positive literal, from the bound of
    the number. *)
Lemma quo_le (x b c f : Q) :
  x <= b -> 0 < c -> B64.round (B64.round b / c) <= f ->
  B64.quo (B64.round x) c <= f.
Proof.
  intros Hx Hc Hf. unfold B64.quo.
  apply Qle_trans with (B64.round (B64.round b / c)); [|exact Hf].
  apply round_mono. apply Qle_shift_div_l; [exact Hc|].
  rewrite (mul_div_comm (B64.round x) c) by lra. apply round_mono, Hx.
Qed.

Lemma quo_gt (x b c f : Q) :
  b <= x -> 0 < c -> f < B64.round (B64.round b / c) ->
  f < B64.quo (B64.round x) c.
Proof.
  intros Hx Hc Hf. unfold B64.quo.
  apply Qlt_le_trans with (B64.round (B64.round b / c)); [exact Hf|].
  apply round_mono. apply Qle_shift_div_l; [exact Hc|].
  rewrite (mul_div_comm (B64.round b) c) by lra. apply round_mono, Hx.
Qed.

Lemma max_le (a b c : Q) : a <= c -> b <= c -> max a b <= c.
Proof. intros. destruct (max_spec a b) as [[_ ->] | [_ ->]]; assumption. Qed.

(** ** Binary64 numbers and the operations on them *)

Lemma round_1 : B64.round 1 == 1.
Proof. apply (round_Z 1). cbn. lia. Qed.

Lemma representable_round (x : Q) : B64.representable (B64.round x).
Proof. apply round_idem. Qed.

Lemma representable_0 : B64.representable 0.
Proof. unfold B64.representable. rewrite round_0. reflexivity. Qed.

Lemma representable_1 : B64.representable 1.
Proof. exact round_1. Qed.

Lemma representable_max (a b : Q) :
  B64.representable a -> B64.representable b -> B64.representable (max a b).
Proof. intros. destruct (max_spec a b) as [[_ ->] | [_ ->]]; assumption. Qed.

Lemma representable_min (a b : Q) :
  B64.representable a -> B64.representable b -> B64.representable (min a b).
Proof. intros. destruct (min_spec a b) as [[_ ->] | [_ ->]]; assumption. Qed.

Lemma max_nonneg_l (a b : Q) : 0 <= a -> 0 <= max a b.
Proof.
  intro H. destruct (max_spec a b) as [[L ->] | [_ ->]]; [lra | exact H].
Qed.

Lemma min_le_l (a b : Q) : min a b <= a.
Proof. destruct (min_spec a b) as [[L ->] | [_ ->]]; lra. Qed.

Lemma sub_nonneg (a b : Q) : b <= a -> 0 <= B64.sub a b.
Proof. intro H. apply round_nonneg. lra. Qed.

Lemma quo_nonneg (a b : Q) : 0 <= a -> 0 < b -> 0 <= B64.quo a b.
Proof.
  intros Ha Hb. apply round_nonneg. apply Qle_shift_div_l; [exact Hb | lra].
Qed.

(** A product by a factor in [0,1] does not exceed the other factor, also
    after rounding. *)
Lemma mul_le_l (s o : Q) :
  B64.representable s -> 0 <= s -> 0 <= o <= 1 -> 0 <= B64.mul s o <= s.
Proof.
  intros Hs Hs0 [Ho0 Ho1]. unfold B64.representable in Hs.
  unfold B64.mul. split.
  - apply round_nonneg. apply Qmult_le_0_compat; assumption.
  - rewrite <- Hs at 2. apply round_mono. nra.
Qed.

Lemma lit_unit (o : Q) : 0 <= o <= 1 -> 0 <= B64.lit o <= 1.
Proof.
  intros [H0 H1]. unfold B64.lit. split.
  - apply round_nonneg, H0.
  - rewrite <- round_1. apply round_mono, H1.
Qed.

(** ** The membership dictionaries in binary64, key by key *)

Lemma b64_get_heat_membership_items (temp : Q) :
  B64.get_heat_membership temp =
  [("low", B64.heat_low temp); ("medium", B64.heat_medium temp);
   ("high", B64.heat_high temp); ("critical", B64.heat_critical temp)].
Proof.
  unfold B64.get_heat_membership, B64.heat_low, B64.heat_medium,
    B64.heat_high, B64.heat_critical.
  destruct (le temp 120), (le 100 temp), (le temp 180), (le temp 140),
    (le 150 temp), (le temp 220), (le temp 185), (le 200 temp); reflexivity.
Qed.

Lemma b64_get_duration_membership_items (d : Q) :
  B64.get_duration_membership d =
  [("short", B64.duration_short d); ("medium", B64.duration_medium d);
   ("long", B64.duration_long d)].
Proof.
  unfold B64.get_duration_membership, B64.duration_short,
    B64.duration_medium, B64.duration_long.
  destruct (le d 15), (le 10 d), (le d 35), (le d (B64.lit 22.5)), (le 25 d);
    reflexivity.
Qed.

Lemma lit_22_5 : B64.lit 22.5 == 22.5.
Proof. vm_compute. reflexivity. Qed.

Lemma lit_12_5 : B64.lit 12.5 == 12.5.
Proof. vm_compute. reflexivity. Qed.

Lemma lit_12_5_pos : 0 < B64.lit 12.5.
Proof. rewrite lit_12_5. reflexivity. Qed.

Lemma degree_0 : B64.degree 0.
Proof. split; [lra | exact representable_0]. Qed.

Lemma degree_quo (a b : Q) : 0 <= a -> 0 < b -> B64.degree (B64.quo a b).
Proof.
  intros. split; [apply quo_nonneg; assumption | apply representable_round].
Qed.

Lemma degree_max_0 (x : Q) : B64.representable x -> B64.degree (max 0 x).
Proof.
  intro H. split; [apply max_nonneg_l; lra|].
  apply representable_max; [exact representable_0 | exact H].
Qed.

Lemma degree_min_1 (x : Q) : B64.degree x -> B64.degree (min 1 x).
Proof.
  intros [H0 Hr]. split; [apply min_nonneg; [lra | exact H0]|].
  apply representable_min; [exact representable_1 | exact Hr].
Qed.

Lemma b64_heat_degrees (t : Q) :
  B64.degree (B64.heat_low t) /\ B64.degree (B64.heat_medium t) /\
  B64.degree (B64.heat_high t) /\ B64.degree (B64.heat_critical t).
Proof.
  unfold B64.heat_low, B64.heat_medium, B64.heat_high, B64.heat_critical.
  repeat split.
  - case_le t 120; [apply max_nonneg_l; lra | lra].
  - case_le t 120; [|exact representable_0].
    apply representable_max;
      [exact representable_0 | apply representable_round].
  - case_le 100 t; case_le t 180; cbn [andb]; try lra.
    case_le t 140; apply quo_nonneg; try reflexivity; apply sub_nonneg; lra.
  - case_le 100 t; case_le t 180; cbn [andb]; try exact representable_0.
    case_le t 140; apply representable_round.
  - case_le 150 t; case_le t 220; cbn [andb]; try lra.
    case_le t 185; apply quo_nonneg; try reflexivity; apply sub_nonneg; lra.
  - case_le 150 t; case_le t 220; cbn [andb]; try exact representable_0.
    case_le t 185; apply representable_round.
  - case_le 200 t; [|lra].
    apply min_nonneg; [lra|].
    apply quo_nonneg; [apply sub_nonneg; lra | reflexivity].
  - case_le 200 t; [|exact representable_0].
    apply representable_min;
      [exact representable_1 | apply representable_round].
Qed.

Lemma b64_duration_degrees (d : Q) :
  B64.degree (B64.duration_short d) /\ B64.degree (B64.duration_medium d) /\
  B64.degree (B64.duration_long d).
Proof.
  unfold B64.duration_short, B64.duration_medium, B64.duration_long.
  repeat split.
  - case_le d 15; [apply max_nonneg_l; lra | lra].
  - case_le d 15; [|exact representable_0].
    apply representable_max;
      [exact representable_0 | apply representable_round].
  - case_le 10 d; case_le d 35; cbn [andb]; try lra.
    case_le d (B64.lit 22.5); apply quo_nonneg; try exact lit_12_5_pos;
      apply sub_nonneg; lra.
  - case_le 10 d; case_le d 35; cbn [andb]; try exact representable_0.
    case_le d (B64.lit 22.5); apply representable_round.
  - case_le 25 d; [|lra].
    apply min_nonneg; [lra|].
    apply quo_nonneg; [apply sub_nonneg; lra | reflexivity].
  - case_le 25 d; [|exact representable_0].
    apply representable_min;
      [exact representable_1 | apply representable_round].
Qed.

(** ** The rule loop in binary64 *)

(** Rounding sees a number, not the fraction that writes it. *)
Lemma mul_min (h d o : Q) :
  B64.mul (min h d) o = B64.mul (strength_spec h d) o.
Proof.
  unfold B64.mul, strength_spec. apply round_comp.
  rewrite min_Qmin. reflexivity.
Qed.

Lemma add_min (a h d : Q) :
  B64.add a (min h d) = B64.add a (strength_spec h d).
Proof.
  unfold B64.add, strength_spec. apply round_comp.
  rewrite min_Qmin. reflexivity.
Qed.

Section RoundedDefuzzifier.

Variables hmap dmap : dict.
Variables hl hm hh hc ds dm dl : Q.

Hypothesis hmap_low : getitem hmap "low" = Return hl.
Hypothesis hmap_medium : getitem hmap "medium" = Return hm.
Hypothesis hmap_high : getitem hmap "high" = Return hh.
Hypothesis hmap_critical : getitem hmap "critical" = Return hc.
Hypothesis dmap_short : getitem dmap "short" = Return ds.
Hypothesis dmap_medium : getitem dmap "medium" = Return dm.
Hypothesis dmap_long : getitem dmap "long" = Return dl.

(** The loop over [rules] returns the two rounded sums of the
    specification. *)
Lemma b64_accumulate_rules :
  B64.accumulate hmap dmap rules (0, 0) =
  Return (B64.numerator_spec hl hm hh hc ds dm dl,
          B64.denominator_spec hl hm hh hc ds dm dl).
Proof.
  unfold rules. cbn [B64.accumulate]. unfold B64.apply_rule.
  cbn [heat duration output].
  rewrite hmap_low, hmap_medium, hmap_high, hmap_critical.
  rewrite dmap_short, dmap_medium, dmap_long.
  cbn [bind fst snd].
  rewrite !mul_min, !add_min.
  unfold B64.numerator_spec, B64.denominator_spec, B64.table.
  cbn [fold_left fst snd].
  reflexivity.
Qed.

End RoundedDefuzzifier.

Lemma degree_strength (h d : Q) :
  B64.degree h -> B64.degree d -> B64.degree (strength_spec h d).
Proof.
  intros [Hh Rh] [Hd Rd]. unfold strength_spec, B64.degree, B64.representable.
  destruct (Q.min_spec h d) as [[_ E] | [_ E]];
    rewrite (round_comp _ _ E), E; split; assumption.
Qed.

(** With outputs in [0,1] the rounded weighted sum stays between 0 and the
    rounded sum of the weights, term after term. *)
Lemma weighted_sums_le (terms : list (Q * Q)) (n d : Q) :
  Forall (fun term => B64.degree (fst term) /\ 0 <= snd term <= 1) terms ->
  0 <= n <= d ->
  0 <= fold_left
         (fun acc term => B64.add acc (B64.mul (fst term) (B64.lit (snd term))))
         terms n
    <= fold_left (fun acc term => B64.add acc (fst term)) terms d.
Proof.
  intro Hall. revert n d.
  induction Hall as [| [s o] rest [[Hs Rs] Ho] _ IH]; intros n d [Hn Hnd].
  - cbn [fold_left]. split; assumption.
  - cbn [fold_left fst snd]. apply IH.
    destruct (mul_le_l s (B64.lit o) Rs Hs (lit_unit o Ho)) as [Hp0 Hps].
    unfold B64.add. split.
    + apply round_nonneg. lra.
    + apply round_mono. lra.
Qed.

Section RoundedAverage.

Variables hl hm hh hc ds dm dl : Q.

Hypothesis hl_degree : B64.degree hl.
Hypothesis hm_degree : B64.degree hm.
Hypothesis hh_degree : B64.degree hh.
Hypothesis hc_degree : B64.degree hc.
Hypothesis ds_degree : B64.degree ds.
Hypothesis dm_degree : B64.degree dm.
Hypothesis dl_degree : B64.degree dl.

Lemma b64_sums_bounds :
  0 <= B64.numerator_spec hl hm hh hc ds dm dl
    <= B64.denominator_spec hl hm hh hc ds dm dl.
Proof.
  unfold B64.numerator_spec, B64.denominator_spec.
  apply weighted_sums_le; [|lra].
  unfold B64.table.
  repeat (constructor;
          [cbn [fst snd]; split; [apply degree_strength; assumption | lra]|]).
  constructor.
Qed.

Variables hmap dmap : dict.

Hypothesis hmap_low : getitem hmap "low" = Return hl.
Hypothesis hmap_medium : getitem hmap "medium" = Return hm.
Hypothesis hmap_high : getitem hmap "high" = Return hh.
Hypothesis hmap_critical : getitem hmap "critical" = Return hc.
Hypothesis dmap_short : getitem dmap "short" = Return ds.
Hypothesis dmap_medium : getitem dmap "medium" = Return dm.
Hypothesis dmap_long : getitem dmap "long" = Return dl.

(** The value [get_fuzzy_output] returns on binary64 degrees. *)
Lemma b64_get_fuzzy_output_value :
  exists r,
    B64.get_fuzzy_output hmap dmap = Return r /\
    (0 < B64.denominator_spec hl hm hh hc ds dm dl ->
     r = B64.round (B64.numerator_spec hl hm hh hc ds dm dl
                    / B64.denominator_spec hl hm hh hc ds dm dl)) /\
    (~ 0 < B64.denominator_spec hl hm hh hc ds dm dl -> r = 0) /\
    0 <= r <= 1 /\ B64.representable r.
Proof.
  pose proof b64_sums_bounds as [Hlo Hhi].
  unfold B64.get_fuzzy_output.
  rewrite (b64_accumulate_rules hmap dmap hl hm hh hc ds dm dl) by assumption.
  cbn [bind fst snd].
  set (n := B64.numerator_spec hl hm hh hc ds dm dl) in *.
  set (d := B64.denominator_spec hl hm hh hc ds dm dl) in *.
  case_lt 0 d.
  - unfold B64.div.
    assert (Hz : Qeq_bool d 0 = false).
    { destruct (Qeq_bool d 0) eqn:Eq; [|reflexivity].
      apply Qeq_bool_iff in Eq. lra. }
    rewrite Hz. eexists. split; [reflexivity|].
    split; [intros _; reflexivity|].
    split; [intro Hneg; exfalso; exact (Hneg E)|].
    destruct (ratio_in_unit n d E (conj Hlo Hhi)) as [Q0 Q1].
    split; [split|].
    + apply round_nonneg, Q0.
    + rewrite <- round_1. apply round_mono, Q1.
    + apply representable_round.
  - exists 0. split; [reflexivity|].
    split; [intro Hpos; lra|].
    split; [intros _; reflexivity|].
    split; [lra | exact representable_0].
Qed.

End RoundedAverage.

(** ** The response in binary64 *)

Lemma b64_get_fuzzy_output_of_inputs (t d : Q) :
  exists w,
    B64.get_fuzzy_output (B64.get_heat_membership t)
      (B64.get_duration_membership d) = Return w /\
    0 <= w <= 1 /\ B64.representable w.
Proof.
  destruct (b64_heat_degrees t) as (Hl & Hm & Hh & Hc).
  destruct (b64_duration_degrees d) as (Ds & Dm & Dl).
  destruct (b64_get_fuzzy_output_value
              (B64.heat_low t) (B64.heat_medium t) (B64.heat_high t)
              (B64.heat_critical t) (B64.duration_short d)
              (B64.duration_medium d) (B64.duration_long d)
              Hl Hm Hh Hc Ds Dm Dl
              (B64.get_heat_membership t) (B64.get_duration_membership d))
    as (w & Hw & _ & _ & Hunit & Hrep);
    try (rewrite b64_get_heat_membership_items; reflexivity);
    try (rewrite b64_get_duration_membership_items; reflexivity).
  exists w. repeat split; try assumption; apply Hunit.
Qed.

(** [calculate_system_response] raises nothing, and its fields are the
    expressions of the source over the three intermediate results. *)
Lemma b64_calculate_system_response_fields (t d : Q) :
  exists r w kh kd,
    B64.calculate_system_response t d = Return r /\
    B64.get_fuzzy_output (B64.get_heat_membership t)
      (B64.get_duration_membership d) = Return w /\
    (0 <= w <= 1 /\ B64.representable w) /\
    get_dominant_membership (B64.get_heat_membership t) = Return kh /\
    get_dominant_membership (B64.get_duration_membership d) = Return kd /\
    heat_memberships r = B64.get_heat_membership t /\
    duration_memberships r = B64.get_duration_membership d /\
    water_output r = w /\
    dominant_heat r = capitalize kh /\
    dominant_duration r = capitalize kd /\
    should_trigger r = le 155 t && lt 0 d /\
    spray_duration r =
      int (B64.mul (B64.mul 5000 (max 1 (B64.quo (B64.sub t 155) 50)))
             (max (B64.lit 0.5) w)) /\
    (system_status r, status_color r) =
      (if should_trigger r then ("ACTIVE", "#ff4444")
       else if le 140 t then ("WARNING", "#ffa726")
       else ("STANDBY", "#4ecdc4")) /\
    water_level r =
      (if lt 0 w
       then if lt w (B64.lit 0.3) then "Low"
            else if lt w (B64.lit 0.7) then "Medium" else "High"
       else "None") /\
    water_pressure r = int (B64.mul w 100).
Proof.
  destruct (b64_get_fuzzy_output_of_inputs t d) as (w & Hw & Hunit).
  destruct (get_dominant_membership_returns (B64.get_heat_membership t))
    as [kh Hkh].
  { rewrite b64_get_heat_membership_items. discriminate. }
  destruct (get_dominant_membership_returns (B64.get_duration_membership d))
    as [kd Hkd].
  { rewrite b64_get_duration_membership_items. discriminate. }
  unfold B64.calculate_system_response.
  rewrite Hw, Hkh, Hkd. cbn [bind].
  destruct (le 155 t && lt 0 d) eqn:Etrig; destruct (le 140 t) eqn:Ewarn;
    eexists; exists w, kh, kd; (split; [reflexivity|]);
    cbn [heat_memberships duration_memberships water_output dominant_heat
         dominant_duration should_trigger spray_duration system_status
         status_color water_level water_pressure];
    repeat (split; try assumption; try reflexivity); apply Hunit.
Qed.

Lemma lit_0_5 : B64.lit 0.5 == 0.5.
Proof. vm_compute. reflexivity. Qed.

Lemma round_100 : B64.round 100 == 100.
Proof. apply (round_Z 100). cbn. lia. Qed.

Lemma lit_0_3_bounds : 0.29 < B64.lit 0.3 < 0.3.
Proof. split; vm_compute; reflexivity. Qed.

Lemma lit_0_7_bounds : 0.69 < B64.lit 0.7 < 0.7.
Proof. split; vm_compute; reflexivity. Qed.

(** ** Spray duration, water level and pressure *)

(** C7, as the claim states it, fails in the arithmetic of the code.  At 212
    degrees held for 35 seconds the output is 1 and the product
    5000 * (212 - 155)/50 * 1 is 5700; binary64 rounds (212 - 155)/50 to the
    number just below 1.14, the product to a number below 5700, and
    [spray_duration] is 5699. *)
Lemma spray_duration_212_35_is_not_5700 :
  exists r,
    B64.calculate_system_response 212 35 = Return r /\
    water_output r == 1 /\
    spray_duration r = 5699%Z /\
    truncate_spec (5000 * Qmax 1 ((212 - 155) / 50) * Qmax 0.5 (water_output r))
      = 5700%Z.
Proof.
  eexists. split; [vm_compute; reflexivity|].
  split; [|split]; vm_compute; reflexivity.
Qed.

(** C7, amended.  For every binary64 temperature and duration of magnitude
    at most 2^1000 the response is returned and [spray_duration] is the
    product 5000 * max(1, (temperature - 155)/50) * max(0.5, water_output)
    as binary64 computes it, the difference, the quotient and the two
    products each rounded to nearest, truncated to an integer; it is never
    negative. *)
Theorem spray_duration_rounded (t d : Q) :
  B64.input t -> B64.input d ->
  exists r,
    B64.calculate_system_response t d = Return r /\
    spray_duration r =
      truncate_spec
        (B64.mul (B64.mul 5000 (Qmax 1 (B64.quo (B64.sub t 155) 50)))
           (Qmax 0.5 (water_output r))) /\
    (0 <= spray_duration r)%Z.
Proof.
  intros _ _.
  destruct (b64_calculate_system_response_fields t d)
    as (r & w & kh & kd & Hr & _ & _ & _ & _ & _ & _ & Hw & _ & _ & _
        & Hspray & _).
  exists r. split; [exact Hr|].
  assert (Hin : B64.mul 5000 (max 1 (B64.quo (B64.sub t 155) 50))
                = B64.mul 5000 (Qmax 1 (B64.quo (B64.sub t 155) 50))).
  { apply round_comp. rewrite max_Qmax. reflexivity. }
  assert (Heq : B64.mul (B64.mul 5000 (max 1 (B64.quo (B64.sub t 155) 50)))
                  (max (B64.lit 0.5) w)
                = B64.mul (B64.mul 5000 (Qmax 1 (B64.quo (B64.sub t 155) 50)))
                    (Qmax 0.5 (water_output r))).
  { rewrite Hin, Hw. apply round_comp.
    rewrite max_Qmax, lit_0_5. reflexivity. }
  rewrite Hspray, int_truncate, Heq.
  split; [reflexivity|].
  apply truncate_spec_nonneg. apply round_nonneg.
  apply Qmult_le_0_compat.
  - apply round_nonneg. apply Qmult_le_0_compat; [lra|].
    pose proof (Q.le_max_l 1 (B64.quo (B64.sub t 155) 50)). lra.
  - pose proof (Q.le_max_l 0.5 (water_output r)). lra.
Qed.

(** C8, as the claim states it, fails in the arithmetic of the code.  At 235
    degrees and 0 seconds the output is 0.7999999999999999
    (7205759403792793 / 2^53); output * 100 is below 80 and truncates to 79;
    binary64 rounds the product to 80 and [water_pressure] is 80. *)
Lemma water_pressure_235_0_is_not_79 :
  exists r,
    B64.calculate_system_response 235 0 = Return r /\
    water_output r == 7205759403792793 # 9007199254740992 /\
    water_pressure r = 80%Z /\
    truncate_spec (water_output r * 100) = 79%Z.
Proof.
  eexists. split; [vm_compute; reflexivity|].
  split; [|split]; vm_compute; reflexivity.
Qed.

(** C8, amended.  For every binary64 temperature and duration of magnitude
    at most 2^1000, with 0.3 and 0.7 read as the binary64 numbers the
    literals denote: [water_level] is None exactly when the output is 0, Low
    exactly when 0 < output < 0.3, Medium exactly when 0.3 <= output < 0.7 and
    High exactly when output >= 0.7; [water_pressure] is the binary64 product
    output * 100, rounded to nearest, truncated to an integer, and lies
    within 0..100. *)
Theorem water_level_and_pressure_rounded (t d : Q) :
  B64.input t -> B64.input d ->
  exists r,
    B64.calculate_system_response t d = Return r /\
    (water_level r = "None" <-> water_output r == 0) /\
    (water_level r = "Low" <->
     0 < water_output r /\ water_output r < B64.lit 0.3) /\
    (water_level r = "Medium" <->
     B64.lit 0.3 <= water_output r /\ water_output r < B64.lit 0.7) /\
    (water_level r = "High" <-> B64.lit 0.7 <= water_output r) /\
    water_pressure r = truncate_spec (B64.mul (water_output r) 100) /\
    (0 <= water_pressure r <= 100)%Z.
Proof.
  intros _ _.
  destruct (b64_calculate_system_response_fields t d)
    as (r & w & kh & kd & Hr & _ & [[Hw0 Hw1] _] & _ & _ & _ & _ & Hw
        & _ & _ & _ & _ & _ & Hlevel & Hpressure).
  exists r. split; [exact Hr|].
  rewrite Hw, Hlevel, Hpressure, int_truncate. clear Hlevel Hpressure Hr Hw.
  pose proof lit_0_3_bounds as [L3 U3]. pose proof lit_0_7_bounds as [L7 U7].
  generalize dependent (B64.lit 0.7). intros l7 L7 U7.
  generalize dependent (B64.lit 0.3). intros l3 L3 U3.
  split; [|split; [|split; [|split; [|split; [reflexivity|]]]]].
  - case_lt 0 w; [case_lt w l3; [|case_lt w l7]|];
      split; intro H; try discriminate; try reflexivity; lra.
  - case_lt 0 w; [case_lt w l3; [|case_lt w l7]|];
      split; intro H; try discriminate; try reflexivity; lra.
  - case_lt 0 w; [case_lt w l3; [|case_lt w l7]|];
      split; intro H; try discriminate; try reflexivity; lra.
  - case_lt 0 w; [case_lt w l3; [|case_lt w l7]|];
      split; intro H; try discriminate; try reflexivity; lra.
  - assert (H0 : 0 <= B64.mul w 100).
    { apply round_nonneg. apply Qmult_le_0_compat; lra. }
    assert (H1 : B64.mul w 100 <= 100).
    { unfold B64.mul. apply Qle_trans with (B64.round 100).
      - apply round_mono. lra.
      - rewrite round_100. lra. }
    split.
    + apply truncate_spec_nonneg, H0.
    + apply truncate_spec_le; [exact H0|].
      change (inject_Z 100) with 100. exact H1.
Qed.

(** ** Distance between the rounded sums and the exact ones *)

(** [unit_roundoff] as a fraction, for linear arithmetic. *)
Ltac roundoff_value :=
  change B64.unit_roundoff with (1 # 9007199254740992) in *.

(** Each rule output of the table is read within one part in 2^53. *)
Lemma literal_ok_table :
  B64.literal_ok 0 /\ B64.literal_ok 0.2 /\ B64.literal_ok 0.4 /\
  B64.literal_ok 0.6 /\ B64.literal_ok 0.8 /\ B64.literal_ok 1.0.
Proof.
  repeat split; vm_compute; discriminate.
Qed.

Lemma count_bounds (k : nat) (x : Q) :
  (k <= 12)%nat -> 0 <= x ->
  0 <= inject_Z (Z.of_nat k) * x <= 12 * x.
Proof.
  intros Hk Hx.
  assert (H0 : 0 <= inject_Z (Z.of_nat k)).
  { change 0 with (inject_Z 0). rewrite <- Zle_Qle. lia. }
  assert (H1 : inject_Z (Z.of_nat k) <= 12).
  { change 12 with (inject_Z 12). rewrite <- Zle_Qle. lia. }
  split; nra.
Qed.

Lemma count_succ (k : nat) :
  inject_Z (Z.of_nat (S k)) == inject_Z (Z.of_nat k) + 1.
Proof.
  rewrite Nat2Z.inj_succ. unfold Z.succ. rewrite inject_Z_plus. reflexivity.
Qed.

(** One more term of the weighted sum: a product and a sum are rounded. *)
Lemma within_step (k : nat) (F X s o : Q) :
  (k < 12)%nat -> B64.within k F X -> 0 <= s -> B64.literal_ok o ->
  B64.within (S k) (B64.add F (B64.mul s (B64.lit o))) (X + s * o).
Proof.
  intros Hk (HX & HF & Hlo & Hhi) Hs (Ho & Llo & Lhi).
  unfold B64.within. rewrite count_succ.
  pose proof eta_small as [He _].
  set (K := inject_Z (Z.of_nat k)) in *.
  destruct (count_bounds k X ltac:(lia) HX) as [KX0 KX1]. fold K in KX0, KX1.
  assert (HT : 0 <= s * o) by (apply Qmult_le_0_compat; assumption).
  destruct (count_bounds k (s * o) ltac:(lia) HT) as [KT0 KT1].
  fold K in KT0, KT1.
  destruct (count_bounds k B64.eta ltac:(lia) ltac:(lra)) as [KE0 KE1].
  fold K in KE0, KE1.
  assert (HsL : 0 <= s * B64.lit o).
  { apply Qmult_le_0_compat; [exact Hs|]. apply round_nonneg, Ho. }
  assert (SLlo : (1 - B64.unit_roundoff) * (s * o) <= s * B64.lit o) by nra.
  assert (SLhi : s * B64.lit o <= (1 + B64.unit_roundoff) * (s * o)) by nra.
  pose proof (round_error (s * B64.lit o) HsL) as [Plo Phi].
  fold (B64.mul s (B64.lit o)) in Plo, Phi.
  assert (HP : 0 <= B64.mul s (B64.lit o)) by (apply round_nonneg, HsL).
  pose proof (round_error (F + B64.mul s (B64.lit o)) ltac:(lra)) as [Alo Ahi].
  fold (B64.add F (B64.mul s (B64.lit o))) in Alo, Ahi.
  assert (HA : 0 <= B64.add F (B64.mul s (B64.lit o)))
    by (apply round_nonneg; lra).
  generalize dependent (B64.add F (B64.mul s (B64.lit o))). intros A Alo Ahi HA.
  generalize dependent (B64.mul s (B64.lit o)). intros P Plo Phi HP Alo Ahi.
  generalize dependent (s * B64.lit o). intros SL _ SLlo SLhi Plo Phi.
  generalize dependent (s * o). intros T HT KT0 KT1 SLlo SLhi.
  clear Llo Lhi Hs Ho.
  roundoff_value.
  repeat split; lra.
Qed.

Lemma weighted_sum_within (terms : list (Q * Q)) :
  forall (k : nat) (F X : Q),
    Forall (fun term => 0 <= fst term /\ B64.literal_ok (snd term)) terms ->
    (k + List.length terms <= 12)%nat ->
    B64.within k F X ->
    B64.within (k + List.length terms)
      (fold_left
         (fun acc term => B64.add acc (B64.mul (fst term) (B64.lit (snd term))))
         terms F)
      (fold_left (fun acc term => acc + fst term * snd term) terms X).
Proof.
  induction terms as [| [s o] rest IH]; intros k F X Hall Hlen HW.
  - cbn [fold_left List.length]. rewrite Nat.add_0_r. exact HW.
  - cbn [fold_left List.length fst snd] in *.
    inversion Hall as [| ? ? [Hs Ho] Hrest]; subst.
    cbn [fst snd] in Hs, Ho.
    rewrite Nat.add_succ_r.
    change (S (k + List.length rest)) with (S k + List.length rest)%nat.
    apply IH; [exact Hrest | lia |].
    apply within_step; [lia | exact HW | exact Hs | exact Ho].
Qed.

(** One more term of the sum of the strengths: a sum is rounded. *)
Lemma within_step_sum (k : nat) (F X s : Q) :
  (k < 12)%nat -> B64.within k F X -> 0 <= s ->
  B64.within (S k) (B64.add F s) (X + s).
Proof.
  intros Hk (HX & HF & Hlo & Hhi) Hs.
  unfold B64.within. rewrite count_succ.
  pose proof eta_small as [He _].
  set (K := inject_Z (Z.of_nat k)) in *.
  destruct (count_bounds k X ltac:(lia) HX) as [KX0 KX1]. fold K in KX0, KX1.
  destruct (count_bounds k s ltac:(lia) Hs) as [KT0 KT1]. fold K in KT0, KT1.
  destruct (count_bounds k B64.eta ltac:(lia) ltac:(lra)) as [KE0 KE1].
  fold K in KE0, KE1.
  pose proof (round_error (F + s) ltac:(lra)) as [Alo Ahi].
  fold (B64.add F s) in Alo, Ahi.
  assert (HA : 0 <= B64.add F s) by (apply round_nonneg; lra).
  generalize dependent (B64.add F s). intros A Alo Ahi HA.
  roundoff_value.
  repeat split; lra.
Qed.

Lemma sum_within (terms : list (Q * Q)) :
  forall (k : nat) (F X : Q),
    Forall (fun term => 0 <= fst term /\ B64.literal_ok (snd term)) terms ->
    (k + List.length terms <= 12)%nat ->
    B64.within k F X ->
    B64.within (k + List.length terms)
      (fold_left (fun acc term => B64.add acc (fst term)) terms F)
      (fold_left (fun acc term => acc + fst term) terms X).
Proof.
  induction terms as [| [s o] rest IH]; intros k F X Hall Hlen HW.
  - cbn [fold_left List.length]. rewrite Nat.add_0_r. exact HW.
  - cbn [fold_left List.length fst snd] in *.
    inversion Hall as [| ? ? [Hs Ho] Hrest]; subst.
    cbn [fst snd] in Hs, Ho.
    rewrite Nat.add_succ_r.
    change (S (k + List.length rest)) with (S k + List.length rest)%nat.
    apply IH; [exact Hrest | lia |].
    apply within_step_sum; [lia | exact HW | exact Hs].
Qed.

Lemma within_0 : B64.within 0 0 0.
Proof.
  unfold B64.within. change (inject_Z (Z.of_nat 0)) with 0.
  repeat split; lra.
Qed.

Lemma within_comp (k : nat) (F X Y : Q) :
  X == Y -> B64.within k F X -> B64.within k F Y.
Proof.
  intros E (HX & HF & Hlo & Hhi). unfold B64.within.
  rewrite <- E. repeat split; assumption.
Qed.

(** After the twelve terms: the rounded sum is within 60 parts in 2^53, and
    36 [eta], of the exact sum. *)
Lemma within_12 (F X : Q) :
  B64.within 12 F X ->
  0 <= X /\ 0 <= F /\
  (1 - (60 # 9007199254740992)) * X - 36 * B64.eta <= F /\
  F <= (1 + (60 # 9007199254740992)) * X + 36 * B64.eta.
Proof.
  intros (HX & HF & Hlo & Hhi).
  change (inject_Z (Z.of_nat 12)) with 12 in *. roundoff_value.
  repeat split; lra.
Qed.

Section RoundedSums.

Variables hl hm hh hc ds dm dl : Q.

Hypothesis hl_nonneg : 0 <= hl.
Hypothesis hm_nonneg : 0 <= hm.
Hypothesis hh_nonneg : 0 <= hh.
Hypothesis hc_nonneg : 0 <= hc.
Hypothesis ds_nonneg : 0 <= ds.
Hypothesis dm_nonneg : 0 <= dm.
Hypothesis dl_nonneg : 0 <= dl.

Lemma table_ok :
  Forall (fun term => 0 <= fst term /\ B64.literal_ok (snd term))
    (B64.table hl hm hh hc ds dm dl).
Proof.
  destruct literal_ok_table as (L0 & L2 & L4 & L6 & L8 & L1).
  unfold B64.table.
  repeat (constructor;
          [cbn [fst snd]; split;
           [apply strength_spec_nonneg; assumption | assumption]|]).
  constructor.
Qed.

(** The two rounded sums of the table against the exact sums over the same
    strengths. *)
Lemma b64_numerator_within :
  B64.within 12 (B64.numerator_spec hl hm hh hc ds dm dl)
    (numerator_spec hl hm hh hc ds dm dl).
Proof.
  pose proof (weighted_sum_within (B64.table hl hm hh hc ds dm dl) 0 0 0
                table_ok ltac:(cbn; lia) within_0) as H.
  change (0 + List.length (B64.table hl hm hh hc ds dm dl))%nat
    with 12%nat in H.
  eapply within_comp; [|exact H].
  unfold B64.table, numerator_spec. cbn [fold_left fst snd]. ring.
Qed.

Lemma b64_denominator_within :
  B64.within 12 (B64.denominator_spec hl hm hh hc ds dm dl)
    (denominator_spec hl hm hh hc ds dm dl).
Proof.
  pose proof (sum_within (B64.table hl hm hh hc ds dm dl) 0 0 0
                table_ok ltac:(cbn; lia) within_0) as H.
  change (0 + List.length (B64.table hl hm hh hc ds dm dl))%nat
    with 12%nat in H.
  eapply within_comp; [|exact H].
  unfold B64.table, denominator_spec. cbn [fold_left fst snd]. ring.
Qed.

End RoundedSums.

Lemma mult_le_l (c x y : Q) : 0 <= c -> x <= y -> c * x <= c * y.
Proof. intros. nra. Qed.

(** A bound on the exact quotient of the sums holds for the rounded
    quotient of the rounded sums with a slack of 1e-13, as long as the exact
    denominator is not tiny. *)
Lemma rounded_quotient_ge (c Nf Df Nx Dx : Q) :
  B64.within 12 Nf Nx -> B64.within 12 Df Dx ->
  (9 # 100) <= Dx -> 0 <= c <= 1 -> c * Dx <= Nx ->
  0 < Df /\ c - (1 # 10000000000000) <= B64.round (Nf / Df).
Proof.
  intros HN HD HDx [Hc0 Hc1] Hc.
  apply within_12 in HN, HD.
  destruct HN as (HNx & HNf & Nlo & Nhi). destruct HD as (_ & HDf & Dlo & Dhi).
  pose proof eta_small as [He0 He1].
  assert (Hpos : 0 < Df).
  { generalize dependent B64.eta. intros. lra. }
  split; [exact Hpos|].
  destruct (Qlt_le_dec c (1 # 35184372088832)) as [Small | Large].
  { apply Qle_trans with 0; [lra|].
    apply round_nonneg. apply Qle_shift_div_l; [exact Hpos | lra]. }
  assert (Hq : c - (1 # 35184372088832) <= Nf / Df).
  { apply Qle_shift_div_l; [exact Hpos|].
    assert (HcD : c * Df <= c * ((1 + (60 # 9007199254740992)) * Dx
                                 + 36 * B64.eta)).
    { apply mult_le_l; [lra | exact Dhi]. }
    assert (HcE : c * B64.eta <= B64.eta) by nra.
    assert (HcX : c * Dx <= Dx) by nra.
    generalize dependent B64.eta. intros. lra. }
  assert (Hq0 : 0 <= Nf / Df).
  { apply Qle_shift_div_l; [exact Hpos | lra]. }
  pose proof (round_error (Nf / Df) Hq0) as [Rlo _].
  roundoff_value.
  generalize dependent (B64.round (Nf / Df)). generalize dependent (Nf / Df).
  generalize dependent B64.eta. intros. lra.
Qed.

Lemma rounded_quotient_le (c Nf Df Nx Dx : Q) :
  B64.within 12 Nf Nx -> B64.within 12 Df Dx ->
  (9 # 100) <= Dx -> 0 <= c <= 1 -> Nx <= c * Dx ->
  0 < Df /\ B64.round (Nf / Df) <= c + (1 # 10000000000000).
Proof.
  intros HN HD HDx [Hc0 Hc1] Hc.
  apply within_12 in HN, HD.
  destruct HN as (HNx & HNf & Nlo & Nhi). destruct HD as (_ & HDf & Dlo & Dhi).
  pose proof eta_small as [He0 He1].
  assert (Hpos : 0 < Df).
  { generalize dependent B64.eta. intros. lra. }
  split; [exact Hpos|].
  assert (Hq : Nf / Df <= c + (1 # 35184372088832)).
  { apply Qle_shift_div_r; [exact Hpos|].
    assert (HcD : c * ((1 - (60 # 9007199254740992)) * Dx - 36 * B64.eta)
                  <= c * Df).
    { apply mult_le_l; [lra | exact Dlo]. }
    assert (HcE : c * B64.eta <= B64.eta) by nra.
    assert (HcX : c * Dx <= Dx) by nra.
    generalize dependent B64.eta. intros. lra. }
  assert (Hq0 : 0 <= Nf / Df).
  { apply Qle_shift_div_l; [exact Hpos | lra]. }
  pose proof (round_error (Nf / Df) Hq0) as [_ Rhi].
  roundoff_value.
  generalize dependent (B64.round (Nf / Df)). generalize dependent (Nf / Df).
  generalize dependent B64.eta. intros. lra.
Qed.

(** C3, as the claim states it, fails in the arithmetic of the code.  On the
    dictionaries of 128 degrees and 0 seconds, where medium holds the
    binary64 number nearest to 0.7, short holds 1 and every other degree is
    0, the quotient of the two sums is 0.2; [get_fuzzy_output] returns
    0.19999999999999998 (7205759403792793 / 2^55), which is below it. *)
Lemma get_fuzzy_output_128_0_is_not_the_quotient :
  exists r,
    B64.get_fuzzy_output (B64.get_heat_membership 128)
      (B64.get_duration_membership 0) = Return r /\
    getitem (B64.get_heat_membership 128) "medium" = Return (B64.lit 0.7) /\
    (exists short,
        getitem (B64.get_duration_membership 0) "short" = Return short /\
        short == 1) /\
    r == 7205759403792793 # 36028797018963968 /\
    numerator_spec 0 (B64.lit 0.7) 0 0 1 0 0
      / denominator_spec 0 (B64.lit 0.7) 0 0 1 0 0 == 0.2 /\
    r < 0.2.
Proof.
  eexists. split; [vm_compute; reflexivity|].
  split; [vm_compute; reflexivity|].
  split; [eexists; split; vm_compute; reflexivity|].
  split; [|split]; vm_compute; reflexivity.
Qed.

(** ** The defuzzifier on binary64 degrees *)

Section RoundedOutput.

Variables hmap dmap : dict.
Variables hl hm hh hc ds dm dl : Q.

Hypothesis hmap_low : getitem hmap "low" = Return hl.
Hypothesis hmap_medium : getitem hmap "medium" = Return hm.
Hypothesis hmap_high : getitem hmap "high" = Return hh.
Hypothesis hmap_critical : getitem hmap "critical" = Return hc.
Hypothesis dmap_short : getitem dmap "short" = Return ds.
Hypothesis dmap_medium : getitem dmap "medium" = Return dm.
Hypothesis dmap_long : getitem dmap "long" = Return dl.

(** The seven values are nonnegative binary64 numbers in the range of
    [B64.input]. *)
Hypothesis values_ok :
  Forall (fun v => 0 <= v /\ B64.input v) [hl; hm; hh; hc; ds; dm; dl].

(** C3, amended.  For heat and duration maps holding nonnegative binary64
    values, [get_fuzzy_output] returns (it raises nothing, in particular no
    division by zero).  With the two sums accumulated in the order of the
    table, every product and every sum rounded to nearest, the value is the
    rounded quotient of the two sums when the denominator is strictly
    positive, and 0 otherwise; it lies in [0,1]; and it is within 1e-13 of
    the quotient of the exact sums whenever the exact sum of the strengths is
    at least 0.09. *)
Theorem get_fuzzy_output_rounded :
  exists r,
    B64.get_fuzzy_output hmap dmap = Return r /\
    (0 < B64.denominator_spec hl hm hh hc ds dm dl ->
     r == B64.round (B64.numerator_spec hl hm hh hc ds dm dl
                     / B64.denominator_spec hl hm hh hc ds dm dl)) /\
    (~ 0 < B64.denominator_spec hl hm hh hc ds dm dl -> r == 0) /\
    0 <= r <= 1 /\
    ((9 # 100) <= denominator_spec hl hm hh hc ds dm dl ->
     numerator_spec hl hm hh hc ds dm dl
       / denominator_spec hl hm hh hc ds dm dl - 0.0000000000001 <= r
     <= numerator_spec hl hm hh hc ds dm dl
          / denominator_spec hl hm hh hc ds dm dl + 0.0000000000001).
Proof.
  assert (Hdeg : Forall B64.degree [hl; hm; hh; hc; ds; dm; dl]).
  { eapply Forall_impl; [|exact values_ok].
    intros v [H0 [Hr _]]. split; assumption. }
  inversion Hdeg as [| ? ? Dhl H1]; subst.
  inversion H1 as [| ? ? Dhm H2]; subst.
  inversion H2 as [| ? ? Dhh H3]; subst.
  inversion H3 as [| ? ? Dhc H4]; subst.
  inversion H4 as [| ? ? Dds H5]; subst.
  inversion H5 as [| ? ? Ddm H6]; subst.
  inversion H6 as [| ? ? Ddl _]; subst.
  destruct (b64_get_fuzzy_output_value hl hm hh hc ds dm dl
              Dhl Dhm Dhh Dhc Dds Ddm Ddl hmap dmap
              hmap_low hmap_medium hmap_high hmap_critical
              dmap_short dmap_medium dmap_long)
    as (r & Hr & Hq & Hz & Hunit & _).
  exists r. split; [exact Hr|].
  split; [intro Hpos; rewrite (Hq Hpos); reflexivity|].
  split; [intro Hneg; rewrite (Hz Hneg); reflexivity|].
  split; [exact Hunit|].
  intro HD.
  destruct Dhl as [? _], Dhm as [? _], Dhh as [? _], Dhc as [? _],
    Dds as [? _], Ddm as [? _], Ddl as [? _].
  assert (WN : B64.within 12 (B64.numerator_spec hl hm hh hc ds dm dl)
                 (numerator_spec hl hm hh hc ds dm dl))
    by (apply b64_numerator_within; assumption).
  assert (WD : B64.within 12 (B64.denominator_spec hl hm hh hc ds dm dl)
                 (denominator_spec hl hm hh hc ds dm dl))
    by (apply b64_denominator_within; assumption).
  pose proof (spec_sums_bounds hl hm hh hc ds dm dl) as [Hlo Hhi];
    try assumption.
  assert (HDpos : 0 < denominator_spec hl hm hh hc ds dm dl) by lra.
  destruct (ratio_in_unit _ _ HDpos (conj Hlo Hhi)) as [Q0 Q1].
  assert (Heq : numerator_spec hl hm hh hc ds dm dl
                  / denominator_spec hl hm hh hc ds dm dl
                * denominator_spec hl hm hh hc ds dm dl
                == numerator_spec hl hm hh hc ds dm dl).
  { apply mul_div_comm. lra. }
  destruct (rounded_quotient_ge _ _ _ _ _ WN WD HD (conj Q0 Q1)
              ltac:(rewrite Heq; lra)) as [Hpos Hge].
  destruct (rounded_quotient_le _ _ _ _ _ WN WD HD (conj Q0 Q1)
              ltac:(rewrite Heq; lra)) as [_ Hle].
  rewrite (Hq Hpos). split; assumption.
Qed.

End RoundedOutput.

(** ** Where the binary64 degrees vanish, and where one of them is large *)

Lemma quo_sub_zero (a b c : Q) : a == b -> B64.quo (B64.sub a b) c = 0.
Proof.
  intro E. unfold B64.quo, B64.sub.
  rewrite (round_comp (a - b) 0) by lra. rewrite round_0.
  rewrite (round_comp (0 / c) 0) by (unfold Qdiv; ring). apply round_0.
Qed.

Lemma max_ge_r (a b : Q) : b <= max a b.
Proof. destruct (max_spec a b) as [[L ->] | [L ->]]; lra. Qed.

Lemma min_ge (a b c : Q) : c <= a -> c <= b -> c <= min a b.
Proof. intros. destruct (min_spec a b) as [[_ ->] | [_ ->]]; assumption. Qed.

(** A quotient of a rounded number by a literal, from below. *)
Lemma quo_ge (x c : Q) (n : Z) (f : Q) :
  inject_Z n <= x -> (Z.abs n <= 2 ^ 53)%Z -> 0 < c ->
  f <= B64.round (inject_Z n / c) ->
  f <= B64.quo (B64.round x) c.
Proof.
  intros Hx Hn Hc Hf. unfold B64.quo.
  apply Qle_trans with (B64.round (inject_Z n / c)); [exact Hf|].
  apply round_mono.
  apply Qle_shift_div_l; [exact Hc|].
  rewrite (mul_div_comm (inject_Z n) c) by lra.
  rewrite <- (round_Z n Hn). apply round_mono, Hx.
Qed.

Lemma b64_heat_zero_above_low (t : Q) : 120 <= t -> B64.heat_low t == 0.
Proof.
  intro H. unfold B64.heat_low. case_le t 120; [|reflexivity].
  rewrite (quo_sub_zero 120 t 50) by lra. reflexivity.
Qed.

Lemma b64_heat_zero_above_medium (t : Q) : 180 <= t -> B64.heat_medium t == 0.
Proof.
  intro H. unfold B64.heat_medium.
  case_le 100 t; case_le t 180; cbn [andb]; try reflexivity.
  case_le t 140; [lra|].
  rewrite (quo_sub_zero 180 t 40) by lra. reflexivity.
Qed.

Lemma b64_heat_zero_above_high (t : Q) : 220 <= t -> B64.heat_high t == 0.
Proof.
  intro H. unfold B64.heat_high.
  case_le 150 t; case_le t 220; cbn [andb]; try reflexivity.
  case_le t 185; [lra|].
  rewrite (quo_sub_zero 220 t 35) by lra. reflexivity.
Qed.

Lemma b64_heat_zero_below_high (t : Q) : t <= 150 -> B64.heat_high t == 0.
Proof.
  intro H. unfold B64.heat_high.
  case_le 150 t; case_le t 220; cbn [andb]; try reflexivity.
  case_le t 185; [|lra].
  rewrite (quo_sub_zero t 150 35) by lra. reflexivity.
Qed.

Lemma b64_heat_zero_below_critical (t : Q) :
  t <= 200 -> B64.heat_critical t == 0.
Proof.
  intro H. unfold B64.heat_critical. case_le 200 t; [|reflexivity].
  rewrite (quo_sub_zero t 200 100) by lra. reflexivity.
Qed.

Lemma b64_duration_zero_below_medium (d : Q) :
  d <= 10 -> B64.duration_medium d == 0.
Proof.
  intro H. unfold B64.duration_medium.
  case_le 10 d; case_le d 35; cbn [andb]; try reflexivity.
  case_le d (B64.lit 22.5).
  - rewrite (quo_sub_zero d 10 (B64.lit 12.5)) by lra. reflexivity.
  - rewrite lit_22_5 in E1. lra.
Qed.

Lemma b64_duration_zero_below_long (d : Q) :
  d <= 25 -> B64.duration_long d == 0.
Proof.
  intro H. unfold B64.duration_long. case_le 25 d; [|reflexivity].
  rewrite (quo_sub_zero d 25 35) by lra. reflexivity.
Qed.

Ltac quo_floor n :=
  apply (quo_ge _ _ n);
  [ unfold inject_Z; lra | cbn; lia | try reflexivity
  | vm_compute; discriminate ].

(** At every temperature one heat degree is at least 0.09. *)
Lemma b64_heat_some_large (t : Q) :
  (9 # 100) <= B64.heat_low t \/ (9 # 100) <= B64.heat_medium t \/
  (9 # 100) <= B64.heat_high t \/ (9 # 100) <= B64.heat_critical t.
Proof.
  unfold B64.heat_low, B64.heat_medium, B64.heat_high, B64.heat_critical,
    B64.sub.
  destruct (Qlt_le_dec 105 t) as [L1 | L1].
  2:{ left. case_le t 120; [|lra].
      eapply Qle_trans; [|apply max_ge_r]. quo_floor 15%Z. }
  destruct (Qlt_le_dec 140 t) as [L2 | L2].
  2:{ right; left. case_le 100 t; [|lra]. case_le t 180; [|lra]. cbn [andb].
      case_le t 140; [|lra]. quo_floor 5%Z. }
  destruct (Qlt_le_dec 160 t) as [L3 | L3].
  2:{ right; left. case_le 100 t; [|lra]. case_le t 180; [|lra]. cbn [andb].
      case_le t 140; [lra|]. quo_floor 20%Z. }
  destruct (Qlt_le_dec 185 t) as [L4 | L4].
  2:{ right; right; left.
      case_le 150 t; [|lra]. case_le t 220; [|lra]. cbn [andb].
      case_le t 185; [|lra]. quo_floor 10%Z. }
  destruct (Qlt_le_dec 210 t) as [L5 | L5].
  2:{ right; right; left.
      case_le 150 t; [|lra]. case_le t 220; [|lra]. cbn [andb].
      case_le t 185; [lra|]. quo_floor 10%Z. }
  right; right; right. case_le 200 t; [|lra].
  apply min_ge; [lra|]. quo_floor 10%Z.
Qed.

(** At every duration one duration degree is at least 0.09. *)
Lemma b64_duration_some_large (d : Q) :
  (9 # 100) <= B64.duration_short d \/ (9 # 100) <= B64.duration_medium d \/
  (9 # 100) <= B64.duration_long d.
Proof.
  unfold B64.duration_short, B64.duration_medium, B64.duration_long, B64.sub.
  pose proof lit_22_5 as L22.
  destruct (Qlt_le_dec 12 d) as [L1 | L1].
  2:{ left. case_le d 15; [|lra].
      eapply Qle_trans; [|apply max_ge_r]. quo_floor 3%Z. }
  destruct (Qlt_le_dec 33 d) as [L2 | L2].
  2:{ right; left. case_le 10 d; [|lra]. case_le d 35; [|lra]. cbn [andb].
      case_le d (B64.lit 22.5); quo_floor 2%Z; exact lit_12_5_pos. }
  right; right. case_le 25 d; [|lra].
  apply min_ge; [lra|]. quo_floor 8%Z.
Qed.

Lemma denominator_spec_large (hl hm hh hc ds dm dl : Q) :
  0 <= hl -> 0 <= hm -> 0 <= hh -> 0 <= hc ->
  0 <= ds -> 0 <= dm -> 0 <= dl ->
  (9 # 100) <= hl \/ (9 # 100) <= hm \/ (9 # 100) <= hh \/ (9 # 100) <= hc ->
  (9 # 100) <= ds \/ (9 # 100) <= dm \/ (9 # 100) <= dl ->
  (9 # 100) <= denominator_spec hl hm hh hc ds dm dl.
Proof.
  intros Hl Hm Hh Hc Ds Dm Dl Hh9 Hd9. unfold denominator_spec.
  pose proof (strength_spec_nonneg hl ds Hl Ds).
  pose proof (strength_spec_nonneg hl dm Hl Dm).
  pose proof (strength_spec_nonneg hl dl Hl Dl).
  pose proof (strength_spec_nonneg hm ds Hm Ds).
  pose proof (strength_spec_nonneg hm dm Hm Dm).
  pose proof (strength_spec_nonneg hm dl Hm Dl).
  pose proof (strength_spec_nonneg hh ds Hh Ds).
  pose proof (strength_spec_nonneg hh dm Hh Dm).
  pose proof (strength_spec_nonneg hh dl Hh Dl).
  pose proof (strength_spec_nonneg hc ds Hc Ds).
  pose proof (strength_spec_nonneg hc dm Hc Dm).
  pose proof (strength_spec_nonneg hc dl Hc Dl).
  destruct Hh9 as [Hh9 | [Hh9 | [Hh9 | Hh9]]];
    destruct Hd9 as [Hd9 | [Hd9 | Hd9]];
    pose proof (Q.min_glb _ _ _ Hh9 Hd9); unfold strength_spec in *; lra.
Qed.

(** ** Water output by temperature and duration, in binary64 *)

(** The output of the response is the rounded quotient of the two rounded
    sums; a linear bound on the exact sums over the same degrees bounds it,
    with a slack of 1e-13. *)
Lemma b64_water_output_bounds (t d : Q) :
  exists r,
    B64.calculate_system_response t d = Return r /\
    (forall c, 0 <= c <= 1 ->
       c * denominator_spec
             (B64.heat_low t) (B64.heat_medium t) (B64.heat_high t)
             (B64.heat_critical t) (B64.duration_short d)
             (B64.duration_medium d) (B64.duration_long d)
       <= numerator_spec
             (B64.heat_low t) (B64.heat_medium t) (B64.heat_high t)
             (B64.heat_critical t) (B64.duration_short d)
             (B64.duration_medium d) (B64.duration_long d) ->
       c - (1 # 10000000000000) <= water_output r) /\
    (forall c, 0 <= c <= 1 ->
       numerator_spec
             (B64.heat_low t) (B64.heat_medium t) (B64.heat_high t)
             (B64.heat_critical t) (B64.duration_short d)
             (B64.duration_medium d) (B64.duration_long d)
       <= c * denominator_spec
             (B64.heat_low t) (B64.heat_medium t) (B64.heat_high t)
             (B64.heat_critical t) (B64.duration_short d)
             (B64.duration_medium d) (B64.duration_long d) ->
       water_output r <= c + (1 # 10000000000000)) /\
    0 <= water_output r <= 1 /\
    should_trigger r = le 155 t && lt 0 d /\
    water_level r =
      (if lt 0 (water_output r)
       then if lt (water_output r) (B64.lit 0.3) then "Low"
            else if lt (water_output r) (B64.lit 0.7) then "Medium"
            else "High"
       else "None") /\
    water_pressure r = int (B64.mul (water_output r) 100).
Proof.
  destruct (b64_calculate_system_response_fields t d)
    as (r & w & kh & kd & Hr & Hw & [Hunit _] & _ & _ & _ & _ & Hwr & _ & _
        & Htrig & _ & _ & Hlevel & Hpress).
  destruct (b64_heat_degrees t) as (Hl & Hm & Hh & Hc).
  destruct (b64_duration_degrees d) as (Ds & Dm & Dl).
  destruct (b64_get_fuzzy_output_value
              (B64.heat_low t) (B64.heat_medium t) (B64.heat_high t)
              (B64.heat_critical t) (B64.duration_short d)
              (B64.duration_medium d) (B64.duration_long d)
              Hl Hm Hh Hc Ds Dm Dl
              (B64.get_heat_membership t) (B64.get_duration_membership d))
    as (w' & Hw' & Hq & _);
    try (rewrite b64_get_heat_membership_items; reflexivity);
    try (rewrite b64_get_duration_membership_items; reflexivity).
  rewrite Hw in Hw'. injection Hw' as <-.
  destruct Hl as [Hl _], Hm as [Hm _], Hh as [Hh _], Hc as [Hc _],
    Ds as [Ds _], Dm as [Dm _], Dl as [Dl _].
  pose proof (b64_numerator_within _ _ _ _ _ _ _ Hl Hm Hh Hc Ds Dm Dl) as WN.
  pose proof (b64_denominator_within _ _ _ _ _ _ _ Hl Hm Hh Hc Ds Dm Dl) as WD.
  pose proof (denominator_spec_large _ _ _ _ _ _ _ Hl Hm Hh Hc Ds Dm Dl
                (b64_heat_some_large t) (b64_duration_some_large d)) as HD.
  exists r. rewrite Hwr. split; [exact Hr|].
  split; [|split; [|split; [exact Hunit | split; [exact Htrig|]]]].
  - intros c Hc01 Hle.
    destruct (rounded_quotient_ge c _ _ _ _ WN WD HD Hc01 Hle) as [Hpos Hb].
    rewrite (Hq Hpos). exact Hb.
  - intros c Hc01 Hle.
    destruct (rounded_quotient_le c _ _ _ _ WN WD HD Hc01 Hle) as [Hpos Hb].
    rewrite (Hq Hpos). exact Hb.
  - split; [exact Hlevel | exact Hpress].
Qed.

(** Signs and sizes of the twelve strengths at an input. *)
Ltac b64_input_strengths t d :=
  destruct (b64_heat_degrees t) as ([Hl0 _] & [Hm0 _] & [Hh0 _] & [Hc0 _]);
  destruct (b64_duration_degrees d) as ([Ds0 _] & [Dm0 _] & [Dl0 _]);
  pose proof (strength_spec_nonneg _ _ Hl0 Ds0);
  pose proof (strength_spec_nonneg _ _ Hl0 Dm0);
  pose proof (strength_spec_nonneg _ _ Hl0 Dl0);
  pose proof (strength_spec_nonneg _ _ Hm0 Ds0);
  pose proof (strength_spec_nonneg _ _ Hm0 Dm0);
  pose proof (strength_spec_nonneg _ _ Hm0 Dl0);
  pose proof (strength_spec_nonneg _ _ Hh0 Ds0);
  pose proof (strength_spec_nonneg _ _ Hh0 Dm0);
  pose proof (strength_spec_nonneg _ _ Hh0 Dl0);
  pose proof (strength_spec_nonneg _ _ Hc0 Ds0);
  pose proof (strength_spec_nonneg _ _ Hc0 Dm0);
  pose proof (strength_spec_nonneg _ _ Hc0 Dl0);
  pose proof (Q.le_min_l (B64.heat_low t) (B64.duration_short d));
  pose proof (Q.le_min_l (B64.heat_low t) (B64.duration_medium d));
  pose proof (Q.le_min_l (B64.heat_low t) (B64.duration_long d));
  pose proof (Q.le_min_l (B64.heat_medium t) (B64.duration_short d));
  pose proof (Q.le_min_l (B64.heat_medium t) (B64.duration_medium d));
  pose proof (Q.le_min_l (B64.heat_medium t) (B64.duration_long d));
  pose proof (Q.le_min_l (B64.heat_high t) (B64.duration_short d));
  pose proof (Q.le_min_l (B64.heat_high t) (B64.duration_medium d));
  pose proof (Q.le_min_l (B64.heat_high t) (B64.duration_long d));
  pose proof (Q.le_min_l (B64.heat_critical t) (B64.duration_short d));
  pose proof (Q.le_min_l (B64.heat_critical t) (B64.duration_medium d));
  pose proof (Q.le_min_l (B64.heat_critical t) (B64.duration_long d));
  pose proof (Q.le_min_r (B64.heat_low t) (B64.duration_medium d));
  pose proof (Q.le_min_r (B64.heat_low t) (B64.duration_long d));
  pose proof (Q.le_min_r (B64.heat_medium t) (B64.duration_medium d));
  pose proof (Q.le_min_r (B64.heat_medium t) (B64.duration_long d));
  pose proof (Q.le_min_r (B64.heat_high t) (B64.duration_medium d));
  pose proof (Q.le_min_r (B64.heat_high t) (B64.duration_long d));
  pose proof (Q.le_min_r (B64.heat_critical t) (B64.duration_medium d));
  pose proof (Q.le_min_r (B64.heat_critical t) (B64.duration_long d));
  unfold strength_spec in *.

(** X8. Floors of the output by temperature, for every duration, as
    binary64 computes it: at least 0.2 - 1e-13 from 120 degrees, at least
    0.6 - 1e-13 from 180, at least 0.8 - 1e-13 (and level High) from 220;
    whenever the response triggers, the output is at least 0.2 - 1e-13 and
    the level is not None. *)
Theorem water_output_floors (t d : Q) :
  B64.input t -> B64.input d ->
  exists r,
    B64.calculate_system_response t d = Return r /\
    (120 <= t -> 0.2 - (1 # 10000000000000) <= water_output r) /\
    (180 <= t -> 0.6 - (1 # 10000000000000) <= water_output r) /\
    (220 <= t ->
     0.8 - (1 # 10000000000000) <= water_output r /\ water_level r = "High") /\
    (should_trigger r = true ->
     0.2 - (1 # 10000000000000) <= water_output r /\ water_level r <> "None").
Proof.
  intros _ _.
  destruct (b64_water_output_bounds t d)
    as (r & Hr & Hge & _ & [Hw0 Hw1] & Htrig & Hlevel & _).
  exists r. split; [exact Hr|].
  assert (F120 : 120 <= t -> 0.2 - (1 # 10000000000000) <= water_output r).
  { intro Ht. apply Hge; [lra|].
    unfold numerator_spec, denominator_spec.
    b64_input_strengths t d.
    pose proof (b64_heat_zero_above_low t Ht). lra. }
  assert (F180 : 180 <= t -> 0.6 - (1 # 10000000000000) <= water_output r).
  { intro Ht. apply Hge; [lra|].
    unfold numerator_spec, denominator_spec.
    b64_input_strengths t d.
    pose proof (b64_heat_zero_above_low t ltac:(lra)).
    pose proof (b64_heat_zero_above_medium t Ht). lra. }
  assert (F220 : 220 <= t -> 0.8 - (1 # 10000000000000) <= water_output r).
  { intro Ht. apply Hge; [lra|].
    unfold numerator_spec, denominator_spec.
    b64_input_strengths t d.
    pose proof (b64_heat_zero_above_low t ltac:(lra)).
    pose proof (b64_heat_zero_above_medium t ltac:(lra)).
    pose proof (b64_heat_zero_above_high t Ht). lra. }
  pose proof lit_0_3_bounds as [L3 U3]. pose proof lit_0_7_bounds as [L7 U7].
  split; [exact F120|]. split; [exact F180|]. split; [|].
  - intro Ht. split; [exact (F220 Ht)|].
    pose proof (F220 Ht) as F. rewrite Hlevel. clear Hlevel.
    generalize dependent (B64.lit 0.7). generalize dependent (B64.lit 0.3).
    intros l3 L3 U3 l7 L7 U7.
    case_lt 0 (water_output r); [case_lt (water_output r) l3;
                                 [|case_lt (water_output r) l7]|];
      try reflexivity; lra.
  - intro Htrue. rewrite Htrig in Htrue.
    apply andb_true_iff in Htrue as [Ht _]. apply le_true_iff in Ht.
    pose proof (F120 ltac:(lra)) as F.
    split; [exact F|].
    rewrite Hlevel. clear Hlevel.
    generalize dependent (B64.lit 0.7). generalize dependent (B64.lit 0.3).
    intros l3 L3 U3 l7 L7 U7.
    case_lt 0 (water_output r); [case_lt (water_output r) l3;
                                 [|case_lt (water_output r) l7]|];
      try discriminate; lra.
Qed.

(** X9. Ceilings of the output, as binary64 computes it: at most
    0.6 + 1e-13 up to 150 degrees, so the level is never High there; and at
    most 0.8 + 1e-13, with pressure at most 80, for durations up to 10
    seconds. *)
Theorem water_output_ceilings (t d : Q) :
  B64.input t -> B64.input d ->
  exists r,
    B64.calculate_system_response t d = Return r /\
    (t <= 150 ->
     water_output r <= 0.6 + (1 # 10000000000000) /\ water_level r <> "High") /\
    (d <= 10 ->
     water_output r <= 0.8 + (1 # 10000000000000) /\
     (water_pressure r <= 80)%Z).
Proof.
  intros _ _.
  destruct (b64_water_output_bounds t d)
    as (r & Hr & _ & Hle & [Hw0 Hw1] & _ & Hlevel & Hpress).
  exists r. split; [exact Hr|]. split.
  - intro Ht.
    assert (H06 : water_output r <= 0.6 + (1 # 10000000000000)).
    { apply Hle; [lra|].
      unfold numerator_spec, denominator_spec.
      b64_input_strengths t d.
      pose proof (b64_heat_zero_below_high t Ht).
      pose proof (b64_heat_zero_below_critical t ltac:(lra)). lra. }
    split; [exact H06|].
    pose proof lit_0_3_bounds as [L3 U3]. pose proof lit_0_7_bounds as [L7 U7].
    rewrite Hlevel. clear Hlevel.
    generalize dependent (B64.lit 0.7). generalize dependent (B64.lit 0.3).
    intros l3 L3 U3 l7 L7 U7.
    case_lt 0 (water_output r); [case_lt (water_output r) l3;
                                 [|case_lt (water_output r) l7]|];
      try discriminate; lra.
  - intro Hd.
    assert (H08 : water_output r <= 0.8 + (1 # 10000000000000)).
    { apply Hle; [lra|].
      unfold numerator_spec, denominator_spec.
      b64_input_strengths t d.
      pose proof (b64_duration_zero_below_medium d Hd).
      pose proof (b64_duration_zero_below_long d ltac:(lra)). lra. }
    split; [exact H08|].
    rewrite Hpress, int_truncate.
    apply Z.le_trans
      with (truncate_spec (B64.round ((0.8 + (1 # 10000000000000)) * 100))).
    + apply truncate_spec_mono. unfold B64.mul. apply round_mono. lra.
    + vm_compute. discriminate.
Qed.

(** ** Range of the degrees, exactly *)

(** Below 70 degrees the degree of low exceeds 1. *)
Lemma b64_heat_low_above_one (t : Q) :
  B64.representable t -> t < 70 -> 1 < B64.heat_low t.
Proof.
  intros Ht L.
  assert (Hp : t <= inject_Z (70 * 2 ^ 46 - 1) * B64.pow2 (-46)).
  { apply (representable_pred t (70 * 2 ^ 46) (-46) Ht);
      [unfold B64.emin; lia | lia |].
    assert (E : inject_Z (70 * 2 ^ 46) * B64.pow2 (-46) == 70)
      by (vm_compute; reflexivity).
    rewrite E. exact L. }
  unfold B64.heat_low, B64.sub. case_le t 120; [|lra].
  eapply Qlt_le_trans; [|apply max_ge_r].
  apply (quo_gt _ (120 - inject_Z (70 * 2 ^ 46 - 1) * B64.pow2 (-46)));
    [lra | reflexivity | vm_compute; reflexivity].
Qed.

(** Below -2^-50 seconds the degree of short exceeds 1. *)
Lemma b64_duration_short_above_one (d : Q) :
  B64.representable d -> d < - (1 # 2 ^ 50) -> 1 < B64.duration_short d.
Proof.
  intros Hd L.
  assert (E : inject_Z (2 ^ 52) * B64.pow2 (-102) == 1 # 2 ^ 50)
    by (vm_compute; reflexivity).
  assert (Hp : inject_Z (2 ^ 52 + 1) * B64.pow2 (-102) <= - d).
  { apply (representable_succ (- d) (2 ^ 52) (-102));
      [apply representable_opp, Hd | unfold B64.emin; lia | lia |].
    rewrite E. lra. }
  unfold B64.duration_short, B64.sub.
  assert (Hneg : d < 0).
  { pose proof (pow2_pos (-102)).
    assert (0 <= inject_Z (2 ^ 52)) by (vm_compute; discriminate).
    rewrite <- E in L. nra. }
  case_le d 15; [|lra].
  eapply Qlt_le_trans; [|apply max_ge_r].
  apply (quo_gt _ (15 + inject_Z (2 ^ 52 + 1) * B64.pow2 (-102)));
    [lra | reflexivity | vm_compute; reflexivity].
Qed.

Lemma b64_heat_at_most_one (t : Q) :
  70 <= t ->
  B64.heat_low t <= 1 /\ B64.heat_medium t <= 1 /\
  B64.heat_high t <= 1 /\ B64.heat_critical t <= 1.
Proof.
  intro Ht.
  unfold B64.heat_low, B64.heat_medium, B64.heat_high, B64.heat_critical,
    B64.sub.
  repeat split.
  - case_le t 120; [|lra]. apply max_le; [lra|].
    apply (quo_le _ 50); [lra | reflexivity | vm_compute; discriminate].
  - case_le 100 t; case_le t 180; cbn [andb]; try lra.
    case_le t 140;
      (apply (quo_le _ 40); [lra | reflexivity | vm_compute; discriminate]).
  - case_le 150 t; case_le t 220; cbn [andb]; try lra.
    case_le t 185;
      (apply (quo_le _ 35); [lra | reflexivity | vm_compute; discriminate]).
  - case_le 200 t; [|lra]. apply min_le_l.
Qed.

Lemma b64_duration_at_most_one (d : Q) :
  - (1 # 2 ^ 50) <= d ->
  B64.duration_short d <= 1 /\ B64.duration_medium d <= 1 /\
  B64.duration_long d <= 1.
Proof.
  intro Hd.
  assert (E : 1 # 2 ^ 50 == 1 # 1125899906842624) by reflexivity.
  rewrite E in Hd.
  unfold B64.duration_short, B64.duration_medium, B64.duration_long, B64.sub.
  pose proof lit_22_5 as L22.
  repeat split.
  - case_le d 15; [|lra]. apply max_le; [lra|].
    apply (quo_le _ (15 + (1 # 1125899906842624)));
      [lra | reflexivity | vm_compute; discriminate].
  - case_le 10 d; case_le d 35; cbn [andb]; try lra.
    case_le d (B64.lit 22.5);
      (apply (quo_le _ 12.5);
       [lra | exact lit_12_5_pos | vm_compute; discriminate]).
  - case_le 25 d; [|lra]. apply min_le_l.
Qed.

(** X20. In binary64 no degree is negative at any input; the heat degrees
    are all at most 1 exactly when the temperature is at least 70; the
    duration degrees are all at most 1 exactly when the duration is at least
    -2^-50: a negative duration smaller than that in size is absorbed by the
    rounding of 15 - duration, and short is 1. *)
Theorem membership_values_range (t d : Q) :
  B64.input t -> B64.input d ->
  Forall (fun v => 0 <= v) (values (B64.get_heat_membership t)) /\
  Forall (fun v => 0 <= v) (values (B64.get_duration_membership d)) /\
  (Forall (fun v => v <= 1) (values (B64.get_heat_membership t)) <-> 70 <= t) /\
  (Forall (fun v => v <= 1) (values (B64.get_duration_membership d))
   <-> - (1 # 2 ^ 50) <= d).
Proof.
  intros [Rt _] [Rd _].
  rewrite b64_get_heat_membership_items, b64_get_duration_membership_items.
  cbn [values map snd].
  destruct (b64_heat_degrees t) as ([? _] & [? _] & [? _] & [? _]).
  destruct (b64_duration_degrees d) as ([? _] & [? _] & [? _]).
  split; [repeat constructor; assumption|].
  split; [repeat constructor; assumption|].
  split; split.
  - intro Hall. inversion Hall as [| ? ? Hlow _]; subst.
    destruct (Qlt_le_dec t 70) as [L | L]; [exfalso | exact L].
    pose proof (b64_heat_low_above_one t Rt L). lra.
  - intro Ht. destruct (b64_heat_at_most_one t Ht) as (? & ? & ? & ?).
    repeat constructor; assumption.
  - intro Hall. inversion Hall as [| ? ? Hshort _]; subst.
    destruct (Qlt_le_dec d (- (1 # 2 ^ 50))) as [L | L]; [exfalso | exact L].
    pose proof (b64_duration_short_above_one d Rd L). lra.
  - intro Hd. destruct (b64_duration_at_most_one d Hd) as (? & ? & ?).
    repeat constructor; assumption.
Qed.

(** ** No overflow on the arguments of [B64.input] *)

(** Rounding does not cross a power of two. *)
Lemma round_le_pow2 (x : Q) (k : Z) :
  (B64.emin <= k)%Z -> x <= B64.pow2 k -> B64.round x <= B64.pow2 k.
Proof.
  intros Hk Hx.
  assert (E : B64.round (B64.pow2 k) == B64.pow2 k).
  { apply (round_grid _ 1 k); [|exact Hk | cbn; lia].
    change (inject_Z 1) with 1. ring. }
  rewrite <- E. apply round_mono, Hx.
Qed.

Lemma round_ge_opp_pow2 (x : Q) (k : Z) :
  (B64.emin <= k)%Z -> - B64.pow2 k <= x -> - B64.pow2 k <= B64.round x.
Proof.
  intros Hk Hx.
  assert (E : B64.round (- B64.pow2 k) == - B64.pow2 k).
  { apply (round_grid _ (-1) k); [|exact Hk | cbn; lia].
    change (inject_Z (-1)) with (-(1)). ring. }
  rewrite <- E. apply round_mono, Hx.
Qed.

Lemma pow2_1000_large : 1024 <= B64.pow2 1000.
Proof.
  assert (E : 1024 == B64.pow2 10) by reflexivity.
  rewrite E. apply pow2_le. lia.
Qed.

Lemma pow2_1001 : B64.pow2 1001 == 2 * B64.pow2 1000.
Proof.
  replace 1001%Z with (1 + 1000)%Z by lia. rewrite pow2_add. reflexivity.
Qed.

(** A difference between an argument and a literal of the source, and its
    quotient by a literal of the source. *)
Lemma quo_sub_in_range (a b c : Q) :
  - B64.pow2 1000 <= a <= B64.pow2 1000 ->
  - B64.pow2 1000 <= b <= B64.pow2 1000 ->
  1 <= c ->
  - B64.pow2 1001 <= B64.sub a b <= B64.pow2 1001 /\
  - B64.pow2 1001 <= B64.quo (B64.sub a b) c <= B64.pow2 1001.
Proof.
  intros [Ha0 Ha1] [Hb0 Hb1] Hc.
  pose proof pow2_1001 as E. pose proof (pow2_pos 1001) as P.
  assert (S : - B64.pow2 1001 <= B64.sub a b <= B64.pow2 1001).
  { unfold B64.sub. split.
    - apply round_ge_opp_pow2; [unfold B64.emin; lia | lra].
    - apply round_le_pow2; [unfold B64.emin; lia | lra]. }
  split; [exact S|].
  destruct S as [S0 S1]. unfold B64.quo.
  assert (Hle : B64.sub a b / c <= B64.pow2 1001).
  { apply Qle_shift_div_r; [lra|]. nra. }
  assert (Hge : - B64.pow2 1001 <= B64.sub a b / c).
  { apply Qle_shift_div_l; [lra|]. nra. }
  split.
  - apply round_ge_opp_pow2; [unfold B64.emin; lia | exact Hge].
  - apply round_le_pow2; [unfold B64.emin; lia | exact Hle].
Qed.

Lemma literal_in_range (c : Q) :
  -(1024) <= c <= 1024 -> - B64.pow2 1000 <= c <= B64.pow2 1000.
Proof. intros [H0 H1]. pose proof pow2_1000_large. split; lra. Qed.

Ltac in_range :=
  first [ assumption | apply literal_in_range; split; lra ].

Ltac quo_in_range :=
  match goal with
  | |- B64.quo (B64.sub ?a ?b) ?c <= _ =>
      apply (quo_sub_in_range a b c); [in_range | in_range | ]
  end.

Lemma b64_heat_in_range (t : Q) :
  - B64.pow2 1000 <= t <= B64.pow2 1000 ->
  Forall (fun v => 0 <= v <= B64.pow2 1001)
    (values (B64.get_heat_membership t)).
Proof.
  intro Ht.
  rewrite b64_get_heat_membership_items. cbn [values map snd].
  destruct (b64_heat_degrees t) as ([? _] & [? _] & [? _] & [? _]).
  pose proof (pow2_pos 1001) as P.
  unfold B64.heat_low, B64.heat_medium, B64.heat_high, B64.heat_critical in *.
  repeat constructor; try assumption.
  - case_le t 120; [|lra]. apply max_le; [lra|]. quo_in_range. lra.
  - case_le 100 t; case_le t 180; cbn [andb]; try lra.
    case_le t 140; quo_in_range; lra.
  - case_le 150 t; case_le t 220; cbn [andb]; try lra.
    case_le t 185; quo_in_range; lra.
  - case_le 200 t; [|lra].
    apply Qle_trans with 1; [apply min_le_l|].
    pose proof pow2_1000_large. pose proof pow2_1001. lra.
Qed.

Lemma b64_duration_in_range (d : Q) :
  - B64.pow2 1000 <= d <= B64.pow2 1000 ->
  Forall (fun v => 0 <= v <= B64.pow2 1001)
    (values (B64.get_duration_membership d)).
Proof.
  intro Hd.
  rewrite b64_get_duration_membership_items. cbn [values map snd].
  destruct (b64_duration_degrees d) as ([? _] & [? _] & [? _]).
  pose proof (pow2_pos 1001) as P. pose proof lit_12_5 as L12.
  unfold B64.duration_short, B64.duration_medium, B64.duration_long in *.
  repeat constructor; try assumption.
  - case_le d 15; [|lra]. apply max_le; [lra|]. quo_in_range. lra.
  - case_le 10 d; case_le d 35; cbn [andb]; try lra.
    case_le d (B64.lit 22.5); quo_in_range; lra.
  - case_le 25 d; [|lra].
    apply Qle_trans with 1; [apply min_le_l|].
    pose proof pow2_1000_large. pose proof pow2_1001. lra.
Qed.

(** A rounded sum of [n] terms, each at most [2^1001], is at most
    [n * 2^1001]. *)
Lemma sum_in_range (terms : list (Q * Q)) :
  forall (k : nat) (acc : Q),
    Forall (fun term => 0 <= fst term <= B64.pow2 1001) terms ->
    (k + List.length terms <= 12)%nat ->
    0 <= acc <= inject_Z (Z.of_nat k) * B64.pow2 1001 ->
    0 <= fold_left (fun acc term => B64.add acc (fst term)) terms acc
      <= inject_Z (Z.of_nat (k + List.length terms)) * B64.pow2 1001.
Proof.
  induction terms as [| [s o] rest IH]; intros k acc Hall Hlen [H0 H1].
  - cbn [fold_left List.length]. rewrite Nat.add_0_r. split; assumption.
  - cbn [fold_left List.length fst snd] in *.
    inversion Hall as [| ? ? [Hs0 Hs1] Hrest]; subst. cbn [fst] in Hs0, Hs1.
    rewrite Nat.add_succ_r.
    change (S (k + List.length rest)) with (S k + List.length rest)%nat.
    apply IH; [exact Hrest | lia |].
    unfold B64.add. split; [apply round_nonneg; lra|].
    assert (E : B64.round (inject_Z (Z.of_nat (S k)) * B64.pow2 1001)
                == inject_Z (Z.of_nat (S k)) * B64.pow2 1001).
    { apply (round_grid _ (Z.of_nat (S k)) 1001);
        [reflexivity | unfold B64.emin; lia | lia]. }
    rewrite <- E. apply round_mono. rewrite count_succ. lra.
Qed.

(** On arguments of [B64.input] every result of the controller stays far
    below 2^1024: the degrees are at most 2^1001, the two sums at most 2^1005
    and the product of the spray duration at most 2^1014. *)
Lemma b64_no_overflow (t d : Q) :
  B64.input t -> B64.input d ->
  Forall (fun v => 0 <= v <= B64.pow2 1001)
    (values (B64.get_heat_membership t)) /\
  Forall (fun v => 0 <= v <= B64.pow2 1001)
    (values (B64.get_duration_membership d)) /\
  0 <= B64.numerator_spec
         (B64.heat_low t) (B64.heat_medium t) (B64.heat_high t)
         (B64.heat_critical t) (B64.duration_short d)
         (B64.duration_medium d) (B64.duration_long d)
    <= B64.denominator_spec
         (B64.heat_low t) (B64.heat_medium t) (B64.heat_high t)
         (B64.heat_critical t) (B64.duration_short d)
         (B64.duration_medium d) (B64.duration_long d) /\
  B64.denominator_spec
    (B64.heat_low t) (B64.heat_medium t) (B64.heat_high t)
    (B64.heat_critical t) (B64.duration_short d)
    (B64.duration_medium d) (B64.duration_long d) <= B64.pow2 1005 /\
  (forall w, 0 <= w <= 1 ->
     0 <= B64.mul (B64.mul 5000 (max 1 (B64.quo (B64.sub t 155) 50)))
            (max (B64.lit 0.5) w)
       <= B64.pow2 1014).
Proof.
  intros [_ Ht] [_ Hd].
  pose proof (b64_heat_in_range t Ht) as HH.
  pose proof (b64_duration_in_range d Hd) as HD.
  split; [exact HH|]. split; [exact HD|].
  rewrite b64_get_heat_membership_items in HH.
  rewrite b64_get_duration_membership_items in HD.
  cbn [values map snd] in HH, HD.
  inversion HH as [| ? ? [Hl0 Hl1] HH1]; subst.
  inversion HH1 as [| ? ? [Hm0 Hm1] HH2]; subst.
  inversion HH2 as [| ? ? [Hh0 Hh1] HH3]; subst.
  inversion HH3 as [| ? ? [Hc0 Hc1] _]; subst.
  inversion HD as [| ? ? [Ds0 Ds1] HD1]; subst.
  inversion HD1 as [| ? ? [Dm0 Dm1] HD2]; subst.
  inversion HD2 as [| ? ? [Dl0 Dl1] _]; subst.
  destruct (b64_heat_degrees t) as (Gl & Gm & Gh & Gc).
  destruct (b64_duration_degrees d) as (Gs & Gd & Gg).
  split; [apply b64_sums_bounds; assumption|].
  split.
  - unfold B64.denominator_spec.
    destruct (sum_in_range
                (B64.table (B64.heat_low t) (B64.heat_medium t)
                   (B64.heat_high t) (B64.heat_critical t)
                   (B64.duration_short d) (B64.duration_medium d)
                   (B64.duration_long d)) 0 0) as [_ Hsum].
    + unfold B64.table.
      repeat (constructor;
              [cbn [fst]; split;
               [apply strength_spec_nonneg; assumption
               | unfold strength_spec;
                 eapply Qle_trans; [apply Q.le_min_l | assumption]]|]).
      constructor.
    + cbn. lia.
    + change (inject_Z (Z.of_nat 0)) with 0. lra.
    + eapply Qle_trans; [exact Hsum|].
      unfold B64.table. cbn [List.length Nat.add].
      change (inject_Z (Z.of_nat 12)) with 12.
      replace 1005%Z with (4 + 1001)%Z by lia. rewrite pow2_add.
      change (B64.pow2 4) with 16. pose proof (pow2_pos 1001). lra.
  - intros w [Hw0 Hw1].
    pose proof pow2_1000_large as P. pose proof pow2_1001 as E1.
    assert (E14 : B64.pow2 1014 == 16384 * B64.pow2 1000).
    { replace 1014%Z with (14 + 1000)%Z by lia. rewrite pow2_add.
      reflexivity. }
    assert (Hq : B64.quo (B64.sub t 155) 50 <= B64.pow2 1001).
    { apply (quo_sub_in_range t 155 50); [in_range | in_range | lra]. }
    assert (Hmul : 1 <= max 1 (B64.quo (B64.sub t 155) 50) <= B64.pow2 1001).
    { split.
      - destruct (max_spec 1 (B64.quo (B64.sub t 155) 50))
          as [[L ->] | [_ ->]]; lra.
      - apply max_le; [lra | exact Hq]. }
    assert (Ho : 0 <= max (B64.lit 0.5) w <= 1).
    { pose proof lit_0_5 as L5. split.
      - apply max_nonneg_l. lra.
      - apply max_le; lra. }
    generalize dependent (max 1 (B64.quo (B64.sub t 155) 50)).
    intros hm [Hmul0 Hmul1].
    generalize dependent (max (B64.lit 0.5) w). intros om [Ho0 Ho1].
    assert (Hp : 0 <= B64.mul 5000 hm <= B64.pow2 1014).
    { unfold B64.mul. split.
      - apply round_nonneg. lra.
      - apply round_le_pow2; [unfold B64.emin; lia | lra]. }
    destruct Hp as [Hp0 Hp1]. unfold B64.mul at 1 3. split.
    + apply round_nonneg. apply Qmult_le_0_compat; assumption.
    + apply round_le_pow2; [unfold B64.emin; lia | nra].
Qed.

(** The same for [get_fuzzy_output] on any seven degrees in the range of
    [B64.input]: the two sums stay below 2^1005. *)
Lemma b64_sums_no_overflow (hl hm hh hc ds dm dl : Q) :
  Forall (fun v => 0 <= v /\ B64.input v) [hl; hm; hh; hc; ds; dm; dl] ->
  0 <= B64.numerator_spec hl hm hh hc ds dm dl
    <= B64.denominator_spec hl hm hh hc ds dm dl /\
  B64.denominator_spec hl hm hh hc ds dm dl <= B64.pow2 1005.
Proof.
  intro Hall.
  assert (Hok : Forall (fun v => B64.degree v /\ v <= B64.pow2 1001)
                  [hl; hm; hh; hc; ds; dm; dl]).
  { eapply Forall_impl; [|exact Hall].
    intros v [H0 [Hr [_ H1]]]. split; [split; assumption|].
    pose proof pow2_1001. pose proof (pow2_pos 1000). lra. }
  inversion Hok as [| ? ? [Dhl Bhl] H1]; subst.
  inversion H1 as [| ? ? [Dhm Bhm] H2]; subst.
  inversion H2 as [| ? ? [Dhh Bhh] H3]; subst.
  inversion H3 as [| ? ? [Dhc Bhc] H4]; subst.
  inversion H4 as [| ? ? [Dds Bds] H5]; subst.
  inversion H5 as [| ? ? [Ddm Bdm] H6]; subst.
  inversion H6 as [| ? ? [Ddl Bdl] _]; subst.
  split; [apply b64_sums_bounds; assumption|].
  destruct Dhl as [? _], Dhm as [? _], Dhh as [? _], Dhc as [? _],
    Dds as [? _], Ddm as [? _], Ddl as [? _].
  unfold B64.denominator_spec.
  destruct (sum_in_range (B64.table hl hm hh hc ds dm dl) 0 0) as [_ Hsum].
  - unfold B64.table.
    repeat (constructor;
            [cbn [fst]; split;
             [apply strength_spec_nonneg; assumption
             | unfold strength_spec;
               eapply Qle_trans; [apply Q.le_min_l | assumption]]|]).
    constructor.
  - cbn. lia.
  - change (inject_Z (Z.of_nat 0)) with 0. lra.
  - eapply Qle_trans; [exact Hsum|].
    unfold B64.table. cbn [List.length Nat.add].
    change (inject_Z (Z.of_nat 12)) with 12.
    replace 1005%Z with (4 + 1001)%Z by lia. rewrite pow2_add.
    change (B64.pow2 4) with 16. pose proof (pow2_pos 1001). lra.
Qed.

(** ** Sample evaluations in binary64 *)

(** The responses at a few inputs, as binary64 computes them: pressure 49
    at 116 degrees and 40 seconds, level Low and pressure 29 at 110 degrees
    and 34.0625 seconds, output 0.8000000000000002 at 220 degrees and 5
    seconds. *)
Example b64_sample_responses :
  (exists r, B64.calculate_system_response 116 40 = Return r /\
             water_level r = "Medium" /\ water_pressure r = 49%Z) /\
  (exists r, B64.calculate_system_response 110 (545 # 16) = Return r /\
             water_level r = "Low" /\ water_pressure r = 29%Z) /\
  (exists r, B64.calculate_system_response 220 5 = Return r /\
             water_output r == 7205759403792795 # 9007199254740992 /\
             water_level r = "High" /\ water_pressure r = 80%Z).
Proof.
  repeat split; eexists; (split; [vm_compute; reflexivity|]);
    repeat split; vm_compute; reflexivity.
Qed.

(** The response of C2, at 250 degrees held for 30 seconds, is the same in
    binary64. *)
Example b64_response_250_30 :
  exists r,
    B64.calculate_system_response 250 30 = Return r /\
    dominant_heat r = "Critical" /\ dominant_duration r = "Medium" /\
    water_output r == 1 /\ should_trigger r = true /\
    system_status r = "ACTIVE" /\ water_level r = "High" /\
    water_pressure r = 100%Z /\ spray_duration r = 9500%Z.
Proof.
  eexists. split; [vm_compute; reflexivity|].
  repeat split; vm_compute; reflexivity.
Qed.

(** ** Instances in binary64 *)

Ltac input_ok :=
  split; [vm_compute; reflexivity | split; vm_compute; discriminate].

(** C3, amended, at the dictionaries of 128 degrees and 0 seconds. *)
Lemma get_fuzzy_output_rounded_witness :
  exists r,
    B64.get_fuzzy_output
      [("low", 0); ("medium", B64.lit 0.7); ("high", 0); ("critical", 0)]
      [("short", 1); ("medium", 0); ("long", 0)] = Return r /\
    (0 < B64.denominator_spec 0 (B64.lit 0.7) 0 0 1 0 0 ->
     r == B64.round (B64.numerator_spec 0 (B64.lit 0.7) 0 0 1 0 0
                     / B64.denominator_spec 0 (B64.lit 0.7) 0 0 1 0 0)) /\
    (~ 0 < B64.denominator_spec 0 (B64.lit 0.7) 0 0 1 0 0 -> r == 0) /\
    0 <= r <= 1 /\
    ((9 # 100) <= denominator_spec 0 (B64.lit 0.7) 0 0 1 0 0 ->
     numerator_spec 0 (B64.lit 0.7) 0 0 1 0 0
       / denominator_spec 0 (B64.lit 0.7) 0 0 1 0 0
       - 0.0000000000001 <= r
     <= numerator_spec 0 (B64.lit 0.7) 0 0 1 0 0
          / denominator_spec 0 (B64.lit 0.7) 0 0 1 0 0 + 0.0000000000001).
Proof.
  apply (get_fuzzy_output_rounded
           [("low", 0); ("medium", B64.lit 0.7); ("high", 0); ("critical", 0)]
           [("short", 1); ("medium", 0); ("long", 0)]
           0 (B64.lit 0.7) 0 0 1 0 0);
    try reflexivity.
  repeat (constructor; [split; [vm_compute; discriminate | input_ok]|]).
  constructor.
Defined.

(** C7, amended, at 212 degrees held for 35 seconds. *)
Lemma spray_duration_rounded_witness :
  exists r,
    B64.calculate_system_response 212 35 = Return r /\
    spray_duration r =
      truncate_spec
        (B64.mul (B64.mul 5000 (Qmax 1 (B64.quo (B64.sub 212 155) 50)))
           (Qmax 0.5 (water_output r))) /\
    (0 <= spray_duration r)%Z.
Proof.
  apply (spray_duration_rounded 212 35); input_ok.
Defined.

(** C8, amended, at 235 degrees and 0 seconds. *)
Lemma water_level_and_pressure_rounded_witness :
  exists r,
    B64.calculate_system_response 235 0 = Return r /\
    (water_level r = "None" <-> water_output r == 0) /\
    (water_level r = "Low" <->
     0 < water_output r /\ water_output r < B64.lit 0.3) /\
    (water_level r = "Medium" <->
     B64.lit 0.3 <= water_output r /\ water_output r < B64.lit 0.7) /\
    (water_level r = "High" <-> B64.lit 0.7 <= water_output r) /\
    water_pressure r = truncate_spec (B64.mul (water_output r) 100) /\
    (0 <= water_pressure r <= 100)%Z.
Proof.
  apply (water_level_and_pressure_rounded 235 0); input_ok.
Defined.

(** X8 at 128 degrees and 0 seconds. *)
Lemma water_output_floors_witness :
  exists r,
    B64.calculate_system_response 128 0 = Return r /\
    (120 <= 128 -> 0.2 - (1 # 10000000000000) <= water_output r) /\
    (180 <= 128 -> 0.6 - (1 # 10000000000000) <= water_output r) /\
    (220 <= 128 ->
     0.8 - (1 # 10000000000000) <= water_output r /\ water_level r = "High") /\
    (should_trigger r = true ->
     0.2 - (1 # 10000000000000) <= water_output r /\ water_level r <> "None").
Proof.
  apply (water_output_floors 128 0); input_ok.
Defined.

(** X9 at 220 degrees and 5 seconds. *)
Lemma water_output_ceilings_witness :
  exists r,
    B64.calculate_system_response 220 5 = Return r /\
    (220 <= 150 ->
     water_output r <= 0.6 + (1 # 10000000000000) /\ water_level r <> "High") /\
    (5 <= 10 ->
     water_output r <= 0.8 + (1 # 10000000000000) /\
     (water_pressure r <= 80)%Z).
Proof.
  apply (water_output_ceilings 220 5); input_ok.
Defined.

(** X20 at 20 degrees and a duration of -2^-1000 seconds. *)
Lemma membership_values_range_witness :
  Forall (fun v => 0 <= v) (values (B64.get_heat_membership 20)) /\
  Forall (fun v => 0 <= v)
    (values (B64.get_duration_membership (- B64.pow2 (-1000)))) /\
  (Forall (fun v => v <= 1) (values (B64.get_heat_membership 20))
   <-> 70 <= 20) /\
  (Forall (fun v => v <= 1)
     (values (B64.get_duration_membership (- B64.pow2 (-1000))))
   <-> - (1 # 2 ^ 50) <= - B64.pow2 (-1000)).
Proof.
  apply (membership_values_range 20 (- B64.pow2 (-1000))); input_ok.
Defined.
